(** * App-store traffic simulator: the synthetic traffic generation engine

    A shallow embedding of the two publisher scripts

      - [02_publisher_modulated.py]  (module [Simple]: back-to-back
        generation, closed-form diurnal curve), and
      - [05_publisher_modulated_users_Poisson_throttled.py] (module
        [Poisson]: thinning of a homogeneous Poisson process, tabulated
        diurnal curve, virtual clock, user pools),

    together with the properties of the engine that the design document
    states about them.

    Conventions of the embedding.

      - A Python [float] is embedded as the rational number ([Q]) it
        stands for, and the rounding [fl] of the results of float
        operations is a parameter of the model ([Py.Rounding]):
        [binary64] rounds to the nearest IEEE-754 double, as CPython
        does; [exact], the default instance, does not round.  The
        rounding is applied in the wall-clock hour ([get_current_hour]),
        in the refresh of the modulated weights of the Poisson script
        (rounded clock hour, local hour, table index, product and running
        sum), in the head count of start-up
        ([int(weight * fraction / replicas)]) and in the microsecond
        increment of the virtual clock.  The rate bound, the gaps between
        arrivals, the hour of the virtual clock, the draws of [random]
        and the closed-form curve of the simple script are carried as the
        real numbers they approximate.  A statement with a binder
        [{RD : Rounding}] holds whatever the rounding is, binary64
        included; a statement that names [binary64] or [exact] is about
        that rounding; any other statement is read with the default
        instance, exact numbers.
      - The diurnal modulators are written once over a small interface of
        arithmetic operations, so that the very same definition can also be
        run on IEEE-754 binary64 values ([SpecFloat.spec_float]) and
        on the reals ([R], for the cosine of the closed-form curve).
      - A Python [dict] is an association list in insertion order.
      - Mutable globals, the (mutable) configuration object, the random
        generator, the wall clock and the trace of outward effects form one
        explicit [State]; every function of the scripts is a computation
        in a state-and-exception monad.
      - The pseudo-random generator is an arbitrary infinite sequence of raw
        draws together with a read position, so the number and the order of
        draws made by a piece of code is observable. *)

From Stdlib Require Import ZArith QArith Qround Qabs Qreals Reals Machin.
From Stdlib Require Import List String Ascii Bool Decimal DecimalString.
From Stdlib Require Import SpecFloat Lia Lra Lqa Psatz Sorted.
Import ListNotations.

Set Implicit Arguments.

#[local] Open Scope Q_scope.

(* ================================================================== *)
(** * The Python run-time that the scripts rely on                     *)
(* ================================================================== *)

Module Py.

(** Exceptions raised by the scripts and by the library calls they make. *)
Inductive exn : Type :=
| ValueError (msg : string)
| KeyError (key : string)
| IndexError
| ZeroDivisionError
| OverflowError.

Inductive result (A : Type) : Type :=
| Ok (a : A)
| Raise (e : exn).
Arguments Ok {A} a.
Arguments Raise {A} e.

Definition rbind {A B} (r : result A) (k : A -> result B) : result B :=
  match r with
  | Ok a => k a
  | Raise e => Raise e
  end.

(** ** [dict]: insertion-ordered association lists *)

Definition dict (V : Type) : Type := list (string * V).

Definition keys {V} (d : dict V) : list string := map fst d.
Definition values {V} (d : dict V) : list V := map snd d.

Fixpoint get {V} (d : dict V) (k : string) : option V :=
  match d with
  | [] => None
  | (k', v) :: r => if String.eqb k k' then Some v else get r k
  end.

(** [d[k] = v]: an existing key keeps its position, a new key goes last. *)
Fixpoint set {V} (d : dict V) (k : string) (v : V) : dict V :=
  match d with
  | [] => [(k, v)]
  | (k', v') :: r =>
      if String.eqb k k' then (k, v) :: r else (k', v') :: set r k v
  end.

(** [del d[k]] (on a key that is present). *)
Fixpoint del {V} (d : dict V) (k : string) : dict V :=
  match d with
  | [] => []
  | (k', v') :: r => if String.eqb k k' then r else (k', v') :: del r k
  end.

(** [d[k]], raising [KeyError] on a missing key. *)
Definition getitem {V} (d : dict V) (k : string) : result V :=
  match get d k with
  | Some v => Ok v
  | None => Raise (KeyError k)
  end.

(** [d.get(k, default)]. *)
Definition get_default {V} (d : option V) (default : V) : V :=
  match d with
  | Some v => v
  | None => default
  end.

(** [l[i]] on a list: negative indices count from the end, anything
    outside [-len, len) raises [IndexError]. *)
Definition list_getitem {A} (l : list A) (i : Z) : result A :=
  let n := Z.of_nat (List.length l) in
  let j := if (i <? 0)%Z then (i + n)%Z else i in
  if ((j <? 0) || (n <=? j))%Z then Raise IndexError
  else match nth_error l (Z.to_nat j) with
       | Some a => Ok a
       | None => Raise IndexError
       end.

(** ** Numbers *)

(** [int(x)]: truncation toward zero. *)
Definition trunc (x : Q) : Z := Z.quot (Qnum x) (Zpos (Qden x)).

(** [x % m] for a non-zero modulus: the result has the sign of [m]. *)
Definition mod_ (x m : Q) : Q := x - m * inject_Z (Qfloor (x / m)).

(** Nearest integer, ties to even. *)
Definition round_half_even (x : Q) : Z :=
  let f := Qfloor x in
  match Qcompare (x - inject_Z f) (1 # 2) with
  | Lt => f
  | Gt => (f + 1)%Z
  | Eq => if Z.even f then f else (f + 1)%Z
  end.

(** [round(x, ndigits)] for [ndigits >= 0]. *)
Definition round (x : Q) (ndigits : nat) : Q :=
  let scale := inject_Z (10 ^ Z.of_nat ndigits) in
  inject_Z (round_half_even (x * scale)) / scale.

(** [str(n)] for an integer, as used by f-strings. *)
Definition str_of_Z (n : Z) : string := NilZero.string_of_int (Z.to_int n).

(** ** The arithmetic the diurnal table look-up needs, as an interface *)

Class FloatOps (F : Type) : Type := {
  of_int : Z -> F;            (* an integer literal used as a float *)
  of_milli : Z -> F;          (* the decimal literal  n / 1000      *)
  fmul : F -> F -> F;
  fmod : F -> F -> result F;  (* x % y *)
  ftrunc : F -> result Z      (* int(x) *)
}.

(** ** Floats as rationals

    The result of an operation on floats is the exact result rounded to
    the number format. *)
Class Rounding : Type := { fl : Q -> Q }.

(** Exact numbers: nothing is rounded. *)
#[export] Instance exact : Rounding := { fl x := x }.

(** Arithmetic on rationals with every result rounded.  For floats [x]
    and [y], [x % y] is the float nearest to the exact modulus: the
    remainder C's [fmod] computes is exact, and where CPython then adds
    [y] to give the result the sign of [y], that sum is rounded. *)
#[export] Instance Rounded {RD : Rounding} : FloatOps Q := {
  of_int z := inject_Z z;
  of_milli z := fl (z # 1000);
  fmul x y := fl (x * y);
  fmod x y := if Qeq_bool y 0 then Raise ZeroDivisionError
              else Ok (fl (mod_ x y));
  ftrunc x := Ok (trunc x)
}.

(** IEEE-754 binary64, the representation of a CPython [float]. *)
Module B64.

Definition prec : Z := 53.
Definition emax : Z := 1024.

Definition of_Z (z : Z) : spec_float := binary_normalize prec emax z 0 false.
Definition mul := SFmul prec emax.
Definition add := SFadd prec emax.
Definition div := SFdiv prec emax.

(** C's [fmod]: the exact remainder, with the sign of the dividend. *)
Definition c_fmod (x y : spec_float) : spec_float :=
  match x, y with
  | S754_nan, _ | _, S754_nan => S754_nan
  | S754_infinity _, _ => S754_nan
  | _, S754_zero _ => S754_nan
  | _, S754_infinity _ => x
  | S754_zero _, _ => x
  | S754_finite sx mx ex, S754_finite _ my ey =>
      let e := Z.min ex ey in
      let X := (Zpos mx * 2 ^ (ex - e))%Z in
      let Y := (Zpos my * 2 ^ (ey - e))%Z in
      let r := (X mod Y)%Z in
      binary_normalize prec emax (if sx then (- r)%Z else r) e sx
  end.

Definition is_zero (x : spec_float) : bool :=
  match x with S754_zero _ => true | _ => false end.

Definition is_neg (x : spec_float) : bool := SFltb x (S754_zero false).

(** CPython's [float.__mod__] ([float_rem] in floatobject.c). *)
Definition rem (vx wx : spec_float) : result spec_float :=
  if is_zero wx then Raise ZeroDivisionError
  else
    let m := c_fmod vx wx in
    if is_zero m then Ok (S754_zero (is_neg wx))
    else if negb (Bool.eqb (is_neg wx) (is_neg m)) then Ok (add m wx)
    else Ok m.

(** CPython's [int(x)] on a float. *)
Definition to_int (x : spec_float) : result Z :=
  match x with
  | S754_nan => Raise (ValueError "cannot convert float NaN to integer"%string)
  | S754_infinity _ => Raise OverflowError
  | S754_zero _ => Ok 0%Z
  | S754_finite s m e =>
      let v := if (0 <=? e)%Z then (Zpos m * 2 ^ e)%Z
               else (Zpos m / 2 ^ (- e))%Z in
      Ok (if s then (- v)%Z else v)
  end.

(** The rational number a finite float stands for. *)
Definition to_Q (x : spec_float) : Q :=
  match x with
  | S754_finite s m e =>
      let v := if (0 <=? e)%Z then inject_Z (Zpos m * 2 ^ e)
               else Zpos m # (2 ^ Z.to_pos (- e)) in
      if s then - v else v
  | _ => 0
  end.

(** The float nearest to a rational, ties to even: the quotient of
    numerator and denominator is taken with at least 55 significant bits
    and a sticky bit for what is left, and rounded from there. *)
Definition of_Q (x : Q) : spec_float :=
  let a := Z.abs (Qnum x) in
  let d := Zpos (Qden x) in
  let k := Z.max 0 (56 + Z.log2 d - Z.log2 a) in
  let q := (a * 2 ^ k / d)%Z in
  let sticky := if (a * 2 ^ k mod d =? 0)%Z then 0%Z else 1%Z in
  let m := (2 * q + sticky)%Z in
  binary_normalize prec emax (if (Qnum x <? 0)%Z then (- m)%Z else m)
                   (- k - 1) false.

(** The same as a rational, in lowest terms.  (Beyond the range of the
    format [of_Q] gives an infinity, which [to_Q] does not represent; no
    number below comes near it.) *)
Definition nearest (x : Q) : Q := Qred (to_Q (of_Q x)).

End B64.

(** CPython's floats: every result is rounded to binary64. *)
Definition binary64 : Rounding := {| fl := B64.nearest |}.

#[export] Instance Binary64 : FloatOps spec_float := {
  of_int := B64.of_Z;
  of_milli z := B64.div (B64.of_Z z) (B64.of_Z 1000);
  fmul := B64.mul;
  fmod := B64.rem;
  ftrunc := B64.to_int
}.

End Py.

Import Py.

(* ================================================================== *)
(** * DiurnalModulator, discretised policy (Poisson script)            *)
(* ================================================================== *)

Module Diurnal.

(** The 120 entries of [HOURLY_MODULATION_FACTORS], in thousandths. *)
Definition factors_milli : list Z :=
  [ 272; 251; 230; 210; 190;
    172; 155; 138; 123; 108;
     95;  83;  72;  62;  54;
     47;  41;  36;  33;  31;
     30;  31;  33;  36;  41;
     47;  54;  62;  72;  83;
     95; 108; 123; 138; 155;
    172; 190; 210; 230; 251;
    273; 295; 318; 341; 365;
    389; 414; 439; 464; 490;
    515; 540; 566; 591; 616;
    641; 665; 689; 712; 735;
    758; 779; 800; 820; 840;
    858; 875; 892; 907; 922;
    935; 947; 958; 968; 976;
    983; 989; 994; 997; 999;
   1000; 999; 997; 994; 989;
    983; 976; 968; 958; 947;
    935; 922; 907; 892; 875;
    858; 840; 820; 800; 779;
    758; 735; 712; 689; 665;
    641; 616; 591; 566; 540;
    515; 490; 464; 439; 414;
    389; 365; 341; 318; 295 ]%Z.

Definition HOURLY_MODULATION_FACTORS {F} `{FloatOps F} : list F :=
  map of_milli factors_milli.

(** The index expression [int((hour % 24) * 5)]. *)
Definition bucket {F} `{FloatOps F} (hour : F) : result Z :=
  rbind (fmod hour (of_int 24)) (fun m => ftrunc (fmul m (of_int 5))).

(** [user_daily_activity_pattern] of the Poisson script:
    [HOURLY_MODULATION_FACTORS[int((hour % 24) * 5)]]. *)
Definition user_daily_activity_pattern {F} `{FloatOps F} (hour : F)
  : result F :=
  rbind (bucket hour) (fun i => list_getitem HOURLY_MODULATION_FACTORS i).

End Diurnal.

(* ================================================================== *)
(** * Data model                                                       *)
(* ================================================================== *)

(** The configuration document.  A key that is absent from the JSON file is
    [None]; the scripts read every key through [.get(key, default)]. *)
Record RateConfig : Type := {
  events_per_second : option Q;
  randomness_factor : option Q
}.

Record SimulationParameters : Type := {
  users_population_fraction : option Q;
  gke_replicas_factor : option Q;
  user_interactions_per_day : option Q
}.

Record CountryInfos : Type := {
  distribution : option (dict Q);
  timezone : option (dict Q);
  distribution_modulated : option (dict Q)
}.

Record Config : Type := {
  gcp_project_id : option string;
  pubsub_topic_name : option string;
  event_type_distribution : option (dict Q);   (* ["event_type"]["distribution"] *)
  device_type_distribution : option (dict Q);  (* ["device_type"]["distribution"] *)
  country_infos : option CountryInfos;
  generation_rate : RateConfig;
  simulation_parameters : SimulationParameters
}.

(** JSON scalars that occur in an event. *)
Inductive json : Type :=
| JStr (s : string)
| JInt (n : Z)
| JNum (x : Q).

(** One event record; [event_details] is the payload object that the
    scripts serialise with [json.dumps] into a string field. *)
Record Event : Type := {
  generation_timestamp : Z;
  event_id : string;
  event_timestamp : json;
  user_id : string;
  session_id : string;
  event_type : string;
  app_id : string;
  device_type : string;
  os_version : string;
  country_code : string;
  event_details : dict json
}.

(** What the delivery loop does to the outside world. *)
Inductive Effect : Type :=
| Publish (topic : string) (e : Event)
| Sleep (seconds : Q).

(** The whole mutable world of a run. *)
Record State : Type := {
  rng_stream : nat -> N;          (* raw output of the generator ...   *)
  rng_pos : nat;                  (* ... and how much of it is used up *)
  wall_micros : Z;                (* int(time.time() * 1_000_000)      *)
  wall_hour : Z;                  (* datetime.now(Tehran).hour         *)
  wall_minute : Z;                (* datetime.now(Tehran).minute       *)
  trace : list Effect;            (* most recent effect first          *)
  config : Config;
  USERS_BY_COUNTRY : dict (list string);
  GLOBAL_TIMESTAMP_MICROS : Z;
  GLOBAL_TIMESTAMP_HOUR : Q;
  GLOBAL_RATE_MAXIMUM : Q
}.

Definition with_rng_pos (n : nat) (s : State) : State :=
  {| rng_stream := rng_stream s; rng_pos := n;
     wall_micros := wall_micros s; wall_hour := wall_hour s;
     wall_minute := wall_minute s; trace := trace s; config := config s;
     USERS_BY_COUNTRY := USERS_BY_COUNTRY s;
     GLOBAL_TIMESTAMP_MICROS := GLOBAL_TIMESTAMP_MICROS s;
     GLOBAL_TIMESTAMP_HOUR := GLOBAL_TIMESTAMP_HOUR s;
     GLOBAL_RATE_MAXIMUM := GLOBAL_RATE_MAXIMUM s |}.

Definition with_trace (t : list Effect) (s : State) : State :=
  {| rng_stream := rng_stream s; rng_pos := rng_pos s;
     wall_micros := wall_micros s; wall_hour := wall_hour s;
     wall_minute := wall_minute s; trace := t; config := config s;
     USERS_BY_COUNTRY := USERS_BY_COUNTRY s;
     GLOBAL_TIMESTAMP_MICROS := GLOBAL_TIMESTAMP_MICROS s;
     GLOBAL_TIMESTAMP_HOUR := GLOBAL_TIMESTAMP_HOUR s;
     GLOBAL_RATE_MAXIMUM := GLOBAL_RATE_MAXIMUM s |}.

Definition with_config (c : Config) (s : State) : State :=
  {| rng_stream := rng_stream s; rng_pos := rng_pos s;
     wall_micros := wall_micros s; wall_hour := wall_hour s;
     wall_minute := wall_minute s; trace := trace s; config := c;
     USERS_BY_COUNTRY := USERS_BY_COUNTRY s;
     GLOBAL_TIMESTAMP_MICROS := GLOBAL_TIMESTAMP_MICROS s;
     GLOBAL_TIMESTAMP_HOUR := GLOBAL_TIMESTAMP_HOUR s;
     GLOBAL_RATE_MAXIMUM := GLOBAL_RATE_MAXIMUM s |}.

Definition with_users (u : dict (list string)) (s : State) : State :=
  {| rng_stream := rng_stream s; rng_pos := rng_pos s;
     wall_micros := wall_micros s; wall_hour := wall_hour s;
     wall_minute := wall_minute s; trace := trace s; config := config s;
     USERS_BY_COUNTRY := u;
     GLOBAL_TIMESTAMP_MICROS := GLOBAL_TIMESTAMP_MICROS s;
     GLOBAL_TIMESTAMP_HOUR := GLOBAL_TIMESTAMP_HOUR s;
     GLOBAL_RATE_MAXIMUM := GLOBAL_RATE_MAXIMUM s |}.

Definition with_clock (micros : Z) (hour : Q) (s : State) : State :=
  {| rng_stream := rng_stream s; rng_pos := rng_pos s;
     wall_micros := wall_micros s; wall_hour := wall_hour s;
     wall_minute := wall_minute s; trace := trace s; config := config s;
     USERS_BY_COUNTRY := USERS_BY_COUNTRY s;
     GLOBAL_TIMESTAMP_MICROS := micros;
     GLOBAL_TIMESTAMP_HOUR := hour;
     GLOBAL_RATE_MAXIMUM := GLOBAL_RATE_MAXIMUM s |}.

Definition with_rate (r : Q) (s : State) : State :=
  {| rng_stream := rng_stream s; rng_pos := rng_pos s;
     wall_micros := wall_micros s; wall_hour := wall_hour s;
     wall_minute := wall_minute s; trace := trace s; config := config s;
     USERS_BY_COUNTRY := USERS_BY_COUNTRY s;
     GLOBAL_TIMESTAMP_MICROS := GLOBAL_TIMESTAMP_MICROS s;
     GLOBAL_TIMESTAMP_HOUR := GLOBAL_TIMESTAMP_HOUR s;
     GLOBAL_RATE_MAXIMUM := r |}.

(* ================================================================== *)
(** * The state-and-exception monad                                    *)
(* ================================================================== *)

(** A computation runs on a state and either returns a value or raises;
    in both cases the mutations made so far persist. *)
Definition M (A : Type) : Type := State -> result A * State.

Definition ret {A} (a : A) : M A := fun s => (Ok a, s).
Definition raise {A} (e : exn) : M A := fun s => (Raise e, s).
Definition bind {A B} (m : M A) (k : A -> M B) : M B :=
  fun s => match m s with
           | (Ok a, s') => k a s'
           | (Raise e, s') => (Raise e, s')
           end.
Definition lift {A} (r : result A) : M A := fun s => (r, s).
Definition gets {A} (f : State -> A) : M A := fun s => (Ok (f s), s).
Definition modify (f : State -> State) : M unit := fun s => (Ok tt, f s).

Declare Scope monad_scope.
Delimit Scope monad_scope with monad.
Notation "x <- m ;; k" := (bind m (fun x => k))
  (at level 61, m at next level, right associativity) : monad_scope.
Notation "' p <- m ;; k" := (bind m (fun x => let p := x in k))
  (at level 61, p pattern, m at next level, right associativity) : monad_scope.
Notation "m ;;; k" := (bind m (fun _ => k))
  (at level 61, right associativity) : monad_scope.
#[local] Open Scope monad_scope.

(** [for x in xs: body(x)], stopping at the first exception. *)
Fixpoint for_each {A} (xs : list A) (body : A -> M unit) : M unit :=
  match xs with
  | [] => ret tt
  | x :: r => body x ;;; for_each r body
  end.

(** [x / y] on floats. *)
Definition truediv (x y : Q) : result Q :=
  if Qeq_bool y 0 then Raise ZeroDivisionError else Ok (x / y).

(* ================================================================== *)
(** * Library calls: [math], [random], [faker], [uuid], [time]         *)
(* ================================================================== *)

(** The transcendental functions of [math] have no rational closed form;
    they are a parameter of the model. *)
Class MathLib (F : Type) : Type := {
  math_cos : F -> F;
  math_pi : F;
  math_log : F -> F
}.

#[export] Instance MathR : MathLib R := {
  math_cos := cos;
  math_pi := PI;
  math_log := ln
}.

Module Random.

(** One raw draw of the generator. *)
Definition raw : M N :=
  fun s => (Ok (rng_stream s (rng_pos s)), with_rng_pos (S (rng_pos s)) s).

(** [random.random()]: a multiple of 2^-53 in [0, 1). *)
Definition random : M Q :=
  k <- raw ;;
  ret (Z.of_N (k mod 2 ^ 53) # 2 ^ 53).

(** [_randbelow(n)] for [n > 0]: an integer in [0, n). *)
Definition randbelow (n : Z) : M Z :=
  k <- raw ;;
  ret (Z.of_N k mod n)%Z.

(** [random.randint(a, b)]: [a + _randbelow(b - a + 1)]. *)
Definition randint (a b : Z) : M Z :=
  k <- randbelow (b - a + 1) ;;
  ret (a + k)%Z.

(** [random.uniform(a, b)]: [a + (b - a) * random()]. *)
Definition uniform (a b : Q) : M Q :=
  u <- random ;;
  ret (a + (b - a) * u).

(** [random.choice(seq)]. *)
Definition choice {A} (seq : list A) : M A :=
  match seq with
  | [] => raise IndexError
  | _ :: _ =>
      i <- randbelow (Z.of_nat (List.length seq)) ;;
      lift (list_getitem seq i)
  end.

(** [random.expovariate(lambd)]: [-log(1.0 - random()) / lambd]. *)
Definition expovariate `{MathLib Q} (lambd : Q) : M Q :=
  u <- random ;;
  lift (truediv (- math_log (1 - u)) lambd).

(** [itertools.accumulate]: running sums. *)
Fixpoint accumulate_from (acc : Q) (ws : list Q) : list Q :=
  match ws with
  | [] => []
  | w :: r => (acc + w) :: accumulate_from (acc + w) r
  end.

Definition accumulate (ws : list Q) : list Q :=
  match ws with
  | [] => []
  | w :: r => w :: accumulate_from w r
  end.

(** [bisect.bisect_right(a, x, lo, hi)]; the loop
      [while lo < hi: mid = (lo + hi) // 2;
                      if x < a[mid]: hi = mid  else: lo = mid + 1]
    runs at most [hi - lo] times. *)
Fixpoint bisect_loop (fuel : nat) (a : list Q) (x : Q) (lo hi : nat) : nat :=
  match fuel with
  | O => lo
  | S fuel' =>
      if (lo <? hi)%nat then
        let mid := ((lo + hi) / 2)%nat in
        if Qlt_le_dec x (nth mid a 0) then bisect_loop fuel' a x lo mid
        else bisect_loop fuel' a x (S mid) hi
      else lo
  end.

Definition bisect (a : list Q) (x : Q) (lo hi : nat) : nat :=
  bisect_loop (hi - lo) a x lo hi.

(** [random.choices(population, weights=weights, k=1)[0]]
    (CPython 3.9 and later). *)
Definition choices1 {A} (population : list A) (weights : list Q) : M A :=
  let n := List.length population in
  let cum_weights := accumulate weights in
  if negb (List.length cum_weights =? n)%nat then
    raise (ValueError "The number of weights does not match the population")
  else
    let total := last cum_weights 0 in
    if Qle_bool total 0 then
      raise (ValueError "Total of weights must be greater than zero")
    else
      u <- random ;;
      lift (list_getitem population
              (Z.of_nat (bisect cum_weights (u * total) 0 (n - 1)))).

End Random.

(** The mock-data provider and [uuid]: fresh opaque tokens, one raw draw
    each. *)
Module Faker.

Definition token (prefix : string) : M string :=
  k <- Random.raw ;;
  ret (prefix ++ str_of_Z (Z.of_N k))%string.

Definition bs : M string := token "bs-".
Definition uuid4 : M string := token "uuid-".
Definition iso8601 : M string := token "iso8601-".

End Faker.

Definition uuid_uuid4 : M string := Faker.token "uuid-".

Definition get_current_timestamp_micros : M Z := gets wall_micros.

(** [time.sleep(seconds)] and [publisher.publish(topic_path, data)], as
    entries of the effect trace. *)
Definition time_sleep (seconds : Q) : M unit :=
  modify (fun s => with_trace (Sleep seconds :: trace s) s).

Definition publish (topic_path : string) (event_data : Event) : M unit :=
  modify (fun s => with_trace (Publish topic_path event_data :: trace s) s).

(** [now.hour + round(now.minute / 60, 1)]. *)
Definition get_current_hour {RD : Rounding} : M Q :=
  s <- gets (fun s => s) ;;
  ret (fl (inject_Z (wall_hour s)
           + fl (Py.round (fl (inject_Z (wall_minute s) / 60)) 1))).

(* ================================================================== *)
(** * Code shared verbatim by the two scripts                          *)
(* ================================================================== *)

(** [get_weighted_choice(distribution)]. *)
Definition get_weighted_choice (distribution : dict Q) : M string :=
  match distribution with
  | [] => raise (ValueError "Distribution dictionary cannot be empty")
  | _ :: _ => Random.choices1 (keys distribution) (values distribution)
  end.

(** The [event_details_obj] block of [generate_event]. *)
Definition event_details_obj (event_type : string) : M (dict json) :=
  if (event_type =? "search")%string then
    q <- Faker.bs ;;
    ret (set [] "search_query" (JStr q))
  else if (event_type =? "review_submit")%string then
    r <- Random.randint 1 5 ;;
    ret (set [] "rating" (JInt r))
  else if (event_type =? "in_app_purchase")%string then
    i <- Random.randint 100 999 ;;
    let d := set [] "item_id" (JStr ("iap_" ++ str_of_Z i)) in
    p <- Random.uniform (99 # 100) (9999 # 100) ;;
    ret (set d "price_usd" (JNum (Py.round p 2)))
  else ret [].

(** The f-strings for [app_id] and [os_version]. *)
Definition gen_app_id : M string :=
  n <- Random.randint 1000 9999 ;;
  ret ("app_" ++ str_of_Z n)%string.

Definition gen_os_version : M string :=
  os <- Random.choice ["iOS"; "Android"]%string ;;
  major <- Random.randint 12 15 ;;
  minor <- Random.randint 0 5 ;;
  ret (os ++ " " ++ str_of_Z major ++ "." ++ str_of_Z minor)%string.

(** Arithmetic of the closed-form curve, for rationals and for reals. *)
Class Arith (F : Type) : Type := {
  lit : Q -> F;
  add : F -> F -> F;
  sub : F -> F -> F;
  mul : F -> F -> F;
  div : F -> F -> F
}.

#[export] Instance ArithQ : Arith Q :=
  {| lit q := q; add := Qplus; sub := Qminus; mul := Qmult; div := Qdiv |}.

#[export] Instance ArithR : Arith R :=
  {| lit := Q2R; add := Rplus; sub := Rminus; mul := Rmult; div := Rdiv |}.

(* ================================================================== *)
(** * The simple variant: 02_publisher_modulated.py                    *)
(* ================================================================== *)

Module Simple.

(** [user_daily_activity_pattern]:
    [0.03 + 0.97 * (1 + math.cos((hour - 16) * (2 * math.pi / 24))) / 2]. *)
Definition user_daily_activity_pattern {F} `{Arith F} `{MathLib F}
  (hour : F) : F :=
  add (lit (3 # 100))
      (div (mul (lit (97 # 100))
                (add (lit 1)
                     (math_cos (mul (sub hour (lit 16))
                                    (div (mul (lit 2) math_pi) (lit 24))))))
           (lit 2)).

Section WithMath.
Context {ML : MathLib Q} {RD : Rounding}.

Fixpoint modulate (tz : dict Q) (current_hour : Q) (items : dict Q)
  (modulated_weights : dict Q) : result (dict Q) :=
  match items with
  | [] => Ok modulated_weights
  | (country, weight) :: rest =>
      rbind (getitem tz country) (fun offset =>
      let country_hour := current_hour + offset in
      modulate tz current_hour rest
        (set modulated_weights country
             (weight * user_daily_activity_pattern country_hour)))
  end.

(** [generate_time_modulated_weights(country_distribution, country_timezone)]. *)
Definition generate_time_modulated_weights
  (country_distribution country_timezone : dict Q) : M (dict Q) :=
  current_hour <- get_current_hour ;;
  lift (modulate country_timezone current_hour country_distribution []).

(** [generate_event(config)]. *)
Definition generate_event : M Event :=
  cfg <- gets config ;;
  event_type <- get_weighted_choice
                  (get_default (event_type_distribution cfg) []) ;;
  details <- event_details_obj event_type ;;
  let ci := country_infos cfg in
  let dist := match ci with
              | Some c => get_default (distribution c) []
              | None => []
              end in
  let tz := match ci with
            | Some c => get_default (timezone c) []
            | None => []
            end in
  country_distribution_modulated <- generate_time_modulated_weights dist tz ;;
  generation_timestamp <- get_current_timestamp_micros ;;
  event_id <- uuid_uuid4 ;;
  event_timestamp <- Faker.iso8601 ;;
  user_id <- Faker.uuid4 ;;
  session_id <- Faker.uuid4 ;;
  app_id <- gen_app_id ;;
  device_type <- get_weighted_choice
                   (get_default (device_type_distribution cfg) []) ;;
  os_version <- gen_os_version ;;
  country_code <- get_weighted_choice country_distribution_modulated ;;
  ret {| generation_timestamp := generation_timestamp;
         event_id := event_id;
         event_timestamp := JStr event_timestamp;
         user_id := user_id;
         session_id := session_id;
         event_type := event_type;
         app_id := app_id;
         device_type := device_type;
         os_version := os_version;
         country_code := country_code;
         event_details := details |}.

(** The pacing block of the delivery loop. *)
Definition pace (base_rate randomness : Q) : M unit :=
  if Qlt_le_dec 0 base_rate then
    j <- Random.uniform (- randomness) randomness ;;
    let sleep_duration := (1 / base_rate) * (1 + j) in
    time_sleep (if Qlt_le_dec 0 sleep_duration then sleep_duration else 0)
  else ret tt.

(** One turn of the [while True] loop of [publish_messages_batch].  The
    completion callback of the transport and the periodic progress line
    only touch the published/failed tallies and the console; they are
    not part of the model. *)
Definition loop_iteration (topic_path : string) : M unit :=
  cfg <- gets config ;;
  let base_rate := get_default (events_per_second (generation_rate cfg)) 0 in
  let randomness :=
    get_default (randomness_factor (generation_rate cfg)) (1 # 10) in
  event_data <- generate_event ;;
  publish topic_path event_data ;;;
  pace base_rate randomness.

End WithMath.

End Simple.

(* ================================================================== *)
(** * The Poisson variant:
      05_publisher_modulated_users_Poisson_throttled.py                *)
(* ================================================================== *)

Module Poisson.

Section WithRounding.
Context {RD : Rounding}.

(** The tabulated modulator, on floats as rationals: [hour % 24] and the
    product with 5 are rounded with [fl], and so are the table entries
    (the literals [0.272], ...). *)
Definition user_daily_activity_pattern (hour : Q) : result Q :=
  Diurnal.user_daily_activity_pattern hour.

(** The sub-dictionaries of [config["country_infos"]], read with
    [.get(key, {})]. *)
Definition country_distribution_of (c : Config) : dict Q :=
  match country_infos c with
  | Some ci => get_default (distribution ci) []
  | None => []
  end.

Definition country_timezone_of (c : Config) : dict Q :=
  match country_infos c with
  | Some ci => get_default (timezone ci) []
  | None => []
  end.

Definition country_distribution_modulated_of (c : Config) : dict Q :=
  match country_infos c with
  | Some ci => get_default (distribution_modulated ci) []
  | None => []
  end.

Definition with_country_infos (ci : option CountryInfos) (c : Config)
  : Config :=
  {| gcp_project_id := gcp_project_id c;
     pubsub_topic_name := pubsub_topic_name c;
     event_type_distribution := event_type_distribution c;
     device_type_distribution := device_type_distribution c;
     country_infos := ci;
     generation_rate := generation_rate c;
     simulation_parameters := simulation_parameters c |}.

(** In-place mutation of the dictionary that
    [country_infos.get("distribution_modulated", {})] returned: it is the
    configuration's own object when the key is present, a temporary
    otherwise. *)
Definition mutate_modulated (m : dict Q) (c : Config) : Config :=
  match country_infos c with
  | Some ci =>
      match distribution_modulated ci with
      | Some _ =>
          with_country_infos
            (Some {| distribution := distribution ci;
                     timezone := timezone ci;
                     distribution_modulated := Some m |}) c
      | None => c
      end
  | None => c
  end.

(** [country_infos['distribution_modulated'] = m]. *)
Definition assign_modulated (m : dict Q) (c : Config) : Config :=
  match country_infos c with
  | Some ci =>
      with_country_infos
        (Some {| distribution := distribution ci;
                 timezone := timezone ci;
                 distribution_modulated := Some m |}) c
  | None => c
  end.

(** [del country_distribution[country]]. *)
Definition del_country (country : string) (c : Config) : Config :=
  match country_infos c with
  | Some ci =>
      match distribution ci with
      | Some d =>
          with_country_infos
            (Some {| distribution := Some (del d country);
                     timezone := timezone ci;
                     distribution_modulated := distribution_modulated ci |}) c
      | None => c
      end
  | None => c
  end.

(** The loop of [generate_time_modulated_weights]; the accumulator is the
    dictionary being refreshed and the running sum.  An exception leaves
    the entries written so far in place. *)
Fixpoint modulate (tz : dict Q) (current_hour : Q) (items : dict Q)
  (acc : dict Q * Q) : result unit * (dict Q * Q) :=
  match items with
  | [] => (Ok tt, acc)
  | (country, weight) :: rest =>
      match getitem tz country with
      | Raise e => (Raise e, acc)
      | Ok offset =>
          let country_hour := fl (current_hour + offset) in
          match user_daily_activity_pattern country_hour with
          | Raise e => (Raise e, acc)
          | Ok f =>
              let m := set (fst acc) country (fl (weight * f)) in
              modulate tz current_hour rest
                       (m, fl (snd acc + get_default (get m country) 0))
          end
      end
  end.

(** [generate_time_modulated_weights(country_infos)], called on
    [config["country_infos"]]. *)
Definition generate_time_modulated_weights : M (dict Q * Q) :=
  s <- gets (fun s => s) ;;
  let current_hour := fl (Py.round (GLOBAL_TIMESTAMP_HOUR s) 2) in
  let country_distribution := country_distribution_of (config s) in
  let country_timezone := country_timezone_of (config s) in
  let country_distribution_modulated :=
    country_distribution_modulated_of (config s) in
  let '(r, (m, sum)) :=
    modulate country_timezone current_hour country_distribution
             (country_distribution_modulated, 0) in
  modify (fun s => with_config (mutate_modulated m (config s)) s) ;;;
  match r with
  | Ok _ => ret (m, sum)
  | Raise e => raise e
  end.

Section WithMath.
Context {ML : MathLib Q}.

(** [generate_event(config)]; [None] is the "no event this tick" signal. *)
Definition generate_event : M (option Event) :=
  rate <- gets GLOBAL_RATE_MAXIMUM ;;
  dt_seconds <- Random.expovariate rate ;;
  modify (fun s =>
    with_clock (GLOBAL_TIMESTAMP_MICROS s
                + trunc (fl (dt_seconds * 1000000)))%Z
               (GLOBAL_TIMESTAMP_HOUR s + dt_seconds / 3600) s) ;;;
  '(country_distribution_modulated, country_distribution_modulated_sum)
     <- generate_time_modulated_weights ;;
  u <- Random.random ;;
  p <- lift (truediv country_distribution_modulated_sum rate) ;;
  if Qlt_le_dec p u then ret None
  else
    country_code <- get_weighted_choice country_distribution_modulated ;;
    users <- gets USERS_BY_COUNTRY ;;
    pool <- lift (getitem users country_code) ;;
    user_id <- Random.choice pool ;;
    cfg <- gets config ;;
    event_type <- get_weighted_choice
                    (get_default (event_type_distribution cfg) []) ;;
    details <- event_details_obj event_type ;;
    current_timestamp <- get_current_timestamp_micros ;;
    event_id <- uuid_uuid4 ;;
    event_timestamp <- gets GLOBAL_TIMESTAMP_MICROS ;;
    session_id <- Faker.uuid4 ;;
    app_id <- gen_app_id ;;
    device_type <- get_weighted_choice
                     (get_default (device_type_distribution cfg) []) ;;
    os_version <- gen_os_version ;;
    ret (Some {| generation_timestamp := current_timestamp;
                 event_id := event_id;
                 event_timestamp := JInt event_timestamp;
                 user_id := user_id;
                 session_id := session_id;
                 event_type := event_type;
                 app_id := app_id;
                 device_type := device_type;
                 os_version := os_version;
                 country_code := country_code;
                 event_details := details |}).

(** The pacing block of the delivery loop. *)
Definition pace (base_rate randomness : Q) : M unit :=
  if Qlt_le_dec 0 base_rate then
    j <- Random.uniform (- randomness) randomness ;;
    let sleep_duration := (1 / base_rate) * (1 + j) in
    time_sleep (if Qlt_le_dec 0 sleep_duration then sleep_duration else 0)
  else time_sleep (225 # 100000).

(** One turn of the [while True] loop of [publish_messages_batch]; a
    rejected tick goes straight to the next turn ([continue]).  As in the
    simple variant, callback and progress line are not modelled. *)
Definition loop_iteration (topic_path : string) : M unit :=
  cfg <- gets config ;;
  let base_rate := get_default (events_per_second (generation_rate cfg)) 0 in
  let randomness :=
    get_default (randomness_factor (generation_rate cfg)) (1 # 10) in
  event_data <- generate_event ;;
  match event_data with
  | None => ret tt
  | Some e =>
      publish topic_path e ;;;
      pace base_rate randomness
  end.

(** [n] turns of the loop.  An exception ends the loop: the [except]
    clause reports it and the function returns. *)
Fixpoint run (n : nat) (topic_path : string) : M unit :=
  match n with
  | O => ret tt
  | S n' =>
      fun s => match loop_iteration topic_path s with
               | (Ok _, s') => run n' topic_path s'
               | (Raise _, s') => (Ok tt, s')
               end
  end.

Definition topic_path (project_id topic_name : string) : string :=
  ("projects/" ++ project_id ++ "/topics/" ++ topic_name)%string.

Definition publish_messages_batch (project_id topic_name : string)
  (iterations : nat) : M unit :=
  run iterations (topic_path project_id topic_name).

(** [[fake.uuid4() for _ in range(n)]]. *)
Fixpoint fresh_users (n : nat) : M (list string) :=
  match n with
  | O => ret []
  | S n' =>
      u <- Faker.uuid4 ;;
      r <- fresh_users n' ;;
      ret (u :: r)
  end.

(** The body of the [for country in keys] loop of [main]. *)
Definition init_country (users_population_fraction gke_replicas_factor
  user_interactions_per_second : Q) (country : string) : M unit :=
  cfg <- gets config ;;
  weight <- lift (getitem (country_distribution_of cfg) country) ;;
  x <- lift (truediv (fl (weight * users_population_fraction))
                     gke_replicas_factor) ;;
  let n_users_in_country := trunc (fl x) in
  if (n_users_in_country =? 0)%Z then
    modify (fun s => with_config (del_country country (config s)) s)
  else
    users <- fresh_users (Z.to_nat n_users_in_country) ;;
    modify (fun s => with_users (set (USERS_BY_COUNTRY s) country users) s) ;;;
    modify (fun s =>
      with_rate (GLOBAL_RATE_MAXIMUM s
                 + inject_Z n_users_in_country * user_interactions_per_second)
                s).

(** [main], from "Initialize users by country" up to the call of
    [publish_messages_batch]. *)
Definition startup : M unit :=
  cfg <- gets config ;;
  let country_distribution := country_distribution_of cfg in
  modify (fun s =>
    with_config
      (assign_modulated (map (fun kv => (fst kv, 0)) country_distribution)
                        (config s)) s) ;;;
  let sp := simulation_parameters cfg in
  let users_population_fraction :=
    get_default (users_population_fraction sp) (fl (1 # 1000)) in
  let gke_replicas_factor := get_default (gke_replicas_factor sp) 10 in
  let user_interactions_per_day :=
    get_default (user_interactions_per_day sp) 57 in
  let user_interactions_per_second :=
    user_interactions_per_day / (24 * 60 * 60) in
  let keys := keys country_distribution in
  for_each keys
    (init_country users_population_fraction gke_replicas_factor
                  user_interactions_per_second) ;;;
  micros <- get_current_timestamp_micros ;;
  modify (fun s => with_clock micros (GLOBAL_TIMESTAMP_HOUR s) s) ;;;
  hour <- get_current_hour ;;
  modify (fun s => with_clock (GLOBAL_TIMESTAMP_MICROS s) hour s) ;;;
  modify (fun s => with_clock 1760854441420750 (GLOBAL_TIMESTAMP_HOUR s) s) ;;;
  modify (fun s => with_clock (GLOBAL_TIMESTAMP_MICROS s)
                              (6233727986111111 # 1000000000000000) s).

(** What [json.load] of the [--config] file gave. *)
Inductive ConfigFile : Type :=
| FileNotFound
| JSONDecodeError
| Parsed (c : Config).

Definition falsy (x : option string) : bool :=
  match x with
  | None => true
  | Some v => (v =? EmptyString)%string
  end.

(** The module as loaded: empty user pools, clock and rate at zero. *)
Definition module_state (stream : nat -> N) (micros hour minute : Z)
  (c : Config) : State :=
  {| rng_stream := stream; rng_pos := 0;
     wall_micros := micros; wall_hour := hour; wall_minute := minute;
     trace := []; config := c;
     USERS_BY_COUNTRY := [];
     GLOBAL_TIMESTAMP_MICROS := 0;
     GLOBAL_TIMESTAMP_HOUR := 0;
     GLOBAL_RATE_MAXIMUM := 0 |}.

(** [main()], with the unbounded delivery loop cut after [iterations]
    turns (the point at which the operator interrupts it). *)
Definition main (file : ConfigFile) (iterations : nat) : M unit :=
  match file with
  | FileNotFound => ret tt
  | JSONDecodeError => ret tt
  | Parsed c =>
      modify (with_config c) ;;;
      if falsy (gcp_project_id c) || falsy (pubsub_topic_name c) then ret tt
      else
        startup ;;;
        publish_messages_batch (get_default (gcp_project_id c) EmptyString)
                               (get_default (pubsub_topic_name c) EmptyString)
                               iterations
  end.

End WithMath.

End WithRounding.

End Poisson.

(* ================================================================== *)
(** * A concrete run, used to exercise the statements below            *)
(* ================================================================== *)

Module Example.

(** Rational stand-ins for [math.cos], [math.pi] and [math.log]:
    the Taylor polynomial of degree 4, 355/113, and the first terms of
    [2 * atanh((x - 1) / (x + 1))]. *)
Definition rational_math : MathLib Q := {|
  math_cos x := 1 - x * x / 2 + x * x * x * x / 24;
  math_pi := 355 # 113;
  math_log x := let t := (x - 1) / (x + 1) in
                2 * (t + t * t * t / 3 + t * t * t * t * t / 5)
|}.

Definition cfg : Config := {|
  gcp_project_id := Some "my-project"%string;
  pubsub_topic_name := Some "app-store-events"%string;
  event_type_distribution :=
    Some [("app_open", 4 # 10); ("search", 3 # 10);
          ("review_submit", 1 # 10); ("in_app_purchase", 2 # 10)]%string;
  device_type_distribution :=
    Some [("phone", 8 # 10); ("tablet", 2 # 10)]%string;
  country_infos :=
    Some {| distribution :=
              Some [("US", 300000); ("IR", 80000); ("XX", 1 # 1000)]%string;
            timezone :=
              Some [("US", - (5)); ("IR", 7 # 2); ("XX", 0)]%string;
            distribution_modulated := None |};
  generation_rate := {| events_per_second := Some 0;
                        randomness_factor := Some (2 # 10) |};
  simulation_parameters := {| users_population_fraction := Some (1 # 1000);
                              gke_replicas_factor := Some 10;
                              user_interactions_per_day := Some 57 |}
|}.




(** Some raw generator output. *)
Definition stream (n : nat) : N :=
  (N.of_nat n * 1697191578523268759 + 12345)%N.

(** The module as loaded, and the state in which the delivery loop
    starts. *)
Definition loaded : State := Poisson.module_state stream 1000 10 30 cfg.
Definition started : State := snd (Poisson.startup loaded).

End Example.

(* ================================================================== *)
(** * Vocabulary of the statements                                     *)
(* ================================================================== *)

Unset Implicit Arguments.

(** The hour [-2^-70] as a binary64 value. *)
Definition tiny_negative_hour : spec_float :=
  S754_finite true 4503599627370496 (-122).

(** Sum of a list of weights, left to right. *)
Definition total_weight (ws : list Q) : Q := fold_left Qplus ws 0.

(** The same sum as a loop over floats adds it up, starting from [a]. *)
Definition float_sum_from {RD : Rounding} (a : Q) (ws : list Q) : Q :=
  fold_left (fun acc w => fl (acc + w)) ws a.

Definition float_sum {RD : Rounding} (ws : list Q) : Q := float_sum_from 0 ws.


(** The payload rule of each event type. *)
Definition payload_rule (event_type : string) (details : dict json) : Prop :=
  if (event_type =? "search")%string then
    exists q, details = [("search_query"%string, JStr q)]
  else if (event_type =? "review_submit")%string then
    exists r, details = [("rating"%string, JInt r)] /\ (1 <= r <= 5)%Z
  else if (event_type =? "in_app_purchase")%string then
    exists i p cents,
      details = [("item_id"%string, JStr ("iap_" ++ str_of_Z i));
                 ("price_usd"%string, JNum p)] /\
      (100 <= i <= 999)%Z /\
      (99 # 100) <= p /\ p <= (9999 # 100) /\
      p = inject_Z cents / 100
  else details = [].

(** The state holds a configuration whose country distribution is the
    dictionary [d] (and not a temporary default). *)
Definition has_distribution (s : State) (d : dict Q) : Prop :=
  exists ci, country_infos (config s) = Some ci /\ distribution ci = Some d.

(** The number of users start-up creates for a country of weight [w]:
    [int(weight * users_population_fraction / gke_replicas_factor)]. *)
Definition users_of_weight {RD : Rounding} (f r w : Q) : Z :=
  trunc (fl (fl (w * f) / r)).

(** What one country of the start-up loop ends up with. *)
Definition country_outcome {RD : Rounding} (f r : Q) (s s' : State)
  (d' : dict Q) (c : string) (w : Q) : Prop :=
  (users_of_weight f r w = 0%Z ->
     get d' c = None /\
     get (USERS_BY_COUNTRY s') c = get (USERS_BY_COUNTRY s) c) /\
  (users_of_weight f r w <> 0%Z ->
     get d' c = Some w /\
     exists pool, get (USERS_BY_COUNTRY s') c = Some pool /\
                  List.length pool = Z.to_nat (users_of_weight f r w)).

(** The parameters of the start-up loop, with the defaults of [main]. *)
Definition population_fraction {RD : Rounding} (c : Config) : Q :=
  get_default (users_population_fraction (simulation_parameters c))
              (fl (1 # 1000)).

Definition replicas_factor (c : Config) : Q :=
  get_default (gke_replicas_factor (simulation_parameters c)) 10.

Definition interactions_per_second (c : Config) : Q :=
  get_default (user_interactions_per_day (simulation_parameters c)) 57
  / (24 * 60 * 60).

(** The resume point written into the script. *)
Definition RESUME_MICROS : Z := 1760854441420750.

Definition RESUME_HOUR : Q := 6233727986111111 # 1000000000000000.

(** The modulated weights read back from the refreshed dictionary, in the
    order of the distribution. *)
Definition modulated_weights (m : dict Q) (countries : list string) : list Q :=
  map (fun c => get_default (get m c) 0) countries.

(** The value [random.random()] returns when the generator stands at
    position [i] of the raw stream. *)
Definition uniform_at (s : State) (i : nat) : Q :=
  Z.of_N (rng_stream s i mod 2 ^ 53) # 2 ^ 53.

(** The gap [random.expovariate(GLOBAL_RATE_MAXIMUM)] returns in [s]. *)
Definition gap (ML : MathLib Q) (s : State) : Q :=
  - math_log (1 - uniform_at s (rng_pos s)) / GLOBAL_RATE_MAXIMUM s.

(** The state after the clock has been advanced by [dt] seconds. *)
Definition advance {RD : Rounding} (dt : Q) (s : State) : State :=
  with_clock (GLOBAL_TIMESTAMP_MICROS s + trunc (fl (dt * 1000000)))%Z
             (GLOBAL_TIMESTAMP_HOUR s + dt / 3600) s.

(** The part of the Poisson [generate_event] that runs once the arrival
    is accepted: sampling of country, user and event attributes. *)
Definition sample_event (country_distribution_modulated : dict Q)
  : M (option Event) :=
  country_code <- get_weighted_choice country_distribution_modulated ;;
  users <- gets USERS_BY_COUNTRY ;;
  pool <- lift (getitem users country_code) ;;
  user_id <- Random.choice pool ;;
  cfg <- gets config ;;
  event_type <- get_weighted_choice
                  (get_default (event_type_distribution cfg) []) ;;
  details <- event_details_obj event_type ;;
  current_timestamp <- get_current_timestamp_micros ;;
  event_id <- uuid_uuid4 ;;
  event_timestamp <- gets GLOBAL_TIMESTAMP_MICROS ;;
  session_id <- Faker.uuid4 ;;
  app_id <- gen_app_id ;;
  device_type <- get_weighted_choice
                   (get_default (device_type_distribution cfg) []) ;;
  os_version <- gen_os_version ;;
  ret (Some {| generation_timestamp := current_timestamp;
               event_id := event_id;
               event_timestamp := JInt event_timestamp;
               user_id := user_id;
               session_id := session_id;
               event_type := event_type;
               app_id := app_id;
               device_type := device_type;
               os_version := os_version;
               country_code := country_code;
               event_details := details |}).

(** The part that follows the clock update: recomputation of the weights
    and the acceptance test. *)
Definition thinning_step {RD : Rounding} (rate : Q) : M (option Event) :=
  '(country_distribution_modulated, country_distribution_modulated_sum)
     <- Poisson.generate_time_modulated_weights ;;
  u <- Random.random ;;
  p <- lift (truediv country_distribution_modulated_sum rate) ;;
  if Qlt_le_dec p u then ret None
  else sample_event country_distribution_modulated.

(** Whatever [m] returns or raises, start and end state are related by
    [R]. *)
Definition preserves (R : State -> State -> Prop) {A} (m : M A) : Prop :=
  forall s r s', m s = (r, s') -> R s s'.

(** Three instances: the effect trace is untouched; the virtual clock is
    untouched; the virtual clock does not go back. *)
Definition same_trace (s s' : State) : Prop := trace s' = trace s.


Definition clock_le (s s' : State) : Prop :=
  GLOBAL_RATE_MAXIMUM s' = GLOBAL_RATE_MAXIMUM s /\
  (0 <= GLOBAL_RATE_MAXIMUM s ->
   (GLOBAL_TIMESTAMP_MICROS s <= GLOBAL_TIMESTAMP_MICROS s')%Z /\
   GLOBAL_TIMESTAMP_HOUR s <= GLOBAL_TIMESTAMP_HOUR s').

(** The configured [events_per_second], 0 when absent. *)
Definition base_rate_of (s : State) : Q :=
  get_default (events_per_second (generation_rate (config s))) 0.

(** Taylor polynomials of the cosine, of degree 10 and 12, in Horner form. *)
Definition cos_lower_Q (q : Q) : Q :=
  let y := (q * q)%Q in
  (1 - y * (1 # 2) * (1 - y * (1 # 12) * (1 - y * (1 # 30) *
     (1 - y * (1 # 56) * (1 - y * (1 # 90))))))%Q.

Definition cos_upper_Q (q : Q) : Q :=
  let y := (q * q)%Q in
  (1 - y * (1 # 2) * (1 - y * (1 # 12) * (1 - y * (1 # 30) *
     (1 - y * (1 # 56) * (1 - y * (1 # 90) * (1 - y * (1 # 132)))))))%Q.

(** Rational bounds on pi. *)
Definition PI_lo : Q := 31415 # 10000.

Definition PI_hi : Q := 31421 # 10000.

(** Enclosure of [cos(t * pi / 60)] for a phase [t] in [0, 30]. *)
Definition cos_phase_lo (t : Q) : Q := cos_lower_Q (t * PI_hi * (1 # 60)).

Definition cos_phase_hi (t : Q) : Q := cos_upper_Q (t * PI_lo * (1 # 60)).

(** The same for a phase in [0, 60], by [cos(pi - x) = - cos x]. *)
Definition phase_lo (t : Q) : Q :=
  if Qle_bool t 30 then cos_phase_lo t else (- cos_phase_hi (60 - t))%Q.

Definition phase_hi (t : Q) : Q :=
  if Qle_bool t 30 then cos_phase_hi t else (- cos_phase_lo (60 - t))%Q.

(** The curve is [0.515 + 0.485 * cos(t * pi / 60)] for a phase [t] that,
    folded into [0, 60], runs along bucket [i] of the table between
    [phase_min i] and [phase_min i + 1]. *)
Definition phase_min (i : Z) : Z :=
  if (i <? 20)%Z then (i + 40)%Z
  else if (i <? 80)%Z then (79 - i)%Z
  else (i - 80)%Z.

(** The closed-form curve as a function of the cosine. *)
Definition curve (c : Q) : Q := ((3 # 100) + (97 # 100) * (1 + c) * (1 # 2))%Q.

(** Entry [i] of the table is within [tol] of the curve on the whole of
    bucket [i], by the enclosures of the cosine at the two ends. *)
Definition bucket_ok (tol : Q) (i : nat) : bool :=
  match nth_error (Diurnal.HOURLY_MODULATION_FACTORS (F:=Q)) i with
  | Some f =>
      let j := inject_Z (phase_min (Z.of_nat i)) in
      Qle_bool (curve (phase_hi j)) (f + tol)
      && Qle_bool (f - tol) (curve (phase_lo (j + 1)))
  | None => false
  end.

(** The sleep of a paced turn: [max(0, (1 / base_rate) * (1 + j))] for the
    jitter [j] drawn in [s]. *)
Definition paced_sleep (base_rate randomness : Q) (s : State) : Q :=
  let j := - randomness + (randomness - - randomness) * uniform_at s (rng_pos s) in
  let d := (1 / base_rate) * (1 + j) in
  if Qlt_le_dec 0 d then d else 0.

(** The configured jitter fraction, 0.1 when absent. *)
Definition randomness_of (s : State) : Q :=
  get_default (randomness_factor (generation_rate (config s))) (1 # 10).

(** A sleep that is within the jitter band around [1 / base_rate]. *)
Definition in_pacing_band (s : State) (d : Q) : Prop :=
  0 <= d /\
  (1 - randomness_of s) / base_rate_of s <= d /\
  d <= (1 + randomness_of s) / base_rate_of s.

(** Sum of the first [k] weights. *)
Definition prefix_weight (ws : list Q) (k : nat) : Q :=
  total_weight (firstn k ws).

(** The weight of the [i]-th entry. *)
Definition weight_at (ws : list Q) (i : nat) : Q := nth i ws 0.

(** The index [random.choices] picks for the uniform draw [u]. *)
Definition chosen_index (ws : list Q) (u : Q) : nat :=
  Random.bisect (Random.accumulate ws) (u * last (Random.accumulate ws) 0)
                0 (List.length ws - 1).

(** The format of [app_id] and of [os_version]. *)
Definition app_id_rule (a : string) : Prop :=
  exists n, a = ("app_" ++ str_of_Z n)%string /\ (1000 <= n <= 9999)%Z.

Definition os_version_rule (v : string) : Prop :=
  exists os major minor,
    v = (os ++ " " ++ str_of_Z major ++ "." ++ str_of_Z minor)%string /\
    (os = "iOS"%string \/ os = "Android"%string) /\
    (12 <= major <= 15)%Z /\ (0 <= minor <= 5)%Z.

(** Nothing but the read position of the random generator differs. *)
Definition only_rng_moves (s s' : State) : Prop :=
  exists n, s' = with_rng_pos n s.



(** The state in which the loop over the countries starts. *)
Definition zeroed (s : State) : State :=
  with_config
    (Poisson.assign_modulated
       (map (fun kv => (fst kv, 0)) (Poisson.country_distribution_of (config s)))
       (config s)) s.

(** The state in which start-up ends, given the state after the loop. *)
Definition resumed (s : State) : State :=
  with_clock RESUME_MICROS RESUME_HOUR s.

(** The country has a non-empty pool of users. *)
Definition has_users (s : State) (c : string) : Prop :=
  exists pool, get (USERS_BY_COUNTRY s) c = Some pool /\ pool <> [].

(** An entry of the modulated distribution that can be drawn safely: its
    weight is not negative, and if it can be drawn at all its country has
    users. *)
Definition entry_ok (s : State) (kv : string * Q) : Prop :=
  0 <= snd kv /\ (0 < snd kv -> has_users s (fst kv)).

(** The state of a run whose turns cannot fail. *)
Definition ready (s : State) : Prop :=
  0 < GLOBAL_RATE_MAXIMUM s /\
  0 < total_weight
        (values (get_default (event_type_distribution (config s)) [])) /\
  0 < total_weight
        (values (get_default (device_type_distribution (config s)) [])) /\
  Poisson.country_distribution_of (config s) <> [] /\
  (forall c w, In (c, w) (Poisson.country_distribution_of (config s)) ->
     0 < w /\ In c (keys (Poisson.country_timezone_of (config s))) /\
     has_users s c) /\
  (forall kv, In kv (Poisson.country_distribution_modulated_of (config s)) ->
     entry_ok s kv).

(** The next [n] turns of the delivery loop all return normally. *)
Fixpoint turns_return (ML : MathLib Q) (n : nat) (topic : string) (s : State)
  : Prop :=
  match n with
  | O => True
  | S n' => exists s', Poisson.loop_iteration topic s = (Ok tt, s') /\
                       turns_return ML n' topic s'
  end.

(** The accepted arrivals cannot be thinned: the rate bound is at most the
    least value the sum of the modulated weights can take. *)
Definition saturated (s : State) : Prop :=
  GLOBAL_RATE_MAXIMUM s
  <= (3 # 100) * total_weight (values (Poisson.country_distribution_of (config s))).

(** Number of events published in a trace. *)
Fixpoint published (t : list Effect) : nat :=
  match t with
  | [] => O
  | Publish _ _ :: r => S (published r)
  | Sleep _ :: r => published r
  end.



(** The example state with the virtual clock at 8.2 hours. *)
Definition clock_at_8_2 : State := with_clock 0 (82 # 10) Example.started.


(** The timestamps of the published events, most recent first. *)
Fixpoint stamps (t : list Effect) : list Z :=
  match t with
  | [] => []
  | Publish _ e :: r =>
      match event_timestamp e with
      | JInt z => z :: stamps r
      | _ => stamps r
      end
  | Sleep _ :: r => stamps r
  end.

(** The published events are in the order of their timestamps, and none
    is ahead of the virtual clock. *)
Definition chronological (s : State) : Prop :=
  StronglySorted Z.ge (GLOBAL_TIMESTAMP_MICROS s :: stamps (trace s)).

(** The example state with the delivery throttled to 10 events a
    second. *)
Definition throttled : State :=
  with_config
    {| gcp_project_id := gcp_project_id Example.cfg;
       pubsub_topic_name := pubsub_topic_name Example.cfg;
       event_type_distribution := event_type_distribution Example.cfg;
       device_type_distribution := device_type_distribution Example.cfg;
       country_infos := country_infos (config Example.started);
       generation_rate := {| events_per_second := Some 10;
                             randomness_factor := Some (2 # 10) |};
       simulation_parameters := simulation_parameters Example.cfg |}
    Example.started.

(* ================================================================== *)
(** * Properties                                                       *)
(* ================================================================== *)

(** ** Running monadic code backwards *)

Lemma bind_Ok_inv {A B} (m : M A) (k : A -> M B) s b s' :
  bind m k s = (Ok b, s') ->
  exists a s1, m s = (Ok a, s1) /\ k a s1 = (Ok b, s').
Proof.
  unfold bind. destruct (m s) as [[a | e] s1]; intros E.
  - exists a, s1. split; [reflexivity | exact E].
  - discriminate E.
Qed.

Lemma bind_Ok {A B} (m : M A) (k : A -> M B) s a s1 :
  m s = (Ok a, s1) -> bind m k s = k a s1.
Proof. unfold bind. intros ->. reflexivity. Qed.

Lemma bind_Raise {A B} (m : M A) (k : A -> M B) s e s1 :
  m s = (Raise e, s1) -> bind m k s = (Raise e, s1).
Proof. unfold bind. intros ->. reflexivity. Qed.

(** Take one [bind] of hypothesis [H] apart. *)
(** Without rounding [fl] is the identity. *)
Ltac unround :=
  change (@fl exact) with (fun x : Q => x) in *; cbv beta in *.

Ltac bind_inv H a s E :=
  apply bind_Ok_inv in H; destruct H as (a & s & E & H).

(** ** Arithmetic of the run-time *)

Lemma mod24_range (x : Q) : 0 <= mod_ x 24 /\ mod_ x 24 < 24.
Proof.
  unfold mod_.
  pose proof (Qfloor_le (x / 24)) as Hle.
  pose proof (Qlt_floor (x / 24)) as Hlt.
  rewrite inject_Z_plus in Hlt.
  change (inject_Z 1) with 1 in Hlt.
  set (f := inject_Z (Qfloor (x / 24))) in *.
  assert (Hx : x == 24 * (x / 24)) by (field).
  split; lra.
Qed.

Lemma trunc_nonneg_floor (x : Q) : 0 <= x -> trunc x = Qfloor x.
Proof.
  destruct x as [n d]. unfold trunc, Qfloor, Qle. simpl.
  intros H. apply Z.quot_div_nonneg; lia.
Qed.

Lemma trunc_range (x : Q) (n : Z) :
  0 <= x -> x < inject_Z n -> (0 <= trunc x < n)%Z.
Proof.
  intros H0 Hn. rewrite (trunc_nonneg_floor x H0). split.
  - change 0%Z with (Qfloor 0). apply Qfloor_resp_le; exact H0.
  - rewrite Zlt_Qlt. apply Qle_lt_trans with x; [apply Qfloor_le | exact Hn].
Qed.

Lemma list_getitem_in_range {A} (l : list A) (i : Z) :
  (0 <= i < Z.of_nat (List.length l))%Z ->
  exists a, list_getitem l i = Ok a /\ nth_error l (Z.to_nat i) = Some a.
Proof.
  intros Hi. unfold list_getitem.
  destruct (Z.ltb_spec i 0); [lia |].
  destruct (Z.ltb_spec i 0); [lia |].
  destruct (Z.leb_spec (Z.of_nat (List.length l)) i); [lia |].
  simpl. destruct (nth_error l (Z.to_nat i)) as [a |] eqn:E.
  - exists a. auto.
  - apply nth_error_None in E. lia.
Qed.

(** ** The tabulated modulator on exact numbers is total *)

(** In exact arithmetic the index [int((hour % 24) * 5)] is one of the
    120 positions of the table, whatever the hour. *)
Lemma exact_bucket_in_range (hour : Q) :
  exists i, Diurnal.bucket hour = Ok i /\ (0 <= i <= 119)%Z.
Proof.
  unfold Diurnal.bucket. cbn.
  exists (trunc (mod_ hour 24 * 5)). split; [reflexivity |].
  destruct (mod24_range hour) as [H0 H24].
  assert (0 <= trunc (mod_ hour 24 * 5) < 120)%Z; [| lia].
  apply trunc_range; [lra |].
  change (inject_Z 120) with 120. lra.
Qed.

Lemma exact_pattern_total (hour : Q) :
  exists i f,
    (0 <= i <= 119)%Z /\
    Diurnal.bucket hour = Ok i /\
    nth_error (Diurnal.HOURLY_MODULATION_FACTORS (F:=Q)) (Z.to_nat i) = Some f /\
    Poisson.user_daily_activity_pattern hour = Ok f.
Proof.
  destruct (exact_bucket_in_range hour) as (i & Hb & Hi).
  destruct (@list_getitem_in_range Q Diurnal.HOURLY_MODULATION_FACTORS i)
    as (f & Hg & Hn).
  { change (List.length (Diurnal.HOURLY_MODULATION_FACTORS (F:=Q))) with 120%nat.
    lia. }
  exists i, f. repeat split; try lia; try assumption.
  unfold Poisson.user_daily_activity_pattern, Diurnal.user_daily_activity_pattern.
  rewrite Hb. simpl rbind. exact Hg.
Qed.

(** Every table entry, hence every modulation factor, lies in
    [0.03, 1]. *)
Lemma factors_bounds (f : Q) :
  In f (Diurnal.HOURLY_MODULATION_FACTORS (F:=Q)) -> (3 # 100) <= f /\ f <= 1.
Proof.
  intros H.
  assert (Hall : forallb (fun f => Qle_bool (3 # 100) f && Qle_bool f 1)
                         (Diurnal.HOURLY_MODULATION_FACTORS (F:=Q)) = true)
    by (vm_compute; reflexivity).
  rewrite forallb_forall in Hall. specialize (Hall f H).
  apply andb_prop in Hall. destruct Hall as [H1 H2].
  split; apply Qle_bool_iff; assumption.
Qed.

Lemma exact_pattern_bounds (hour f : Q) :
  Poisson.user_daily_activity_pattern hour = Ok f -> (3 # 100) <= f /\ f <= 1.
Proof.
  intros H. destruct (exact_pattern_total hour) as (i & f' & _ & _ & Hn & Hf).
  rewrite Hf in H. injection H as <-.
  apply factors_bounds. eapply nth_error_In; eassumption.
Qed.

(** C10: on binary64 floats the wrap [hour % 24] of a tiny negative hour
    rounds up to 24.0 itself, the index [int((hour % 24) * 5)] is 120 and
    the table access raises [IndexError]: the hour [-2^-70] is an input on
    which the tabulated modulator does not return a table value. *)
Theorem tabulated_pattern_index_overflow_binary64 :
  B64.to_Q tiny_negative_hour == - (1 # 2 ^ 70) /\
  fmod tiny_negative_hour (of_int 24) = Ok (B64.of_Z 24) /\
  Diurnal.bucket tiny_negative_hour = Ok 120%Z /\
  List.length (Diurnal.HOURLY_MODULATION_FACTORS (F:=spec_float)) = 120%nat /\
  Diurnal.user_daily_activity_pattern tiny_negative_hour = Raise IndexError.
Proof.
  repeat split; vm_compute; reflexivity.
Qed.

(** ** The rounding to binary64 at work *)

(** The float CPython reads for [0.3] is below 3/10, and ten times it
    rounds to [3.0]. *)
Lemma nearest_three_tenths :
  B64.of_Q (3 # 10) = S754_finite false 5404319552844595 (-54) /\
  B64.nearest (3 # 10) < 3 # 10 /\
  B64.nearest (10 * B64.nearest (3 # 10)) = 3.
Proof. repeat split; vm_compute; reflexivity. Qed.

(** [8.2 - 5] is [3.1999999999999993] on binary64, in bucket 15 of the
    table; on exact numbers it is 3.2, in bucket 16. *)
Lemma local_hour_bucket :
  Diurnal.bucket (H:=Rounded (RD:=binary64))
    (B64.nearest (B64.nearest (82 # 10) + - (5))) = Ok 15%Z /\
  Diurnal.bucket (H:=Rounded (RD:=exact)) ((82 # 10) + - (5)) = Ok 16%Z.
Proof. split; vm_compute; reflexivity. Qed.

(** At 10:57 on the wall clock [57 / 60] is just below 0.95 on binary64
    and rounds to 0.9; on exact numbers it is the tie 0.95, which rounds
    to 1.0. *)
Lemma wall_clock_at_minute_57 :
  fst (get_current_hour (RD:=binary64)
         (Poisson.module_state Example.stream 1000 10 57 Example.cfg))
  = Ok (B64.nearest (109 # 10)) /\
  exists h,
    fst (get_current_hour (RD:=exact)
           (Poisson.module_state Example.stream 1000 10 57 Example.cfg))
    = Ok h /\ h == 11.
Proof.
  split; [vm_compute; reflexivity |].
  eexists. split; [reflexivity |]. vm_compute. reflexivity.
Qed.

(** The tiny negative hour of C10, with the floats as rationals: the wrap
    rounds to 24 and the look-up raises. *)
Lemma rounded_lookup_overflows :
  B64.nearest (mod_ (B64.to_Q tiny_negative_hour) 24) = 24 /\
  Poisson.user_daily_activity_pattern (RD:=binary64)
    (B64.to_Q tiny_negative_hour) = Raise IndexError.
Proof. split; vm_compute; reflexivity. Qed.

(** ** The random module *)

Lemma raw_run s :
  Random.raw s = (Ok (rng_stream s (rng_pos s)), with_rng_pos (S (rng_pos s)) s).
Proof. reflexivity. Qed.

Lemma random_run s :
  exists u, Random.random s = (Ok u, with_rng_pos (S (rng_pos s)) s)
            /\ 0 <= u /\ u < 1.
Proof.
  unfold Random.random. rewrite (bind_Ok _ _ _ _ _ (raw_run s)). unfold ret.
  eexists. split; [reflexivity |].
  assert (Hu : (rng_stream s (rng_pos s) mod 2 ^ 53 < 2 ^ 53)%N)
    by (apply N.mod_upper_bound; discriminate).
  set (k := (rng_stream s (rng_pos s) mod 2 ^ 53)%N) in *.
  change (2 ^ 53)%N with 9007199254740992%N in Hu.
  change (2 ^ 53)%positive with 9007199254740992%positive.
  unfold Qle, Qlt. simpl. lia.
Qed.

Lemma randbelow_run n s :
  (0 < n)%Z ->
  exists k, Random.randbelow n s = (Ok k, with_rng_pos (S (rng_pos s)) s)
            /\ (0 <= k < n)%Z.
Proof.
  intros Hn. unfold Random.randbelow. rewrite (bind_Ok _ _ _ _ _ (raw_run s)).
  eexists. split; [reflexivity |]. apply Z.mod_pos_bound. exact Hn.
Qed.

Lemma randint_run a b s :
  (a <= b)%Z ->
  exists k, Random.randint a b s = (Ok k, with_rng_pos (S (rng_pos s)) s)
            /\ (a <= k <= b)%Z.
Proof.
  intros Hab. unfold Random.randint.
  destruct (@randbelow_run (b - a + 1) s) as (k & E & Hk); [lia |].
  rewrite (bind_Ok _ _ _ _ _ E). exists (a + k)%Z. split; [reflexivity | lia].
Qed.

Lemma uniform_run a b s :
  a <= b ->
  exists x, Random.uniform a b s = (Ok x, with_rng_pos (S (rng_pos s)) s)
            /\ a <= x /\ x <= b.
Proof.
  intros Hab. unfold Random.uniform.
  destruct (random_run s) as (u & E & H0 & H1).
  rewrite (bind_Ok _ _ _ _ _ E). eexists. split; [reflexivity |].
  split; nra.
Qed.

Lemma choice_run {A} (seq : list A) s :
  seq <> [] ->
  exists a, Random.choice seq s = (Ok a, with_rng_pos (S (rng_pos s)) s)
            /\ In a seq.
Proof.
  intros Hne. destruct seq as [| x r]; [congruence |].
  unfold Random.choice.
  destruct (@randbelow_run (Z.of_nat (List.length (x :: r))) s)
    as (k & E & Hk); [simpl; lia |].
  rewrite (bind_Ok _ _ _ _ _ E).
  destruct (list_getitem_in_range (x :: r) k Hk) as (a & Hg & Hn).
  exists a. unfold lift. rewrite Hg. split; [reflexivity |].
  eapply nth_error_In; eassumption.
Qed.

(** The bisection never leaves the interval it is given. *)
Lemma bisect_loop_range fuel a x : forall lo hi,
  (lo <= hi)%nat ->
  (lo <= Random.bisect_loop fuel a x lo hi <= hi)%nat.
Proof.
  induction fuel as [| fuel IH]; intros lo hi Hle;
    cbn [Random.bisect_loop]; [lia |].
  destruct (Nat.ltb_spec lo hi) as [Hlt | Hge]; [| lia].
  assert (Hmid : (lo <= (lo + hi) / 2 < hi)%nat).
  { pose proof (Nat.div_mod_eq (lo + hi) 2) as Hd.
        pose proof (Nat.mod_upper_bound (lo + hi) 2 ltac:(discriminate)).
        lia. }
  destruct (Qlt_le_dec x (nth ((lo + hi) / 2) a 0)).
  - specialize (IH lo ((lo + hi) / 2)%nat ltac:(lia)). lia.
  - specialize (IH (S ((lo + hi) / 2)) hi ltac:(lia)). lia.
Qed.

(** The fuel [hi - lo] is enough: with it the loop runs until [lo < hi]
    fails, so more fuel changes nothing. *)
Lemma bisect_loop_fuel a x : forall fuel fuel' lo hi,
  (hi - lo <= fuel)%nat -> (hi - lo <= fuel')%nat ->
  Random.bisect_loop fuel a x lo hi = Random.bisect_loop fuel' a x lo hi.
Proof.
  induction fuel as [| fuel IH]; intros fuel' lo hi Hf Hf'.
  - destruct fuel' as [| fuel']; [reflexivity |].
    cbn [Random.bisect_loop].
    destruct (Nat.ltb_spec lo hi); [lia | reflexivity].
  - cbn [Random.bisect_loop].
    destruct (Nat.ltb_spec lo hi) as [Hlt | Hge].
    + destruct fuel' as [| fuel']; [lia |].
      cbn [Random.bisect_loop]. destruct (Nat.ltb_spec lo hi); [| lia].
      assert (Hmid : (lo <= (lo + hi) / 2 < hi)%nat).
      { pose proof (Nat.div_mod_eq (lo + hi) 2) as Hd.
        pose proof (Nat.mod_upper_bound (lo + hi) 2 ltac:(discriminate)).
        lia. }
      destruct (Qlt_le_dec x (nth ((lo + hi) / 2) a 0)); apply IH; lia.
    + destruct fuel' as [| fuel']; [reflexivity |].
      cbn [Random.bisect_loop].
      destruct (Nat.ltb_spec lo hi); [lia | reflexivity].
Qed.

(** With the fuel of [bisect] the loop has stopped because [lo < hi]
    failed, as the [while] of the library does. *)
Lemma bisect_loop_done a x : forall fuel lo hi,
  (lo <= hi)%nat -> (hi - lo <= fuel)%nat ->
  Random.bisect_loop fuel a x lo hi = Random.bisect_loop (S fuel) a x lo hi.
Proof. intros. apply bisect_loop_fuel; lia. Qed.

Lemma accumulate_from_length ws : forall acc,
  List.length (Random.accumulate_from acc ws) = List.length ws.
Proof. induction ws; intros; simpl; auto. Qed.

Lemma accumulate_length ws :
  List.length (Random.accumulate ws) = List.length ws.
Proof. destruct ws; simpl; auto using accumulate_from_length. Qed.

Lemma accumulate_from_last ws : forall acc d,
  ws <> [] ->
  last (Random.accumulate_from acc ws) d = fold_left Qplus ws acc.
Proof.
  induction ws as [| w r IH]; intros acc d Hne; [congruence |].
  destruct r as [| w' r']; [reflexivity |].
  change (Random.accumulate_from acc (w :: w' :: r'))
    with ((acc + w) :: Random.accumulate_from (acc + w) (w' :: r')).
  change (fold_left Qplus (w :: w' :: r') acc)
    with (fold_left Qplus (w' :: r') (acc + w)).
  rewrite <- (IH (acc + w) d) by congruence.
  reflexivity.
Qed.

Lemma fold_left_Qplus_comp ws : forall a b,
  a == b -> fold_left Qplus ws a == fold_left Qplus ws b.
Proof.
  induction ws as [| w r IH]; intros a b E; simpl; [exact E |].
  apply IH. rewrite E. reflexivity.
Qed.

Lemma accumulate_last ws :
  ws <> [] -> last (Random.accumulate ws) 0 == total_weight ws.
Proof.
  intros Hne. destruct ws as [| w r]; [congruence |].
  unfold total_weight. simpl fold_left.
  destruct r as [| w' r'].
  - simpl. ring.
  - change (Random.accumulate (w :: w' :: r'))
      with (w :: Random.accumulate_from w (w' :: r')).
    transitivity (last (Random.accumulate_from w (w' :: r')) 0).
    + reflexivity.
    + rewrite accumulate_from_last by congruence.
      apply fold_left_Qplus_comp. ring.
Qed.


(** ** WeightedSampler *)




(** ** EventFactory: the payload rules *)

Lemma round_half_even_range (x : Q) (n m : Z) :
  inject_Z n <= x -> x <= inject_Z m ->
  (n <= round_half_even x <= m)%Z.
Proof.
  intros Hn Hm. unfold round_half_even.
  pose proof (Qfloor_le x) as Hf.
  assert (Hnf : (n <= Qfloor x)%Z).
  { rewrite <- (Qfloor_Z n). apply Qfloor_resp_le. exact Hn. }
  assert (Hfm : (Qfloor x <= m)%Z).
  { rewrite Zle_Qle. apply Qle_trans with x; assumption. }
  assert (Hup : inject_Z (Qfloor x) < x -> (Qfloor x + 1 <= m)%Z).
  { intros Hlt.
    assert (Hlt' : (Qfloor x < m)%Z)
      by (rewrite Zlt_Qlt; apply Qlt_le_trans with x; assumption).
    lia. }
  destruct (Qcompare (x - inject_Z (Qfloor x)) (1 # 2)) eqn:Ec.
  - apply Qeq_alt in Ec.
    destruct (Z.even (Qfloor x)); [lia |].
    split; [lia |]. apply Hup. lra.
  - lia.
  - apply Qgt_alt in Ec. split; [lia |]. apply Hup. lra.
Qed.

Lemma round2_range (x : Q) (n m : Z) :
  inject_Z n <= x * 100 -> x * 100 <= inject_Z m ->
  exists cents, Py.round x 2 = inject_Z cents / 100 /\ (n <= cents <= m)%Z.
Proof.
  intros Hn Hm. unfold Py.round.
  change (inject_Z (10 ^ Z.of_nat 2)) with 100.
  eexists. split; [reflexivity |].
  apply round_half_even_range; assumption.
Qed.

Lemma event_details_obj_rule (event_type : string) s details s' :
  event_details_obj event_type s = (Ok details, s') ->
  payload_rule event_type details.
Proof.
  unfold event_details_obj, payload_rule.
  destruct (event_type =? "search")%string.
  { intros H. bind_inv H q s1 E. injection H as <- _. eauto. }
  destruct (event_type =? "review_submit")%string.
  { intros H. bind_inv H r s1 E. injection H as <- _.
    destruct (randint_run 1 5 s ltac:(lia)) as (k & Ek & Hk).
    rewrite Ek in E. injection E as <- _. eauto. }
  destruct (event_type =? "in_app_purchase")%string.
  { intros H. bind_inv H i s1 E. bind_inv H p s2 E2. injection H as <- _.
    destruct (randint_run 100 999 s ltac:(lia)) as (k & Ek & Hk).
    rewrite Ek in E. injection E as <- <-.
    destruct (uniform_run (99 # 100) (9999 # 100) (with_rng_pos (S (rng_pos s)) s))
      as (x & Ex & Hx0 & Hx1); [lra |].
    rewrite Ex in E2. injection E2 as <- _.
    destruct (round2_range x 99 9999) as (cents & Er & Hc).
    { change (inject_Z 99) with 99. lra. }
    { change (inject_Z 9999) with 9999. lra. }
    exists k, (Py.round x 2), cents.
    split; [reflexivity |]. split; [exact Hk |].
    rewrite Er.
    assert (H99 : inject_Z 99 <= inject_Z cents) by (rewrite <- Zle_Qle; lia).
    assert (H9999 : inject_Z cents <= inject_Z 9999)
      by (rewrite <- Zle_Qle; lia).
    change (inject_Z 99) with 99 in H99.
    change (inject_Z 9999) with 9999 in H9999.
    split; [apply Qle_shift_div_l; [reflexivity | lra] |].
    split; [apply Qle_shift_div_r; [reflexivity | lra] | reflexivity]. }
  intros H. injection H as <- _. reflexivity.
Qed.

(** Peel every leading [bind] off hypothesis [H]. *)
Ltac peel H :=
  repeat first
    [ apply bind_Ok_inv in H;
      let a := fresh "a" in
      let s := fresh "s" in
      let E := fresh "E" in
      destruct H as (a & s & E & H)
    | match type of H with
      | context [let (_, _) := ?x in _] => is_var x; destruct x
      end ].

(** C6: every event record that either variant produces obeys the payload
    rule of its event type: a search carries a search_query, a review
    carries an integer rating between 1 and 5, a purchase carries an item
    id "iap_" followed by an integer between 100 and 999 and a price
    between 0.99 and 99.99 that is a whole number of cents, and every
    other event carries the empty object. *)
Theorem produced_events_obey_payload_rules {RD : Rounding} :
  (forall (ML : MathLib Q) s e s',
     Poisson.generate_event s = (Ok (Some e), s') ->
     payload_rule (event_type e) (event_details e)) /\
  (forall (ML : MathLib Q) s e s',
     Simple.generate_event s = (Ok e, s') ->
     payload_rule (event_type e) (event_details e)).
Proof.
  split; intros ML s e s' H.
  - unfold Poisson.generate_event in H.
    peel H.
    match type of H with
    | context [Qlt_le_dec ?p ?u] => destruct (Qlt_le_dec p u)
    end; [discriminate H |].
    peel H. injection H as <- _. simpl.
    match goal with
    | E : event_details_obj _ _ = _ |- _ =>
        exact (event_details_obj_rule _ _ _ _ E)
    end.
  - unfold Simple.generate_event in H.
    peel H. injection H as <- _. simpl.
    match goal with
    | E : event_details_obj _ _ = _ |- _ =>
        exact (event_details_obj_rule _ _ _ _ E)
    end.
Qed.

(** The first tick of the example run, in either variant. *)
Lemma produced_events_obey_payload_rules_witness :
  (exists e s',
     Poisson.generate_event (ML:=Example.rational_math) Example.started
     = (Ok (Some e), s')
     /\ payload_rule (event_type e) (event_details e)) /\
  (exists e s',
     Simple.generate_event (ML:=Example.rational_math) Example.started
     = (Ok e, s')
     /\ payload_rule (event_type e) (event_details e)).
Proof.
  split.
  - destruct (Poisson.generate_event (ML:=Example.rational_math)
                Example.started) as [r s'] eqn:E.
    assert (Hr : exists e, r = Ok (Some e)).
    { change r with (fst (r, s')). rewrite <- E.
      vm_compute. eexists. reflexivity. }
    destruct Hr as [e ->]. exists e, s'. split; [reflexivity |].
    exact (proj1 produced_events_obey_payload_rules _ _ _ _ E).
  - destruct (Simple.generate_event (ML:=Example.rational_math)
                Example.started) as [r s'] eqn:E.
    assert (Hr : exists e, r = Ok e).
    { change r with (fst (r, s')). rewrite <- E.
      vm_compute. eexists. reflexivity. }
    destruct Hr as [e ->]. exists e, s'. split; [reflexivity |].
    exact (proj2 produced_events_obey_payload_rules _ _ _ _ E).
Defined.

(** ** Dictionaries *)

Lemma get_set_same {V} (d : dict V) k v : get (set d k v) k = Some v.
Proof.
  induction d as [| [k' v'] r IH]; simpl.
  - rewrite String.eqb_refl. reflexivity.
  - destruct (String.eqb_spec k k') as [-> | Hne]; simpl.
    + rewrite String.eqb_refl. reflexivity.
    + destruct (String.eqb_spec k k'); [congruence | exact IH].
Qed.

Lemma get_set_other {V} (d : dict V) k k' v :
  k <> k' -> get (set d k v) k' = get d k'.
Proof.
  intros Hne. induction d as [| [k0 v0] r IH]; simpl.
  - destruct (String.eqb_spec k' k); [congruence | reflexivity].
  - destruct (String.eqb_spec k k0) as [-> | Hk]; simpl.
    + destruct (String.eqb_spec k' k0); [congruence | reflexivity].
    + destruct (String.eqb_spec k' k0); [reflexivity | exact IH].
Qed.

Lemma get_del_other {V} (d : dict V) k k' :
  k <> k' -> get (del d k) k' = get d k'.
Proof.
  intros Hne. induction d as [| [k0 v0] r IH]; simpl; [reflexivity |].
  destruct (String.eqb_spec k k0) as [-> | Hk]; simpl.
  - destruct (String.eqb_spec k' k0); [congruence | reflexivity].
  - destruct (String.eqb_spec k' k0); [reflexivity | exact IH].
Qed.

Lemma get_None_not_In {V} (d : dict V) k :
  get d k = None <-> ~ In k (keys d).
Proof.
  induction d as [| [k0 v0] r IH]; simpl.
  - tauto.
  - destruct (String.eqb_spec k k0) as [-> | Hk].
    + split; [discriminate | tauto].
    + rewrite IH. split; [intros H [E | HIn]; [congruence | tauto] | tauto].
Qed.

Lemma get_Some_In {V} (d : dict V) k v : get d k = Some v -> In k (keys d).
Proof.
  intros H. destruct (in_dec string_dec k (keys d)) as [HIn | HnIn];
    [exact HIn |].
  apply get_None_not_In in HnIn. congruence.
Qed.

Lemma In_get_Some {V} (d : dict V) k : In k (keys d) -> exists v, get d k = Some v.
Proof.
  intros HIn. destruct (get d k) as [v |] eqn:E; [eauto |].
  apply get_None_not_In in E. tauto.
Qed.

Lemma get_del_same {V} (d : dict V) k :
  NoDup (keys d) -> get (del d k) k = None.
Proof.
  induction d as [| [k0 v0] r IH]; simpl; intros Hnd; [reflexivity |].
  inversion Hnd as [| ? ? Hnotin Hnd']; subst.
  destruct (String.eqb_spec k k0) as [-> | Hk]; simpl.
  - apply get_None_not_In. exact Hnotin.
  - destruct (String.eqb_spec k k0); [congruence | auto].
Qed.

Lemma keys_del_incl {V} (d : dict V) k k' :
  In k' (keys (del d k)) -> In k' (keys d).
Proof.
  induction d as [| [k0 v0] r IH]; simpl; [tauto |].
  destruct (String.eqb_spec k k0); simpl; tauto.
Qed.

Lemma NoDup_del {V} (d : dict V) k :
  NoDup (keys d) -> NoDup (keys (del d k)).
Proof.
  induction d as [| [k0 v0] r IH]; simpl; intros Hnd; [constructor |].
  inversion Hnd as [| ? ? Hnotin Hnd']; subst.
  destruct (String.eqb_spec k k0); [exact Hnd' |].
  simpl. constructor; [| auto].
  intros HIn. apply Hnotin. eapply keys_del_incl; eassumption.
Qed.

Lemma keys_set {V} (d : dict V) k v k' :
  In k' (keys (set d k v)) <-> k' = k \/ In k' (keys d).
Proof.
  induction d as [| [k0 v0] r IH]; simpl.
  - intuition.
  - destruct (String.eqb_spec k k0) as [-> | Hk]; simpl.
    + intuition.
    + rewrite IH. intuition.
Qed.

Lemma NoDup_set {V} (d : dict V) k v :
  NoDup (keys d) -> NoDup (keys (set d k v)).
Proof.
  induction d as [| [k0 v0] r IH]; simpl; intros Hnd.
  - constructor; [simpl; tauto | constructor].
  - inversion Hnd as [| ? ? Hnotin Hnd']; subst.
    destruct (String.eqb_spec k k0) as [-> | Hk]; simpl.
    + constructor; assumption.
    + constructor; [| auto].
      rewrite keys_set. intros [E | HIn]; [congruence | tauto].
Qed.

(** ** Start-up: user pools and the rate bound *)

Lemma fresh_users_run (n : nat) : forall s,
  exists users,
    Poisson.fresh_users n s = (Ok users, with_rng_pos (rng_pos s + n) s)
    /\ List.length users = n.
Proof.
  induction n as [| n IH]; intros s.
  - exists []. split; [| reflexivity].
    unfold Poisson.fresh_users, ret. rewrite Nat.add_0_r.
    destruct s; reflexivity.
  - cbn [Poisson.fresh_users].
    unfold Faker.uuid4, Faker.token.
    destruct (IH (with_rng_pos (S (rng_pos s)) s)) as (users & E & Hlen).
    eexists. split.
    + unfold bind at 1. unfold bind at 1. rewrite raw_run. unfold ret at 1.
      unfold bind at 1. rewrite E. unfold ret.
      cbn [rng_pos with_rng_pos]. rewrite Nat.add_succ_r. reflexivity.
    + simpl. rewrite Hlen. reflexivity.
Qed.

Lemma has_distribution_of s d :
  has_distribution s d -> Poisson.country_distribution_of (config s) = d.
Proof.
  intros (ci & Hci & Hd). unfold Poisson.country_distribution_of.
  rewrite Hci, Hd. reflexivity.
Qed.

Lemma truediv_Ok x y : ~ y == 0 -> truediv x y = Ok (x / y).
Proof.
  intros Hy. unfold truediv.
  destruct (Qeq_bool y 0) eqn:E; [| reflexivity].
  apply Qeq_bool_iff in E. contradiction.
Qed.

(** One turn of the start-up loop, on a country of the distribution. *)
Lemma init_country_run {RD : Rounding} f r ips c s dcur w :
  has_distribution s dcur -> get dcur c = Some w -> ~ r == 0 ->
  exists s',
    Poisson.init_country f r ips c s = (Ok tt, s') /\
    GLOBAL_TIMESTAMP_MICROS s' = GLOBAL_TIMESTAMP_MICROS s /\
    GLOBAL_TIMESTAMP_HOUR s' = GLOBAL_TIMESTAMP_HOUR s /\
    (users_of_weight f r w = 0%Z ->
       has_distribution s' (del dcur c) /\
       USERS_BY_COUNTRY s' = USERS_BY_COUNTRY s /\
       GLOBAL_RATE_MAXIMUM s' = GLOBAL_RATE_MAXIMUM s) /\
    (users_of_weight f r w <> 0%Z ->
       has_distribution s' dcur /\
       (exists users,
          USERS_BY_COUNTRY s' = set (USERS_BY_COUNTRY s) c users /\
          List.length users = Z.to_nat (users_of_weight f r w)) /\
       GLOBAL_RATE_MAXIMUM s'
       = GLOBAL_RATE_MAXIMUM s + inject_Z (users_of_weight f r w) * ips).
Proof.
  intros Hd Hw Hr. unfold Poisson.init_country.
  unfold bind at 1. unfold gets at 1.
  rewrite (has_distribution_of s dcur Hd).
  unfold bind at 1. unfold lift at 1, getitem. rewrite Hw.
  unfold bind at 1. unfold lift at 1. rewrite (truediv_Ok _ _ Hr).
  change (trunc (fl (fl (w * f) / r))) with (users_of_weight f r w).
  destruct (Z.eqb_spec (users_of_weight f r w) 0) as [E0 | Hn0].
  - eexists. split; [reflexivity |]. cbn.
    split; [reflexivity |]. split; [reflexivity |].
    split; [| congruence]. intros _.
    split; [| split; reflexivity].
    destruct Hd as (ci & Hci & Hdd). unfold has_distribution, Poisson.del_country.
    cbn. rewrite Hci, Hdd. cbn. eexists. split; reflexivity.
  - destruct (fresh_users_run (Z.to_nat (users_of_weight f r w)) s)
      as (users & E & Hlen).
    unfold bind at 1. rewrite E.
    eexists. split; [reflexivity |]. cbn.
    split; [reflexivity |]. split; [reflexivity |].
    split; [congruence |]. intros _.
    split; [exact Hd |]. split; [| reflexivity].
    exists users. split; [reflexivity | exact Hlen].
Qed.

Lemma trunc_nonneg (x : Q) : 0 <= x -> (0 <= trunc x)%Z.
Proof.
  intros H. rewrite (trunc_nonneg_floor x H).
  change 0%Z with (Qfloor 0). apply Qfloor_resp_le. exact H.
Qed.

(** The start-up loop over the snapshot [ks] of the keys. *)
Lemma init_loop_run {RD : Rounding} f r ips : forall ks s dcur,
  has_distribution s dcur -> NoDup ks -> NoDup (keys dcur) ->
  (forall c, In c ks -> In c (keys dcur)) -> ~ r == 0 ->
  exists s' d',
    for_each ks (Poisson.init_country f r ips) s = (Ok tt, s') /\
    has_distribution s' d' /\ NoDup (keys d') /\
    GLOBAL_TIMESTAMP_MICROS s' = GLOBAL_TIMESTAMP_MICROS s /\
    GLOBAL_TIMESTAMP_HOUR s' = GLOBAL_TIMESTAMP_HOUR s /\
    (forall c, ~ In c ks ->
       get d' c = get dcur c /\
       get (USERS_BY_COUNTRY s') c = get (USERS_BY_COUNTRY s) c) /\
    (forall c w, In c ks -> get dcur c = Some w ->
       country_outcome f r s s' d' c w) /\
    (0 <= ips ->
     (forall c w, In c ks -> get dcur c = Some w ->
        (0 <= users_of_weight f r w)%Z) ->
     GLOBAL_RATE_MAXIMUM s <= GLOBAL_RATE_MAXIMUM s').
Proof.
  induction ks as [| c rest IH]; intros s dcur Hd Hnd Hndd Hin Hr.
  - exists s, dcur. simpl. unfold ret.
    repeat split; auto; try tauto. intros _ _. apply Qle_refl.
  - inversion Hnd as [| ? ? Hc_rest Hnd_rest]; subst.
    destruct (In_get_Some dcur c (Hin c (or_introl eq_refl))) as [w Hw].
    destruct (init_country_run f r ips c s dcur w Hd Hw Hr)
      as (s1 & E1 & Hm1 & Hh1 & Hzero & Hnonzero).
    cbn [for_each]. unfold bind at 1. rewrite E1.
    destruct (Z.eq_dec (users_of_weight f r w) 0) as [E0 | Hn0].
    + destruct (Hzero E0) as (Hd1 & Hu1 & Hrate1).
      assert (Hin1 : forall c', In c' rest -> In c' (keys (del dcur c))).
      { intros c' Hc'.
        destruct (In_get_Some dcur c' (Hin c' (or_intror Hc'))) as [w' Hw'].
        apply get_Some_In with w'. rewrite get_del_other; [exact Hw' |].
        intros ->. contradiction. }
      destruct (IH s1 (del dcur c) Hd1 Hnd_rest (NoDup_del dcur c Hndd) Hin1 Hr)
        as (s' & d' & E & Hd' & Hnd' & Hm & Hh & Hframe & Hout & Hrate).
      exists s', d'. split; [exact E |]. split; [exact Hd' |].
      split; [exact Hnd' |]. split; [congruence |]. split; [congruence |].
      split; [| split].
      * intros c0 Hc0. simpl in Hc0.
        destruct (Hframe c0 ltac:(tauto)) as [F1 F2].
        rewrite F1, F2, Hu1. split; [| reflexivity].
        apply get_del_other. intros ->. tauto.
      * intros c0 w0 Hc0 Hw0. destruct Hc0 as [<- | Hc0].
        -- assert (w0 = w) by congruence. subst w0.
           destruct (Hframe c Hc_rest) as [F1 F2].
           split; [| intros; contradiction]. intros _.
           rewrite F1, F2, Hu1. split; [| reflexivity].
           apply get_del_same. exact Hndd.
        -- assert (Hne : c <> c0) by (intros ->; contradiction).
           specialize (Hout c0 w0 Hc0).
           rewrite (get_del_other dcur c c0 Hne) in Hout.
           specialize (Hout Hw0). unfold country_outcome in *.
           rewrite Hu1 in Hout. exact Hout.
      * intros Hips Hpos. rewrite <- Hrate1. apply Hrate; [exact Hips |].
        intros c' w' Hc' Hw'. apply (Hpos c' w'); [right; exact Hc' |].
        rewrite <- Hw'. symmetry. apply get_del_other.
        intros ->. contradiction.
    + destruct (Hnonzero Hn0) as (Hd1 & (users & Hu1 & Hlen) & Hrate1).
      assert (Hin1 : forall c', In c' rest -> In c' (keys dcur))
        by (intros; apply Hin; right; assumption).
      destruct (IH s1 dcur Hd1 Hnd_rest Hndd Hin1 Hr)
        as (s' & d' & E & Hd' & Hnd' & Hm & Hh & Hframe & Hout & Hrate).
      exists s', d'. split; [exact E |]. split; [exact Hd' |].
      split; [exact Hnd' |]. split; [congruence |]. split; [congruence |].
      split; [| split].
      * intros c0 Hc0. simpl in Hc0.
        destruct (Hframe c0 ltac:(tauto)) as [F1 F2].
        rewrite F1, F2, Hu1. split; [reflexivity |].
        apply get_set_other. intros ->. tauto.
      * intros c0 w0 Hc0 Hw0. destruct Hc0 as [<- | Hc0].
        -- assert (w0 = w) by congruence. subst w0.
           destruct (Hframe c Hc_rest) as [F1 F2].
           split; [intros; contradiction |]. intros _.
           rewrite F1, F2, Hu1, get_set_same. split; [exact Hw |].
           exists users. split; [reflexivity | exact Hlen].
        -- assert (Hne : c <> c0) by (intros ->; contradiction).
           specialize (Hout c0 w0 Hc0 Hw0). unfold country_outcome in *.
           rewrite Hu1, (get_set_other _ c c0 users Hne) in Hout. exact Hout.
      * intros Hips Hpos.
        apply Qle_trans with (GLOBAL_RATE_MAXIMUM s1).
        -- rewrite Hrate1.
           assert (H0 : (0 <= users_of_weight f r w)%Z)
             by (apply (Hpos c w); [left |]; auto).
           assert (H0' : 0 <= inject_Z (users_of_weight f r w))
             by (change 0 with (inject_Z 0); rewrite <- Zle_Qle; exact H0).
           nra.
        -- apply Hrate; [exact Hips |].
           intros c' w' Hc' Hw'. apply (Hpos c' w'); [right |]; assumption.
Qed.

Lemma startup_run {RD : Rounding} (s : State) :
  let d := Poisson.country_distribution_of (config s) in
  let f := population_fraction (config s) in
  let r := replicas_factor (config s) in
  NoDup (keys d) -> ~ r == 0 ->
  exists s',
    Poisson.startup s = (Ok tt, s') /\
    GLOBAL_TIMESTAMP_MICROS s' = RESUME_MICROS /\
    GLOBAL_TIMESTAMP_HOUR s' = RESUME_HOUR /\
    (forall c w, get d c = Some w ->
       country_outcome f r s s'
         (Poisson.country_distribution_of (config s')) c w) /\
    (0 <= interactions_per_second (config s) ->
     (forall c w, get d c = Some w -> (0 <= users_of_weight f r w)%Z) ->
     GLOBAL_RATE_MAXIMUM s <= GLOBAL_RATE_MAXIMUM s').
Proof.
  intros d f r Hnd Hr.
  set (s0 := with_config
               (Poisson.assign_modulated
                  (map (fun kv => (fst kv, 0)) d) (config s)) s).
  assert (Hloop : exists s1,
    for_each (keys d)
      (Poisson.init_country f r (interactions_per_second (config s))) s0
    = (Ok tt, s1) /\
    (forall c w, get d c = Some w ->
       country_outcome f r s s1
         (Poisson.country_distribution_of (config s1)) c w) /\
    (0 <= interactions_per_second (config s) ->
     (forall c w, get d c = Some w -> (0 <= users_of_weight f r w)%Z) ->
     GLOBAL_RATE_MAXIMUM s <= GLOBAL_RATE_MAXIMUM s1)).
  { destruct (country_infos (config s)) as [ci |] eqn:Eci.
    - destruct (distribution ci) as [d0 |] eqn:Ed0.
      + assert (Hdd : d = d0).
        { unfold d, Poisson.country_distribution_of. rewrite Eci, Ed0.
          reflexivity. }
        assert (Hd0 : has_distribution s0 d).
        { unfold has_distribution, s0, Poisson.assign_modulated.
          rewrite Eci. cbn. eexists. split; [reflexivity |].
          cbn. rewrite Ed0, Hdd. reflexivity. }
        destruct (init_loop_run f r (interactions_per_second (config s))
                    (keys d) s0 d Hd0 Hnd Hnd (fun c H => H) Hr)
          as (s1 & d' & E & Hd' & _ & _ & _ & _ & Hout & Hrate).
        exists s1. split; [exact E |].
        rewrite (has_distribution_of s1 d' Hd'). split.
        * intros c w Hw. apply (Hout c w); [| exact Hw].
          eapply get_Some_In; eassumption.
        * intros Hips Hpos. apply Hrate; [exact Hips |].
          intros c w _ Hw. apply (Hpos c w Hw).
      + assert (Hdd : d = []).
        { unfold d, Poisson.country_distribution_of. rewrite Eci, Ed0.
          reflexivity. }
        rewrite Hdd. exists s0. split; [reflexivity |].
        split; [intros c w Hw; discriminate Hw |].
        intros _ _. apply Qle_refl.
    - assert (Hdd : d = []).
      { unfold d, Poisson.country_distribution_of. rewrite Eci.
        reflexivity. }
      rewrite Hdd. exists s0. split; [reflexivity |].
      split; [intros c w Hw; discriminate Hw |].
      intros _ _. apply Qle_refl. }
  destruct Hloop as (s1 & E & Hout & Hrate).
  unfold Poisson.startup.
  unfold bind at 1. unfold gets at 1.
  unfold bind at 1. unfold modify at 1.
  unfold bind at 1.
  fold d f r s0.
  change (get_default (user_interactions_per_day
                         (simulation_parameters (config s))) 57
          / (24 * 60 * 60))
    with (interactions_per_second (config s)).
  change (for_each (keys d) (Poisson.init_country _ _ _) s0)
    with (for_each (keys d)
            (Poisson.init_country f r (interactions_per_second (config s)))
            s0).
  rewrite E.
  eexists. split; [reflexivity |].
  split; [reflexivity |]. split; [reflexivity |].
  split; [exact Hout | exact Hrate].
Qed.



(** ** The resume point of the virtual clock *)



(** ** CountryActivityModel *)

Lemma total_weight_cons (x : Q) (ws : list Q) :
  total_weight (x :: ws) == x + total_weight ws.
Proof.
  unfold total_weight. simpl.
  assert (H : forall l a b, fold_left Qplus l (a + b) == a + fold_left Qplus l b).
  { induction l as [| y l IH]; intros a b; simpl; [reflexivity |].
    rewrite <- IH. apply fold_left_Qplus_comp. ring. }
  rewrite <- H. apply fold_left_Qplus_comp. ring.
Qed.

Lemma modulated_weights_ext m m' countries :
  (forall c, In c countries -> get m c = get m' c) ->
  modulated_weights m countries = modulated_weights m' countries.
Proof.
  intros H. unfold modulated_weights. apply map_ext_in.
  intros c Hc. rewrite (H c Hc). reflexivity.
Qed.

(** The refresh loop, on countries whose table look-ups succeed. *)
Lemma modulate_run {RD : Rounding} tz hour : forall items acc,
  NoDup (keys items) ->
  (forall c, In c (keys items) -> In c (keys tz)) ->
  (forall c offset, In c (keys items) -> get tz c = Some offset ->
     exists f,
       Poisson.user_daily_activity_pattern (fl (hour + offset)) = Ok f) ->
  exists m sum,
    Poisson.modulate tz hour items acc = (Ok tt, (m, sum)) /\
    (forall c w, get items c = Some w ->
       exists offset f,
         get tz c = Some offset /\
         Poisson.user_daily_activity_pattern (fl (hour + offset)) = Ok f /\
         get m c = Some (fl (w * f))) /\
    (forall c, ~ In c (keys items) -> get m c = get (fst acc) c) /\
    sum = float_sum_from (snd acc) (modulated_weights m (keys items)).
Proof.
  induction items as [| [c w] rest IH]; intros acc Hnd Htz Hlook.
  - exists (fst acc), (snd acc). destruct acc as [m0 sum0]. simpl.
    split; [reflexivity |]. split; [intros ? ? H; discriminate H |].
    split; reflexivity.
  - simpl in Hnd. inversion Hnd as [| ? ? Hc Hnd']; subst.
    destruct (In_get_Some tz c (Htz c (or_introl eq_refl))) as [offset Hoff].
    destruct (Hlook c offset (or_introl eq_refl) Hoff) as [f Hf].
    cbn [Poisson.modulate]. unfold getitem. rewrite Hoff, Hf.
    rewrite get_set_same. cbn [get_default].
    destruct (IH (set (fst acc) c (fl (w * f)), fl (snd acc + fl (w * f)))
                 Hnd'
                 (fun c' H => Htz c' (or_intror H))
                 (fun c' o H => Hlook c' o (or_intror H)))
      as (m & sum & E & Hval & Hframe & Hsum).
    exists m, sum. split; [exact E |].
    assert (Hmc : get m c = Some (fl (w * f))).
    { rewrite (Hframe c Hc). cbn [fst]. apply get_set_same. }
    split; [| split].
    + intros c' w' Hw'. cbn [get] in Hw'.
      destruct (String.eqb_spec c' c) as [-> | Hne].
      * injection Hw' as <-. exists offset, f. auto.
      * apply Hval. exact Hw'.
    + intros c' Hc'. simpl in Hc'.
      rewrite (Hframe c' ltac:(tauto)). cbn [fst].
      apply get_set_other. intros ->. tauto.
    + rewrite Hsum. cbn [snd keys map fst modulated_weights].
      change (map (fun c0 => get_default (get m c0) 0) (map fst rest))
        with (modulated_weights m (keys rest)).
      unfold float_sum_from. cbn [fold_left]. rewrite Hmc.
      reflexivity.
Qed.

(** On exact numbers every look-up succeeds. *)
Lemma exact_lookups (hour : Q) (tz : dict Q) (countries : list string) :
  forall c offset, In c countries -> get tz c = Some offset ->
    exists f,
      Poisson.user_daily_activity_pattern (RD:=exact) (fl (hour + offset))
      = Ok f.
Proof.
  intros c offset _ _.
  destruct (exact_pattern_total (fl (hour + offset)))
    as (i & f & _ & _ & _ & Hf).
  exists f. exact Hf.
Qed.

(** [generate_time_modulated_weights], step by step. *)
Lemma generate_time_modulated_weights_unfold {RD : Rounding} s :
  Poisson.generate_time_modulated_weights s =
  let '(r, (m, sum)) :=
    Poisson.modulate (Poisson.country_timezone_of (config s))
      (fl (Py.round (GLOBAL_TIMESTAMP_HOUR s) 2))
      (Poisson.country_distribution_of (config s))
      (Poisson.country_distribution_modulated_of (config s), 0) in
  (match r with Ok _ => Ok (m, sum) | Raise e => Raise e end,
   with_config (Poisson.mutate_modulated m (config s)) s).
Proof.
  unfold Poisson.generate_time_modulated_weights.
  unfold bind at 1. unfold gets at 1.
  destruct (Poisson.modulate _ _ _ _) as [r [m sum]].
  unfold bind, modify. destruct r; reflexivity.
Qed.

(** A clock hour that rounds across a twelve-minute boundary: at 6.399 the
    refreshed weight is the factor of 6.4 (0.123), not that of 6.399
    (0.108). *)
Lemma modulated_weight_uses_rounded_hour :
  ~ (forall (s s' : State) (m : dict Q) (sum : Q) (c : string) (w offset : Q),
       Poisson.generate_time_modulated_weights (RD:=binary64) s
       = (Ok (m, sum), s') ->
       get (Poisson.country_distribution_of (config s)) c = Some w ->
       get (Poisson.country_timezone_of (config s)) c = Some offset ->
       exists f v,
         Poisson.user_daily_activity_pattern (RD:=binary64)
           (B64.nearest (GLOBAL_TIMESTAMP_HOUR s + offset)) = Ok f /\
         get m c = Some v /\ v == w * f).
Proof.
  intros H.
  set (ci := {| distribution := Some [("A"%string, 1)];
                timezone := Some [("A"%string, 0)];
                distribution_modulated := Some [("A"%string, 0)] |}).
  set (s := with_clock 0 (6399 # 1000)
              (with_config (Poisson.with_country_infos (Some ci) Example.cfg)
                           Example.loaded)).
  destruct (Poisson.generate_time_modulated_weights (RD:=binary64) s)
    as [r s'] eqn:E.
  assert (Er : r = Ok ([("A"%string, B64.nearest (123 # 1000))],
                       B64.nearest (123 # 1000))).
  { change r with (fst (r, s')). rewrite <- E. vm_compute. reflexivity. }
  subst r.
  destruct (H s s' _ _ "A"%string 1 0 E eq_refl eq_refl)
    as (f & v & Hf & Hv & Hvf).
  vm_compute in Hf. injection Hf as <-.
  vm_compute in Hv. injection Hv as <-.
  vm_compute in Hvf. discriminate Hvf.
Qed.

(** A refresh that does not return: on binary64, at clock hour 6.25 and
    with the offset -6.250000000000001, the local hour is a tiny negative
    number, the index is 120 and the call raises [IndexError]. *)
Lemma refresh_can_raise_index_error :
  let offset := B64.nearest (- (6250000000000001 # 1000000000000000)) in
  let ci := {| distribution := Some [("A"%string, 1)];
               timezone := Some [("A"%string, offset)];
               distribution_modulated := Some [("A"%string, 0)] |} in
  let s := with_clock 0 (625 # 100)
             (with_config (Poisson.with_country_infos (Some ci) Example.cfg)
                          Example.loaded) in
  fst (Poisson.generate_time_modulated_weights (RD:=binary64) s)
  = Raise IndexError.
Proof. vm_compute. reflexivity. Qed.

(** C5 (amended): in the Poisson variant, when every country of the
    active distribution has a time-zone entry, the refreshed weight of a
    country is its base weight times the entry of the diurnal table read
    at the local hour, which is the clock hour ROUNDED TO TWO DECIMALS
    plus the UTC offset; hour, table index, product and sum are computed
    on floats, whatever their rounding [fl] is.  Provided these table
    look-ups succeed (on exact numbers they always do; on binary64 the
    index can run off the table, see C10), the call returns the refreshed
    per-country mapping together with the sum of the refreshed weights,
    added up in the order of the distribution.  The mapping is the
    configuration's own [distribution_modulated] dictionary, updated in
    place; entries of countries outside the distribution are left as they
    were. *)
Theorem generate_time_modulated_weights_spec {RD : Rounding} (s : State) :
  let dist := Poisson.country_distribution_of (config s) in
  let tz := Poisson.country_timezone_of (config s) in
  let hour := fl (Py.round (GLOBAL_TIMESTAMP_HOUR s) 2) in
  NoDup (keys dist) ->
  (forall c, In c (keys dist) -> In c (keys tz)) ->
  (forall c offset, In c (keys dist) -> get tz c = Some offset ->
     exists f,
       Poisson.user_daily_activity_pattern (fl (hour + offset)) = Ok f) ->
  exists m sum,
    Poisson.generate_time_modulated_weights s
    = (Ok (m, sum), with_config (Poisson.mutate_modulated m (config s)) s) /\
    (forall c w, get dist c = Some w ->
       exists offset f,
         get tz c = Some offset /\
         Poisson.user_daily_activity_pattern (fl (hour + offset)) = Ok f /\
         get m c = Some (fl (w * f))) /\
    (forall c, ~ In c (keys dist) ->
       get m c = get (Poisson.country_distribution_modulated_of (config s)) c) /\
    sum = float_sum (modulated_weights m (keys dist)).
Proof.
  intros dist tz hour Hnd Htz Hlook.
  destruct (modulate_run tz hour dist
              (Poisson.country_distribution_modulated_of (config s), 0)
              Hnd Htz Hlook)
    as (m & sum & E & Hval & Hframe & Hsum).
  exists m, sum. split; [| split; [exact Hval | split; [exact Hframe |]]].
  - rewrite generate_time_modulated_weights_unfold.
    fold dist tz hour. rewrite E. reflexivity.
  - exact Hsum.
Qed.

(** The example run on binary64 with the clock at 8.2: the local hour of
    "US", five hours behind, is 3.1999999999999993, which lies in bucket
    15 of the table (0.047), not in bucket 16 (0.041); the refreshed
    weights are 300000 * 0.047 = 14100.0 and 80000 * 0.712 = 56960.0. *)
Lemma generate_time_modulated_weights_spec_witness :
  exists m,
    Poisson.generate_time_modulated_weights (RD:=binary64) clock_at_8_2
    = (Ok (m, 71060),
       with_config (Poisson.mutate_modulated m (config clock_at_8_2))
                   clock_at_8_2) /\
    get m "US" = Some 14100 /\
    get m "IR" = Some 56960.
Proof.
  assert (Ed : Poisson.country_distribution_of (config clock_at_8_2)
               = [("US", 300000); ("IR", 80000)]%string)
    by (vm_compute; reflexivity).
  assert (Et : Poisson.country_timezone_of (config clock_at_8_2)
               = [("US", - (5)); ("IR", 7 # 2); ("XX", 0)]%string)
    by (vm_compute; reflexivity).
  destruct (generate_time_modulated_weights_spec (RD:=binary64) clock_at_8_2)
    as (m & sum & E & Hval & _ & Hsum).
  - rewrite Ed. repeat constructor; simpl; intuition discriminate.
  - rewrite Ed, Et. simpl. tauto.
  - rewrite Ed, Et. intros c offset [<- | [<- | []]] Ho;
      injection Ho as <-; eexists; vm_compute; reflexivity.
  - rewrite Ed, Et in Hval. rewrite Ed in Hsum.
    assert (Hus : get m "US" = Some 14100).
    { destruct (Hval "US"%string 300000 eq_refl) as (offset & f & Ho & Hf & Hm).
      injection Ho as <-.
      vm_compute in Hf. injection Hf as <-. rewrite Hm.
      vm_compute. reflexivity. }
    assert (Hir : get m "IR" = Some 56960).
    { destruct (Hval "IR"%string 80000 eq_refl) as (offset & f & Ho & Hf & Hm).
      injection Ho as <-.
      vm_compute in Hf. injection Hf as <-. rewrite Hm.
      vm_compute. reflexivity. }
    exists m. split; [| split; [exact Hus | exact Hir]].
    rewrite E. f_equal. f_equal. f_equal. rewrite Hsum.
    cbn [keys map fst modulated_weights]. rewrite Hus, Hir.
    vm_compute. reflexivity.
Defined.


(** The simple variant: the same refresh at the wall-clock hour, with the
    closed-form curve, into a fresh dictionary, and without the sum. *)
Lemma simple_modulate_run (ML : MathLib Q) tz hour : forall items acc,
  NoDup (keys items) ->
  (forall c, In c (keys items) -> In c (keys tz)) ->
  exists m,
    Simple.modulate tz hour items acc = Ok m /\
    (forall c w, get items c = Some w ->
       exists offset,
         get tz c = Some offset /\
         get m c
         = Some (w * Simple.user_daily_activity_pattern (hour + offset))) /\
    (forall c, ~ In c (keys items) -> get m c = get acc c).
Proof.
  induction items as [| [c w] rest IH]; intros acc Hnd Htz.
  - exists acc. split; [reflexivity |].
    split; [intros ? ? H; discriminate H | reflexivity].
  - simpl in Hnd. inversion Hnd as [| ? ? Hc Hnd']; subst.
    destruct (In_get_Some tz c (Htz c (or_introl eq_refl))) as [offset Hoff].
    cbn [Simple.modulate]. unfold getitem. rewrite Hoff. cbn [rbind].
    destruct (IH (set acc c
                      (w * Simple.user_daily_activity_pattern (hour + offset)))
                 Hnd' (fun c' H => Htz c' (or_intror H)))
      as (m & E & Hval & Hframe).
    exists m. split; [exact E |]. split.
    + intros c' w' Hw'. cbn [get] in Hw'.
      destruct (String.eqb_spec c' c) as [-> | Hne].
      * injection Hw' as <-. exists offset. split; [exact Hoff |].
        rewrite (Hframe c Hc). apply get_set_same.
      * apply Hval. exact Hw'.
    + intros c' Hc'. simpl in Hc'.
      rewrite (Hframe c' ltac:(tauto)).
      apply get_set_other. intros ->. tauto.
Qed.

(** ** Draws of the generator *)

Lemma random_at s :
  Random.random s
  = (Ok (uniform_at s (rng_pos s)), with_rng_pos (S (rng_pos s)) s).
Proof. reflexivity. Qed.

Lemma uniform_at_range s i : 0 <= uniform_at s i /\ uniform_at s i < 1.
Proof.
  unfold uniform_at.
  assert (Hu : (rng_stream s i mod 2 ^ 53 < 2 ^ 53)%N)
    by (apply N.mod_upper_bound; discriminate).
  set (k := (rng_stream s i mod 2 ^ 53)%N) in *.
  change (2 ^ 53)%N with 9007199254740992%N in Hu.
  change (2 ^ 53)%positive with 9007199254740992%positive.
  unfold Qle, Qlt. simpl. lia.
Qed.

Lemma expovariate_run (ML : MathLib Q) s :
  ~ GLOBAL_RATE_MAXIMUM s == 0 ->
  Random.expovariate (GLOBAL_RATE_MAXIMUM s) s
  = (Ok (gap ML s), with_rng_pos (S (rng_pos s)) s).
Proof.
  intros Hl. unfold Random.expovariate.
  rewrite (bind_Ok _ _ _ _ _ (random_at s)).
  unfold lift. rewrite (truediv_Ok _ _ Hl). reflexivity.
Qed.

Lemma expovariate_zero_rate (ML : MathLib Q) s :
  GLOBAL_RATE_MAXIMUM s == 0 ->
  Random.expovariate (GLOBAL_RATE_MAXIMUM s) s
  = (Raise ZeroDivisionError, with_rng_pos (S (rng_pos s)) s).
Proof.
  intros Hl. unfold Random.expovariate.
  rewrite (bind_Ok _ _ _ _ _ (random_at s)).
  unfold lift, truediv.
  apply Qeq_bool_iff in Hl. rewrite Hl. reflexivity.
Qed.

(** [generate_event] is the draw of the gap, the clock update and the
    thinning step, in this order. *)
Lemma generate_event_unfold {RD : Rounding} (ML : MathLib Q) :
  Poisson.generate_event =
  (rate <- gets GLOBAL_RATE_MAXIMUM ;;
   dt_seconds <- Random.expovariate rate ;;
   modify (advance dt_seconds) ;;;
   thinning_step rate).
Proof. reflexivity. Qed.

Lemma generate_event_after_gap {RD : Rounding} (ML : MathLib Q) s :
  ~ GLOBAL_RATE_MAXIMUM s == 0 ->
  Poisson.generate_event s
  = thinning_step (GLOBAL_RATE_MAXIMUM s)
      (advance (gap ML s) (with_rng_pos (S (rng_pos s)) s)).
Proof.
  intros Hnz. rewrite generate_event_unfold.
  rewrite (bind_Ok (gets GLOBAL_RATE_MAXIMUM) _ s _ s eq_refl).
  rewrite (bind_Ok _ _ _ _ _ (expovariate_run ML s Hnz)).
  reflexivity.
Qed.

Lemma generate_event_zero_rate {RD : Rounding} (ML : MathLib Q) s :
  GLOBAL_RATE_MAXIMUM s == 0 ->
  Poisson.generate_event s
  = (Raise ZeroDivisionError, with_rng_pos (S (rng_pos s)) s).
Proof.
  intros Hz. rewrite generate_event_unfold.
  rewrite (bind_Ok (gets GLOBAL_RATE_MAXIMUM) _ s _ s eq_refl).
  rewrite (bind_Raise _ _ _ _ _ (expovariate_zero_rate ML s Hz)).
  reflexivity.
Qed.

(** ** Frame reasoning: what a computation leaves alone *)

Section Frame.

Variable R : State -> State -> Prop.
Hypothesis R_refl : forall s, R s s.
Hypothesis R_trans : forall a b c, R a b -> R b c -> R a c.
Hypothesis R_rng : forall s n, R s (with_rng_pos n s).
Hypothesis R_config : forall s c, R s (with_config c s).

Lemma preserves_ret {A} (a : A) : preserves R (ret a).
Proof. intros s r s' E. injection E as _ <-. apply R_refl. Qed.

Lemma preserves_raise {A} (e : exn) : preserves R (raise (A:=A) e).
Proof. intros s r s' E. injection E as _ <-. apply R_refl. Qed.

Lemma preserves_lift {A} (x : result A) : preserves R (lift x).
Proof. intros s r s' E. injection E as _ <-. apply R_refl. Qed.

Lemma preserves_gets {A} (f : State -> A) : preserves R (gets f).
Proof. intros s r s' E. injection E as _ <-. apply R_refl. Qed.

Lemma preserves_bind {A B} (m : M A) (k : A -> M B) :
  preserves R m -> (forall a, preserves R (k a)) -> preserves R (bind m k).
Proof.
  intros Hm Hk s r s' E. unfold bind in E.
  destruct (m s) as [[a | e] s1] eqn:Em.
  - apply R_trans with s1; [eapply Hm | eapply Hk]; eassumption.
  - injection E as _ <-. eapply Hm; eassumption.
Qed.

Lemma preserves_raw : preserves R Random.raw.
Proof. intros s r s' E. injection E as _ <-. apply R_rng. Qed.

Hint Resolve preserves_ret preserves_raise preserves_lift preserves_gets
  preserves_raw : core.

(** Split a computation along its [bind]s and close the leaves. *)
Ltac frame :=
  repeat first
    [ apply preserves_bind; [| intros ]
    | progress auto
    | match goal with
      | |- preserves R (match ?x with _ => _ end) => destruct x
      end ].

Lemma preserves_random : preserves R Random.random.
Proof. unfold Random.random. frame. Qed.

Lemma preserves_randbelow n : preserves R (Random.randbelow n).
Proof. unfold Random.randbelow. frame. Qed.

Hint Resolve preserves_random preserves_randbelow : core.

Lemma preserves_randint a b : preserves R (Random.randint a b).
Proof. unfold Random.randint. frame. Qed.

Lemma preserves_uniform a b : preserves R (Random.uniform a b).
Proof. unfold Random.uniform. frame. Qed.

Lemma preserves_choice {A} (seq : list A) : preserves R (Random.choice seq).
Proof. unfold Random.choice. frame. Qed.

Lemma preserves_expovariate (ML : MathLib Q) lambd :
  preserves R (Random.expovariate lambd).
Proof. unfold Random.expovariate. frame. Qed.

Lemma preserves_choices1 {A} (population : list A) weights :
  preserves R (Random.choices1 population weights).
Proof. unfold Random.choices1. frame. Qed.

Lemma preserves_token prefix : preserves R (Faker.token prefix).
Proof. unfold Faker.token. frame. Qed.

Hint Resolve preserves_randint preserves_uniform preserves_choice
  preserves_expovariate preserves_choices1 preserves_token : core.

Lemma preserves_get_weighted_choice d : preserves R (get_weighted_choice d).
Proof. unfold get_weighted_choice. frame. Qed.

Lemma preserves_event_details_obj t : preserves R (event_details_obj t).
Proof.
  unfold event_details_obj, Faker.bs.
  destruct (t =? "search")%string; [frame |].
  destruct (t =? "review_submit")%string; [frame |].
  destruct (t =? "in_app_purchase")%string; frame.
Qed.

Lemma preserves_gen_app_id : preserves R gen_app_id.
Proof. unfold gen_app_id. frame. Qed.

Lemma preserves_gen_os_version : preserves R gen_os_version.
Proof. unfold gen_os_version. frame. Qed.

Lemma preserves_get_current_hour {RD : Rounding} : preserves R get_current_hour.
Proof. unfold get_current_hour. frame. Qed.

Lemma preserves_generate_time_modulated_weights {RD : Rounding} :
  preserves R Poisson.generate_time_modulated_weights.
Proof.
  unfold Poisson.generate_time_modulated_weights.
  apply preserves_bind; [auto | intros s0].
  destruct (Poisson.modulate _ _ _ _) as [r [m sum]].
  apply preserves_bind.
  - intros s r' s' E. injection E as _ <-. apply R_config.
  - intros _. destruct r; auto.
Qed.

Hint Resolve preserves_get_weighted_choice preserves_event_details_obj
  preserves_gen_app_id preserves_gen_os_version preserves_get_current_hour
  preserves_generate_time_modulated_weights : core.

(** The simple generator changes nothing but the read position of the
    random generator. *)
Lemma preserves_simple_generate_event {RD : Rounding} (ML : MathLib Q) :
  preserves R Simple.generate_event.
Proof.
  unfold Simple.generate_event, Simple.generate_time_modulated_weights,
    get_current_timestamp_micros, uuid_uuid4, Faker.iso8601, Faker.uuid4.
  frame.
Qed.

Lemma preserves_sample_event m : preserves R (sample_event m).
Proof.
  unfold sample_event, get_current_timestamp_micros, uuid_uuid4, Faker.uuid4.
  frame.
Qed.

Lemma preserves_thinning_step {RD : Rounding} rate : preserves R (thinning_step rate).
Proof.
  unfold thinning_step.
  apply preserves_bind; [auto |]. intros [m sum].
  apply preserves_bind; [auto |]. intros u.
  apply preserves_bind; [auto |]. intros p.
  destruct (Qlt_le_dec p u); [auto | apply preserves_sample_event].
Qed.

(** The Poisson generator besides advances the virtual clock by the gap
    it draws. *)
Lemma preserves_poisson_generate_event {RD : Rounding} (ML : MathLib Q) :
  (forall s, ~ GLOBAL_RATE_MAXIMUM s == 0 -> R s (advance (gap ML s) s)) ->
  preserves R Poisson.generate_event.
Proof.
  intros R_clock s r s' E.
  destruct (Qeq_dec (GLOBAL_RATE_MAXIMUM s) 0) as [Hz | Hnz].
  - rewrite (generate_event_zero_rate ML s Hz) in E.
    injection E as _ <-. apply R_rng.
  - rewrite (generate_event_after_gap ML s Hnz) in E.
    apply R_trans with (advance (gap ML s) s); [apply R_clock; exact Hnz |].
    apply R_trans with (advance (gap ML s) (with_rng_pos (S (rng_pos s)) s));
      [apply (R_rng (advance (gap ML s) s) (S (rng_pos s))) |].
    exact (preserves_thinning_step _ _ _ _ E).
Qed.

End Frame.

Create HintDb frame.
#[export] Hint Resolve preserves_ret preserves_raise preserves_lift
  preserves_gets preserves_raw preserves_random preserves_randbelow
  preserves_randint preserves_uniform preserves_choice preserves_expovariate
  preserves_choices1 preserves_token preserves_get_weighted_choice
  preserves_event_details_obj preserves_gen_app_id preserves_gen_os_version
  preserves_get_current_hour preserves_generate_time_modulated_weights
  preserves_simple_generate_event preserves_sample_event
  preserves_thinning_step : frame.

(** Close a [preserves] goal for a relation whose four closure properties
    are among the hypotheses. *)
Ltac frame_auto :=
  repeat first
    [ eapply preserves_bind; [eassumption | | intros ]
    | solve [eauto 6 with frame]
    | match goal with
      | |- preserves _ (match ?x with _ => _ end) => destruct x
      end ].

Lemma same_trace_refl s : same_trace s s.
Proof. reflexivity. Qed.

Lemma same_trace_trans a b c : same_trace a b -> same_trace b c -> same_trace a c.
Proof. unfold same_trace. congruence. Qed.

Lemma same_trace_rng s n : same_trace s (with_rng_pos n s).
Proof. reflexivity. Qed.

Lemma same_trace_config s c : same_trace s (with_config c s).
Proof. reflexivity. Qed.





Lemma clock_le_refl s : clock_le s s.
Proof. split; [reflexivity |]. intros _. split; [lia | apply Qle_refl]. Qed.

Lemma clock_le_trans a b c : clock_le a b -> clock_le b c -> clock_le a c.
Proof.
  unfold clock_le. intros [Hr1 H1] [Hr2 H2]. split; [congruence |].
  intros Ha. destruct (H1 Ha) as [Hm1 Hh1].
  rewrite Hr1 in H2. destruct (H2 Ha) as [Hm2 Hh2].
  split; [lia | eapply Qle_trans; eassumption].
Qed.

Lemma clock_le_rng s n : clock_le s (with_rng_pos n s).
Proof. exact (conj eq_refl (proj2 (clock_le_refl s))). Qed.

Lemma clock_le_config s c : clock_le s (with_config c s).
Proof. exact (conj eq_refl (proj2 (clock_le_refl s))). Qed.

Lemma clock_le_trace s t : clock_le s (with_trace t s).
Proof. exact (conj eq_refl (proj2 (clock_le_refl s))). Qed.

(** A non-negative gap moves the clock forward. *)
Lemma clock_le_advance (ML : MathLib Q) s :
  (forall u, 0 < u -> u <= 1 -> math_log u <= 0) ->
  ~ GLOBAL_RATE_MAXIMUM s == 0 ->
  clock_le s (advance (gap ML s) s).
Proof.
  intros Hlog Hnz. split; [reflexivity |]. intros Hnn.
  assert (Hpos : 0 < GLOBAL_RATE_MAXIMUM s).
  { apply Qle_lteq in Hnn. destruct Hnn as [Hlt | Heq]; [exact Hlt |].
    exfalso. apply Hnz. symmetry. exact Heq. }
  assert (Hgap : 0 <= gap ML s).
  { unfold gap. destruct (uniform_at_range s (rng_pos s)) as [Hu0 Hu1].
    specialize (Hlog (1 - uniform_at s (rng_pos s)) ltac:(lra) ltac:(lra)).
    apply Qle_shift_div_l; [exact Hpos | lra]. }
  unfold advance. cbn [GLOBAL_TIMESTAMP_MICROS GLOBAL_TIMESTAMP_HOUR with_clock].
  unround. split.
  - assert (0 <= trunc (gap ML s * 1000000))%Z by (apply trunc_nonneg; lra).
    lia.
  - assert (0 <= gap ML s / 3600)
      by (apply Qle_shift_div_l; [reflexivity | lra]).
    lra.
Qed.

Lemma generate_time_modulated_weights_state {RD : Rounding} s m sum s' :
  Poisson.generate_time_modulated_weights s = (Ok (m, sum), s') ->
  s' = with_config (Poisson.mutate_modulated m (config s)) s.
Proof.
  rewrite generate_time_modulated_weights_unfold.
  destruct (Poisson.modulate _ _ _ _) as [[[] | e] [m' sum']]; intros E.
  - injection E as <- _ <-. reflexivity.
  - discriminate E.
Qed.


(** ** ArrivalProcess: thinning *)

Lemma thinning_step_run {RD : Rounding} rate s m sum s2 :
  ~ rate == 0 ->
  Poisson.generate_time_modulated_weights s = (Ok (m, sum), s2) ->
  thinning_step rate s
  = (if Qlt_le_dec (sum / rate) (uniform_at s (rng_pos s)) then ret None
     else sample_event m) (with_rng_pos (S (rng_pos s)) s2).
Proof.
  intros Hrate Hg.
  pose proof (generate_time_modulated_weights_state s m sum s2 Hg) as Hs2.
  unfold thinning_step.
  rewrite (bind_Ok _ _ _ _ _ Hg).
  rewrite (bind_Ok _ _ _ _ _ (random_at s2)).
  unfold lift at 1. rewrite (truediv_Ok sum rate Hrate).
  unfold bind at 1. rewrite Hs2. reflexivity.
Qed.



(** ** SimulationClock: monotonicity *)

Lemma preserves_modify_trace (f : State -> list Effect) :
  preserves clock_le (modify (fun s => with_trace (f s) s)).
Proof. intros s r s' E. injection E as _ <-. apply clock_le_trace. Qed.

Lemma clock_le_generate_event (ML : MathLib Q) :
  (forall u, 0 < u -> u <= 1 -> math_log u <= 0) ->
  preserves clock_le Poisson.generate_event.
Proof.
  intros Hlog.
  apply (preserves_poisson_generate_event clock_le clock_le_refl
           clock_le_trans clock_le_rng clock_le_config ML).
  intros s Hnz. apply clock_le_advance; assumption.
Qed.

Lemma clock_le_loop_iteration (ML : MathLib Q) topic :
  (forall u, 0 < u -> u <= 1 -> math_log u <= 0) ->
  preserves clock_le (Poisson.loop_iteration topic).
Proof.
  intros Hlog.
  pose proof clock_le_refl as Hr. pose proof clock_le_trans as Ht.
  pose proof clock_le_rng as Hn. pose proof clock_le_config as Hc.
  unfold Poisson.loop_iteration.
  eapply preserves_bind; [exact Ht | frame_auto |]. intros cfg.
  eapply preserves_bind;
    [exact Ht | apply clock_le_generate_event; exact Hlog |].
  intros [e |]; [| frame_auto].
  eapply preserves_bind; [exact Ht | apply preserves_modify_trace |].
  intros _. unfold Poisson.pace, time_sleep.
  destruct (Qlt_le_dec 0 _).
  - eapply preserves_bind; [exact Ht | frame_auto |]. intros j.
    apply preserves_modify_trace.
  - apply preserves_modify_trace.
Qed.

Lemma clock_le_run (ML : MathLib Q) topic :
  (forall u, 0 < u -> u <= 1 -> math_log u <= 0) ->
  forall n, preserves clock_le (Poisson.run n topic).
Proof.
  intros Hlog. induction n as [| n IH]; intros s r s' E.
  - injection E as _ <-. apply clock_le_refl.
  - cbn [Poisson.run] in E.
    destruct (Poisson.loop_iteration topic s) as [[[] | e] s1] eqn:E1.
    + apply clock_le_trans with s1.
      * exact (clock_le_loop_iteration ML topic Hlog _ _ _ E1).
      * exact (IH _ _ _ E).
    + injection E as _ <-.
      exact (clock_le_loop_iteration ML topic Hlog _ _ _ E1).
Qed.


(** The property of the logarithm used above, for the real [ln]. *)
Lemma real_log_nonpos (u : R) :
  (0 < u)%R -> (u <= 1)%R -> (math_log (MathLib:=MathR) u <= 0)%R.
Proof.
  intros H0 H1. cbn [math_log MathR].
  destruct H1 as [Hlt | ->].
  - rewrite <- ln_1. left. apply ln_increasing; assumption.
  - rewrite ln_1. right. reflexivity.
Qed.

(** The rational stand-in of the logarithm is non-positive on (0, 1]. *)
Lemma rational_log_nonpos (u : Q) :
  0 < u -> u <= 1 -> math_log (MathLib:=Example.rational_math) u <= 0.
Proof.
  intros H0 H1. cbn [math_log Example.rational_math].
  set (t := (u - 1) / (u + 1)).
  assert (Ht : t <= 0).
  { unfold t. apply Qle_shift_div_r; lra. }
  assert (Ht3 : t * t * t <= 0) by nra.
  assert (Ht5 : t * t * t * t * t <= 0) by nra.
  assert (H3 : t * t * t / 3 <= 0)
    by (apply Qle_shift_div_r; [reflexivity | lra]).
  assert (H5 : t * t * t * t * t / 5 <= 0)
    by (apply Qle_shift_div_r; [reflexivity | lra]).
  lra.
Qed.


(** From the module as loaded to any point of the delivery loop: with
    non-negative weights and parameters the clock is never behind the
    resume point. *)
Lemma main_clock_never_behind_resume_point (ML : MathLib Q)
  (stream : nat -> N) (micros hour minute : Z) (c0 c : Config) (n : nat) :
  (forall u, 0 < u -> u <= 1 -> math_log u <= 0) ->
  Poisson.falsy (gcp_project_id c) = false ->
  Poisson.falsy (pubsub_topic_name c) = false ->
  NoDup (keys (Poisson.country_distribution_of c)) ->
  ~ replicas_factor c == 0 ->
  0 <= interactions_per_second c ->
  (forall k w, get (Poisson.country_distribution_of c) k = Some w ->
     0 <= w * population_fraction c / replicas_factor c) ->
  forall r s',
    Poisson.main (Poisson.Parsed c) n
                 (Poisson.module_state stream micros hour minute c0) = (r, s') ->
    (RESUME_MICROS <= GLOBAL_TIMESTAMP_MICROS s')%Z /\
    RESUME_HOUR <= GLOBAL_TIMESTAMP_HOUR s'.
Proof.
  intros Hlog Hp Ht Hnd Hr Hips Hw r s' E.
  set (s0 := with_config c (Poisson.module_state stream micros hour minute c0)).
  destruct (startup_run s0 Hnd Hr) as (s1 & E1 & Hm & Hh & _ & Hrate).
  specialize (Hrate Hips (fun k w H => trunc_nonneg _ (Hw k w H))).
  unfold Poisson.main in E. unfold bind at 1 in E. unfold modify at 1 in E.
  fold s0 in E. rewrite Hp, Ht in E. change (false || false) with false in E.
  cbv iota in E. unfold bind at 1 in E. rewrite E1 in E.
  unfold Poisson.publish_messages_batch in E.
  destruct (clock_le_run ML _ Hlog n s1 r s' E) as [_ Hle].
  rewrite Hm, Hh in Hle. apply Hle.
  apply Qle_trans with (GLOBAL_RATE_MAXIMUM s0); [apply Qle_refl | exact Hrate].
Qed.

(** ** DeliveryPipeline: pacing *)

(** In the Poisson variant a published event is followed by a sleep even
    though [events_per_second] is 0. *)
Lemma poisson_loop_sleeps_when_unthrottled :
  ~ (forall (ML : MathLib Q) (topic : string) (s s' : State),
       base_rate_of s == 0 ->
       Poisson.loop_iteration topic s = (Ok tt, s') ->
       forall d, In (Sleep d) (trace s') -> In (Sleep d) (trace s)).
Proof.
  intros H.
  destruct (Poisson.loop_iteration (ML:=Example.rational_math) "t"
              Example.started) as [r s'] eqn:E.
  assert (Er : r = Ok tt).
  { change r with (fst (r, s')). rewrite <- E. vm_compute. reflexivity. }
  assert (Et : In (Sleep (225 # 100000)) (trace s')).
  { change s' with (snd (r, s')). rewrite <- E. vm_compute. left. reflexivity. }
  subst r.
  apply (H Example.rational_math "t"%string Example.started s'
           ltac:(vm_compute; reflexivity) E (225 # 100000) Et).
Qed.

(** C3 (amended): when [events_per_second] is 0 (or absent), a turn of the
    simple variant's loop publishes one event and does not sleep; a turn
    of the Poisson variant's loop does nothing more when the tick is
    rejected, and after a published event sleeps a fixed 0.00225 s. *)
Theorem unthrottled_pacing {RD : Rounding} (ML : MathLib Q) (topic : string) (s : State) :
  base_rate_of s == 0 ->
  (forall s', Simple.loop_iteration topic s = (Ok tt, s') ->
     exists e s1,
       Simple.generate_event s = (Ok e, s1) /\
       trace s' = Publish topic e :: trace s) /\
  (forall s', Poisson.loop_iteration topic s = (Ok tt, s') ->
     exists r s1,
       Poisson.generate_event s = (Ok r, s1) /\
       trace s' = match r with
                  | None => trace s
                  | Some e =>
                      Sleep (225 # 100000) :: Publish topic e :: trace s
                  end).
Proof.
  intros Hrate. unfold base_rate_of in Hrate. split; intros s' E.
  - unfold Simple.loop_iteration in E.
    rewrite (bind_Ok (gets config) _ s _ s eq_refl) in E.
    bind_inv E e s1 Egen.
    pose proof (preserves_simple_generate_event same_trace same_trace_refl
                  same_trace_trans same_trace_rng ML s _ _ Egen) as Htr.
    exists e, s1. split; [exact Egen |].
    unfold bind, publish, modify, Simple.pace in E.
    destruct (Qlt_le_dec 0 _) as [Hlt | _]; [rewrite Hrate in Hlt; lra |].
    injection E as <-. cbn [trace with_trace]. rewrite Htr. reflexivity.
  - unfold Poisson.loop_iteration in E.
    rewrite (bind_Ok (gets config) _ s _ s eq_refl) in E.
    bind_inv E r s1 Egen.
    assert (Htr : same_trace s s1).
    { refine (preserves_poisson_generate_event same_trace same_trace_refl
                same_trace_trans same_trace_rng same_trace_config ML
                _ s _ _ Egen).
      intros. reflexivity. }
    exists r, s1. split; [exact Egen |].
    destruct r as [e |].
    + unfold bind, publish, modify, Poisson.pace, time_sleep in E.
      destruct (Qlt_le_dec 0 _) as [Hlt | _]; [rewrite Hrate in Hlt; lra |].
      unfold modify in E. injection E as <-.
      cbn [trace with_trace]. rewrite Htr. reflexivity.
    + injection E as <-. exact Htr.
Qed.

Lemma unthrottled_pacing_witness :
  base_rate_of Example.started == 0 /\
  (exists e s1,
     Simple.generate_event (ML:=Example.rational_math) Example.started
     = (Ok e, s1) /\
     trace (snd (Simple.loop_iteration (ML:=Example.rational_math) "t"
                   Example.started))
     = Publish "t" e :: trace Example.started) /\
  (exists r s1,
     Poisson.generate_event (ML:=Example.rational_math) Example.started
     = (Ok r, s1) /\
     trace (snd (Poisson.loop_iteration (ML:=Example.rational_math) "t"
                   Example.started))
     = match r with
       | None => trace Example.started
       | Some e =>
           Sleep (225 # 100000) :: Publish "t" e :: trace Example.started
       end).
Proof.
  assert (H0 : base_rate_of Example.started == 0) by (vm_compute; reflexivity).
  split; [exact H0 |]. split.
  - apply (proj1 (unthrottled_pacing Example.rational_math "t"%string
                    Example.started H0)).
    rewrite (surjective_pairing (Simple.loop_iteration _ _)) at 1.
    f_equal; vm_compute; reflexivity.
  - apply (proj2 (unthrottled_pacing Example.rational_math "t"%string
                    Example.started H0)).
    rewrite (surjective_pairing (Poisson.loop_iteration _ _)) at 1.
    f_equal; vm_compute; reflexivity.
Defined.

(** ** Pacing with a positive rate *)

Lemma paced_sleep_bounds base_rate randomness s :
  0 < base_rate -> 0 <= randomness ->
  0 <= paced_sleep base_rate randomness s /\
  (1 - randomness) / base_rate <= paced_sleep base_rate randomness s /\
  paced_sleep base_rate randomness s <= (1 + randomness) / base_rate.
Proof.
  intros Hb Hr. unfold paced_sleep. cbv zeta.
  destruct (uniform_at_range s (rng_pos s)) as [Hu0 Hu1].
  set (u := uniform_at s (rng_pos s)) in *.
  set (j := - randomness + (randomness - - randomness) * u).
  assert (Hj : - randomness <= j /\ j <= randomness) by (unfold j; split; nra).
  assert (Hinv : 0 < 1 / base_rate).
  { apply Qlt_shift_div_l; [exact Hb | lra]. }
  assert (Hlo : (1 - randomness) / base_rate <= 1 / base_rate * (1 + j)).
  { unfold Qdiv. setoid_replace ((1 - randomness) * / base_rate)
      with (1 * / base_rate * (1 - randomness)) by ring.
    unfold Qdiv in Hinv. nra. }
  assert (Hhi : 1 / base_rate * (1 + j) <= (1 + randomness) / base_rate).
  { unfold Qdiv. setoid_replace ((1 + randomness) * / base_rate)
      with (1 * / base_rate * (1 + randomness)) by ring.
    unfold Qdiv in Hinv. nra. }
  destruct (Qlt_le_dec 0 (1 / base_rate * (1 + j))) as [Hpos | Hneg].
  - repeat split; [lra | exact Hlo | exact Hhi].
  - repeat split; [lra | lra |].
    apply Qle_shift_div_l; [exact Hb | lra].
Qed.

Lemma pace_run_simple base_rate randomness s :
  0 < base_rate ->
  Simple.pace base_rate randomness s
  = (Ok tt, with_trace (Sleep (paced_sleep base_rate randomness s) :: trace s)
                       (with_rng_pos (S (rng_pos s)) s)).
Proof.
  intros Hb. unfold Simple.pace.
  destruct (Qlt_le_dec 0 base_rate) as [_ | Hle]; [| lra].
  reflexivity.
Qed.

Lemma pace_run_poisson base_rate randomness s :
  0 < base_rate ->
  Poisson.pace base_rate randomness s
  = (Ok tt, with_trace (Sleep (paced_sleep base_rate randomness s) :: trace s)
                       (with_rng_pos (S (rng_pos s)) s)).
Proof.
  intros Hb. unfold Poisson.pace.
  destruct (Qlt_le_dec 0 base_rate) as [_ | Hle]; [| lra].
  reflexivity.
Qed.

(** X1: with a positive [events_per_second] and a non-negative
    [randomness_factor], every event that a turn of the delivery loop
    publishes is followed by exactly one sleep, and that sleep is not
    negative and lies between [(1 - randomness) / rate] and
    [(1 + randomness) / rate].  In the Poisson variant a rejected tick
    adds nothing to the trace. *)
Theorem paced_turn_sleeps_within_band {RD : Rounding} (ML : MathLib Q) (topic : string)
  (s : State) :
  0 < base_rate_of s -> 0 <= randomness_of s ->
  (forall s', Simple.loop_iteration topic s = (Ok tt, s') ->
     exists e d,
       trace s' = Sleep d :: Publish topic e :: trace s /\
       in_pacing_band s d) /\
  (forall s', Poisson.loop_iteration topic s = (Ok tt, s') ->
     trace s' = trace s \/
     exists e d,
       trace s' = Sleep d :: Publish topic e :: trace s /\
       in_pacing_band s d).
Proof.
  intros Hb Hr. split; intros s' E.
  - unfold Simple.loop_iteration in E.
    rewrite (bind_Ok (gets config) _ s _ s eq_refl) in E.
    bind_inv E e s1 Egen.
    pose proof (preserves_simple_generate_event same_trace same_trace_refl
                  same_trace_trans same_trace_rng ML s _ _ Egen) as Htr.
    unfold bind at 1 in E. unfold publish at 1, modify at 1 in E.
    rewrite (pace_run_simple _ _ _ Hb) in E. injection E as <-.
    exists e. eexists. split.
    + cbn [trace with_trace with_rng_pos]. rewrite Htr. reflexivity.
    + apply paced_sleep_bounds; assumption.
  - unfold Poisson.loop_iteration in E.
    rewrite (bind_Ok (gets config) _ s _ s eq_refl) in E.
    bind_inv E r s1 Egen.
    assert (Htr : same_trace s s1).
    { refine (preserves_poisson_generate_event same_trace same_trace_refl
                same_trace_trans same_trace_rng same_trace_config ML
                _ s _ _ Egen).
      intros. reflexivity. }
    destruct r as [e |].
    + right. unfold bind at 1 in E. unfold publish at 1, modify at 1 in E.
      rewrite (pace_run_poisson _ _ _ Hb) in E. injection E as <-.
      exists e. eexists. split.
      * cbn [trace with_trace with_rng_pos]. rewrite Htr. reflexivity.
      * apply paced_sleep_bounds; assumption.
    + left. injection E as <-. exact Htr.
Qed.

(** The example run throttled to 10 events a second with a jitter of
    20%: the sleep lies between 0.08 and 0.12 seconds. *)
Lemma paced_turn_sleeps_within_band_witness :
  0 < base_rate_of throttled /\ 0 <= randomness_of throttled /\
  exists e d,
    trace (snd (Simple.loop_iteration (ML:=Example.rational_math) "t"
                  throttled))
    = Sleep d :: Publish "t" e :: trace throttled /\
    (8 # 100) <= d /\ d <= (12 # 100).
Proof.
  assert (Hb : 0 < base_rate_of throttled) by reflexivity.
  assert (Hr : 0 <= randomness_of throttled) by discriminate.
  split; [exact Hb |]. split; [exact Hr |].
  destruct (Simple.loop_iteration (ML:=Example.rational_math) "t" throttled)
    as [r s'] eqn:E.
  assert (Hok : r = Ok tt).
  { change r with (fst (r, s')). rewrite <- E. vm_compute. reflexivity. }
  subst r.
  destruct (proj1 (paced_turn_sleeps_within_band Example.rational_math
                     "t"%string throttled Hb Hr) s' E)
    as (e & d & Htr & _ & Hlo & Hhi).
  exists e, d. split; [exact Htr |].
  assert (Elo : (1 - randomness_of throttled) / base_rate_of throttled
                == 8 # 100) by reflexivity.
  assert (Ehi : (1 + randomness_of throttled) / base_rate_of throttled
                == 12 # 100) by reflexivity.
  rewrite Elo in Hlo. rewrite Ehi in Hhi. split; assumption.
Defined.

(** ** WeightedSampler: cumulative-weight selection *)

Lemma fold_left_Qplus_shift ws : forall a,
  fold_left Qplus ws a == a + total_weight ws.
Proof.
  unfold total_weight.
  induction ws as [| w r IH]; intros a; simpl; [ring |].
  rewrite (IH (a + w)), (IH (0 + w)). ring.
Qed.

Lemma prefix_weight_S ws k :
  (k < List.length ws)%nat ->
  prefix_weight ws (S k) == prefix_weight ws k + weight_at ws k.
Proof.
  unfold prefix_weight, weight_at. revert k.
  induction ws as [| w r IH]; intros k Hk; simpl in Hk; [lia |].
  destruct k as [| k].
  - simpl. unfold total_weight. simpl. ring.
  - change (firstn (S (S k)) (w :: r)) with (w :: firstn (S k) r).
    change (firstn (S k) (w :: r)) with (w :: firstn k r).
    rewrite !total_weight_cons. rewrite (IH k) by lia.
    simpl nth. ring.
Qed.

Lemma prefix_weight_all ws :
  prefix_weight ws (List.length ws) == total_weight ws.
Proof. unfold prefix_weight. rewrite firstn_all. reflexivity. Qed.

Lemma nth_accumulate_from ws : forall acc i,
  (i < List.length ws)%nat ->
  nth i (Random.accumulate_from acc ws) 0 == acc + prefix_weight ws (S i).
Proof.
  induction ws as [| w r IH]; intros acc i Hi; simpl in Hi; [lia |].
  destruct i as [| i].
  - simpl. unfold prefix_weight, total_weight. simpl. ring.
  - cbn [Random.accumulate_from nth]. rewrite (IH (acc + w) i) by lia.
    unfold prefix_weight.
    change (firstn (S (S i)) (w :: r)) with (w :: firstn (S i) r).
    rewrite total_weight_cons. ring.
Qed.

Lemma nth_accumulate ws i :
  (i < List.length ws)%nat ->
  nth i (Random.accumulate ws) 0 == prefix_weight ws (S i).
Proof.
  intros Hi. destruct ws as [| w r]; [simpl in Hi; lia |].
  destruct i as [| i].
  - simpl. unfold prefix_weight, total_weight. simpl. ring.
  - cbn [Random.accumulate nth]. simpl in Hi.
    rewrite (nth_accumulate_from r w i) by lia.
    unfold prefix_weight.
    change (firstn (S (S i)) (w :: r)) with (w :: firstn (S i) r).
    rewrite total_weight_cons. reflexivity.
Qed.

Lemma prefix_weight_mono ws :
  (forall w, In w ws -> 0 <= w) ->
  forall i j, (i <= j <= List.length ws)%nat ->
  prefix_weight ws i <= prefix_weight ws j.
Proof.
  intros Hnn i j [Hij Hj]. induction Hij as [| j Hij IH]; [apply Qle_refl |].
  rewrite (prefix_weight_S ws j) by lia.
  assert (0 <= weight_at ws j).
  { apply Hnn. unfold weight_at. apply nth_In. lia. }
  specialize (IH ltac:(lia)). lra.
Qed.

(** The loop of [bisect_right] on a non-decreasing list: what lies left of
    the result is at most [x], what lies right of it is above [x]. *)
Lemma bisect_loop_spec (a : list Q) (x : Q) (hi0 : nat) :
  (forall i j, (i <= j < hi0)%nat -> nth i a 0 <= nth j a 0) ->
  forall fuel lo hi,
    (lo <= hi <= hi0)%nat -> (hi - lo <= fuel)%nat ->
    (forall k, (k < lo)%nat -> nth k a 0 <= x) ->
    (forall k, (hi <= k < hi0)%nat -> x < nth k a 0) ->
    let r := Random.bisect_loop fuel a x lo hi in
    (lo <= r <= hi)%nat /\
    (forall k, (k < r)%nat -> nth k a 0 <= x) /\
    (forall k, (r <= k < hi0)%nat -> x < nth k a 0).
Proof.
  intros Hsorted. induction fuel as [| fuel IH]; intros lo hi Hb Hf Hleft Hright.
  - cbn [Random.bisect_loop]. assert (lo = hi) by lia. subst hi.
    repeat split; try lia; assumption.
  - cbn [Random.bisect_loop].
    destruct (Nat.ltb_spec lo hi) as [Hlt | Hge].
    + assert (Hmid : (lo <= (lo + hi) / 2 < hi)%nat).
      { pose proof (Nat.div_mod_eq (lo + hi) 2) as Hd.
        pose proof (Nat.mod_upper_bound (lo + hi) 2 ltac:(discriminate)).
        lia. }
      set (mid := ((lo + hi) / 2)%nat) in *.
      destruct (Qlt_le_dec x (nth mid a 0)) as [Hx | Hx].
      * destruct (IH lo mid ltac:(lia) ltac:(lia) Hleft) as (Hr & Hl' & Hr').
        { intros k Hk. destruct (Nat.lt_ge_cases k hi) as [Hkh | Hkh].
          - apply Qlt_le_trans with (nth mid a 0); [exact Hx |].
            apply Hsorted. lia.
          - apply Hright. lia. }
        repeat split; try lia; assumption.
      * destruct (IH (S mid) hi ltac:(lia) ltac:(lia)) as (Hr & Hl' & Hr').
        { intros k Hk. apply Qle_trans with (nth mid a 0); [| exact Hx].
          apply Hsorted. lia. }
        { exact Hright. }
        repeat split; try lia; assumption.
    + assert (lo = hi) by lia. subst hi.
      repeat split; try lia; assumption.
Qed.

(** With non-negative weights of positive total, the chosen index [i] is
    the one whose stretch of the cumulative weights contains
    [u * total]. *)
Lemma chosen_index_spec (ws : list Q) (u : Q) :
  (forall w, In w ws -> 0 <= w) -> 0 < total_weight ws ->
  0 <= u -> u < 1 ->
  let i := chosen_index ws u in
  (i < List.length ws)%nat /\
  prefix_weight ws i <= u * total_weight ws /\
  u * total_weight ws < prefix_weight ws (S i).
Proof.
  intros Hnn Hpos Hu0 Hu1 i.
  assert (Hne : ws <> []).
  { intros ->. unfold total_weight in Hpos. simpl in Hpos. lra. }
  assert (Hlen : (0 < List.length ws)%nat).
  { destruct ws; [congruence | simpl; lia]. }
  pose proof (accumulate_last ws Hne) as Hlast.
  set (a := Random.accumulate ws) in *.
  set (x := u * last a 0) in *.
  assert (Hx : x == u * total_weight ws) by (unfold x; rewrite Hlast; reflexivity).
  assert (Hsorted : forall i j, (i <= j < List.length ws)%nat ->
                                nth i a 0 <= nth j a 0).
  { intros p q Hpq. unfold a.
    rewrite (nth_accumulate ws p), (nth_accumulate ws q) by lia.
    apply prefix_weight_mono; [exact Hnn | lia]. }
  destruct (bisect_loop_spec a x (List.length ws - 1)
              ltac:(intros; apply Hsorted; lia)
              (List.length ws - 1 - 0) 0%nat (List.length ws - 1)%nat
              ltac:(lia) ltac:(lia)
              ltac:(intros; lia) ltac:(intros; lia))
    as (Hr & Hleft & Hright).
  fold (Random.bisect a x 0 (List.length ws - 1)) in Hr, Hleft, Hright.
  change (Random.bisect a x 0 (List.length ws - 1)) with i in Hr, Hleft, Hright.
  split; [lia |]. split.
  - destruct i as [| i'] eqn:Ei.
    + assert (H0 : prefix_weight ws 0 == 0) by reflexivity.
      rewrite H0. nra.
    + specialize (Hleft i' ltac:(lia)). unfold a in Hleft.
      rewrite (nth_accumulate ws i') in Hleft by lia. rewrite <- Hx. exact Hleft.
  - destruct (Nat.eq_dec i (List.length ws - 1)) as [Elast | Hnl].
    + replace (S i) with (List.length ws) by lia.
      rewrite prefix_weight_all. nra.
    + specialize (Hright i ltac:(lia)). unfold a in Hright.
      rewrite (nth_accumulate ws i) in Hright by lia. rewrite <- Hx. exact Hright.
Qed.

Lemma nth_error_keys_values {V} (d : dict V) i k v :
  nth_error d i = Some (k, v) ->
  nth_error (keys d) i = Some k /\ nth_error (values d) i = Some v.
Proof.
  intros H. unfold keys, values.
  rewrite !nth_error_map, H. split; reflexivity.
Qed.

Lemma chosen_index_range (ws : list Q) (u : Q) :
  ws <> [] -> (chosen_index ws u < List.length ws)%nat.
Proof.
  intros Hne. unfold chosen_index, Random.bisect.
  assert (Hlen : (0 < List.length ws)%nat).
  { destruct ws; [congruence | simpl; lia]. }
  pose proof (bisect_loop_range (List.length ws - 1 - 0)
                (Random.accumulate ws)
                (u * last (Random.accumulate ws) 0) 0 (List.length ws - 1)
                ltac:(lia)).
  lia.
Qed.

Lemma chosen_weight_positive (ws : list Q) (u : Q) :
  (forall w, In w ws -> 0 <= w) -> 0 < total_weight ws ->
  0 <= u -> u < 1 ->
  0 < weight_at ws (chosen_index ws u).
Proof.
  intros Hnn Hpos Hu0 Hu1.
  destruct (chosen_index_spec ws u Hnn Hpos Hu0 Hu1) as (Hi & Hlo & Hhi).
  rewrite (prefix_weight_S ws _ Hi) in Hhi. lra.
Qed.

(** [get_weighted_choice] returns the label at the chosen index and uses
    one draw. *)
Lemma weighted_choice_run (d : dict Q) (s : State) :
  0 < total_weight (values d) ->
  exists label w,
    nth_error d (chosen_index (values d) (uniform_at s (rng_pos s)))
    = Some (label, w) /\
    get_weighted_choice d s = (Ok label, with_rng_pos (S (rng_pos s)) s).
Proof.
  intros Hpos.
  assert (Hne : d <> []).
  { intros ->. unfold total_weight in Hpos. simpl in Hpos. lra. }
  set (u := uniform_at s (rng_pos s)).
  set (i := chosen_index (values d) u).
  assert (Hlenv : List.length (values d) = List.length d)
    by (unfold values; apply length_map).
  assert (Hlenk : List.length (keys d) = List.length d)
    by (unfold keys; apply length_map).
  assert (Hi : (i < List.length d)%nat).
  { rewrite <- Hlenv. apply chosen_index_range.
    destruct d; [congruence | discriminate]. }
  destruct (nth_error d i) as [[label w] |] eqn:En.
  2:{ apply nth_error_None in En. lia. }
  destruct (nth_error_keys_values d i label w En) as [Hk Hv].
  exists label, w. split; [reflexivity |].
  destruct d as [| kv r]; [congruence |].
  unfold get_weighted_choice, Random.choices1.
  rewrite accumulate_length, Hlenv, Hlenk, Nat.eqb_refl.
  change (negb true) with false. cbv iota.
  destruct (Qle_bool (last (Random.accumulate (values (kv :: r))) 0) 0) eqn:Et.
  { apply Qle_bool_iff in Et.
    rewrite (accumulate_last (values (kv :: r))) in Et by discriminate. lra. }
  rewrite (bind_Ok _ _ _ _ _ (random_at s)).
  fold u. rewrite <- Hlenv.
  change (Random.bisect _ _ _ _) with i.
  unfold lift, list_getitem.
  destruct (Z.ltb_spec (Z.of_nat i) 0); [lia |].
  destruct (Z.ltb_spec (Z.of_nat i) 0); [lia |].
  destruct (Z.leb_spec (Z.of_nat (List.length (keys (kv :: r)))) (Z.of_nat i));
    [lia |].
  cbn [orb]. rewrite Nat2Z.id, Hk. reflexivity.
Qed.



(** ** The tabulated curve wraps modulo 24 *)

Lemma Qfloor_unique (q : Q) (z : Z) :
  inject_Z z <= q -> q < inject_Z z + 1 -> Qfloor q = z.
Proof.
  intros Hle Hlt.
  pose proof (Qfloor_le q) as Hf1. pose proof (Qlt_floor q) as Hf2.
  rewrite inject_Z_plus in Hf2. change (inject_Z 1) with 1 in Hf2.
  assert (H1 : (z < Qfloor q + 1)%Z).
  { rewrite Zlt_Qlt, inject_Z_plus. change (inject_Z 1) with 1. lra. }
  assert (H2 : (Qfloor q < z + 1)%Z).
  { rewrite Zlt_Qlt, inject_Z_plus. change (inject_Z 1) with 1. lra. }
  lia.
Qed.

Lemma mod24_shift (h : Q) (k : Z) :
  mod_ (h + 24 * inject_Z k) 24 == mod_ h 24.
Proof.
  unfold mod_.
  assert (Hf : Qfloor ((h + 24 * inject_Z k) / 24) = (Qfloor (h / 24) + k)%Z).
  { apply Qfloor_unique.
    - rewrite inject_Z_plus. pose proof (Qfloor_le (h / 24)).
      setoid_replace ((h + 24 * inject_Z k) / 24) with (h / 24 + inject_Z k)
        by field. lra.
    - rewrite inject_Z_plus. pose proof (Qlt_floor (h / 24)) as Hlt.
      rewrite inject_Z_plus in Hlt. change (inject_Z 1) with 1 in Hlt.
      setoid_replace ((h + 24 * inject_Z k) / 24) with (h / 24 + inject_Z k)
        by field. lra. }
  rewrite Hf, inject_Z_plus. ring.
Qed.

Lemma trunc_comp_nonneg (x y : Q) : 0 <= x -> x == y -> trunc x = trunc y.
Proof.
  intros Hx E. rewrite (trunc_nonneg_floor x Hx).
  rewrite (trunc_nonneg_floor y) by (rewrite <- E; exact Hx).
  apply Qfloor_comp. exact E.
Qed.

(** X3: on exact numbers the tabulated modulator is defined for every
    hour, whatever its sign or size, returns a factor between 0.03 and 1,
    and has period 24: shifting the hour by a whole number of days does
    not change the factor. *)
Theorem tabulated_curve_wraps (h : Q) (k : Z) :
  Poisson.user_daily_activity_pattern (h + 24 * inject_Z k)
  = Poisson.user_daily_activity_pattern h /\
  exists f, Poisson.user_daily_activity_pattern h = Ok f /\
            (3 # 100) <= f /\ f <= 1.
Proof.
  split.
  - unfold Poisson.user_daily_activity_pattern,
      Diurnal.user_daily_activity_pattern.
    assert (Hb : Diurnal.bucket (h + 24 * inject_Z k) = Diurnal.bucket h).
    { change (Ok (trunc (mod_ (h + 24 * inject_Z k) 24 * 5))
              = Ok (trunc (mod_ h 24 * 5))).
      f_equal. destruct (mod24_range (h + 24 * inject_Z k)) as [H0 _].
      apply trunc_comp_nonneg; [lra |].
      rewrite mod24_shift. reflexivity. }
    rewrite Hb. reflexivity.
  - destruct (exact_pattern_total h) as (i & f & _ & _ & _ & Hf).
    exists f. split; [exact Hf |]. apply (exact_pattern_bounds h). exact Hf.
Qed.

(** ** The wall-clock hour of the simple variant *)

(** X4: [get_current_hour] of the simple variant leaves the state alone
    and returns the wall-clock hour plus a whole number of tenths between
    0 and 10; from minute 58 on the tenths are 10, so that the hour
    returned at 23:58 is 24.0. *)
Theorem current_hour_range (s : State) :
  (0 <= wall_minute s <= 59)%Z ->
  exists tenths : Z,
    get_current_hour s
    = (Ok (inject_Z (wall_hour s) + inject_Z tenths / 10), s) /\
    (0 <= tenths <= 10)%Z /\
    (58 <= wall_minute s -> tenths = 10%Z)%Z.
Proof.
  intros Hm. unfold get_current_hour.
  rewrite (bind_Ok (gets (fun s => s)) _ s s s eq_refl).
  unfold ret, Py.round.
  change (inject_Z (10 ^ Z.of_nat 1)) with 10.
  exists (round_half_even (inject_Z (wall_minute s) / 60 * 10)).
  split; [reflexivity |].
  assert (Hq0 : 0 <= inject_Z (wall_minute s))
    by (change 0 with (inject_Z 0); rewrite <- Zle_Qle; lia).
  assert (Hq1 : inject_Z (wall_minute s) <= 59)
    by (change 59 with (inject_Z 59); rewrite <- Zle_Qle; lia).
  set (m := inject_Z (wall_minute s)) in *.
  assert (Hx : m / 60 * 10 == m * (1 # 6)) by field.
  split.
  - apply round_half_even_range.
    + change (inject_Z 0) with 0. rewrite Hx. lra.
    + change (inject_Z 10) with 10. rewrite Hx. lra.
  - intros H58.
    assert (Hq58 : 58 <= m)
      by (unfold m; change 58 with (inject_Z 58); rewrite <- Zle_Qle; lia).
    unfold round_half_even.
    assert (Hf : Qfloor (m / 60 * 10) = 9%Z).
    { apply Qfloor_unique; change (inject_Z 9) with 9; rewrite Hx; lra. }
    rewrite Hf. change (inject_Z 9) with 9.
    assert (Hc : Qcompare (m / 60 * 10 - 9) (1 # 2) = Gt).
    { apply Qgt_alt. rewrite Hx. lra. }
    rewrite Hc. reflexivity.
Qed.

(** The example run starts at 10:30 on the wall clock. *)
Lemma current_hour_range_witness :
  exists tenths : Z,
    get_current_hour Example.loaded
    = (Ok (inject_Z 10 + inject_Z tenths / 10), Example.loaded) /\
    (0 <= tenths <= 10)%Z.
Proof.
  destruct (current_hour_range Example.loaded) as (t & E & Ht & _).
  - vm_compute. split; discriminate.
  - exists t. split; [exact E | exact Ht].
Defined.

(** ** EventFactory: where the attributes of an event come from *)

Lemma only_rng_moves_refl s : only_rng_moves s s.
Proof. exists (rng_pos s). destruct s; reflexivity. Qed.

Lemma only_rng_moves_trans a b c :
  only_rng_moves a b -> only_rng_moves b c -> only_rng_moves a c.
Proof. intros [n ->] [m ->]. exists m. reflexivity. Qed.

Lemma only_rng_moves_rng s n : only_rng_moves s (with_rng_pos n s).
Proof. exists n. reflexivity. Qed.

Lemma list_getitem_In {A} (l : list A) (i : Z) (a : A) :
  list_getitem l i = Ok a -> In a l.
Proof.
  unfold list_getitem.
  destruct (_ || _)%bool; [discriminate |].
  destruct (nth_error l _) eqn:E; [| discriminate].
  intros H. injection H as <-. eapply nth_error_In. exact E.
Qed.

Lemma choice_In {A} (seq : list A) s a s' :
  Random.choice seq s = (Ok a, s') ->
  In a seq /\ s' = with_rng_pos (S (rng_pos s)) s.
Proof.
  destruct seq as [| x r]; [discriminate |].
  unfold Random.choice. intros H. bind_inv H i s1 E.
  unfold Random.randbelow in E. bind_inv E k s2 Eq2.
  rewrite raw_run in Eq2. injection Eq2 as _ <-. injection E as _ <-.
  unfold lift in H. injection H as H <-.
  split; [exact (list_getitem_In _ _ _ H) | reflexivity].
Qed.

Lemma choices1_In {A} (population : list A) weights s a s' :
  Random.choices1 population weights s = (Ok a, s') ->
  In a population /\ s' = with_rng_pos (S (rng_pos s)) s.
Proof.
  unfold Random.choices1.
  destruct (negb _); [discriminate |].
  destruct (Qle_bool _ _); [discriminate |].
  intros H. bind_inv H u s1 E. rewrite random_at in E. injection E as _ <-.
  unfold lift in H. injection H as H <-.
  split; [exact (list_getitem_In _ _ _ H) | reflexivity].
Qed.

Lemma weighted_choice_In d s label s' :
  get_weighted_choice d s = (Ok label, s') ->
  In label (keys d) /\ s' = with_rng_pos (S (rng_pos s)) s.
Proof.
  destruct d as [| kv r]; [discriminate |].
  apply choices1_In.
Qed.

Lemma randint_inv a b s k s' :
  Random.randint a b s = (Ok k, s') -> (a <= b)%Z -> (a <= k <= b)%Z.
Proof.
  intros E Hab. destruct (randint_run a b s Hab) as (k' & E' & Hk).
  rewrite E' in E. injection E as <- _. exact Hk.
Qed.

Lemma gen_app_id_rule s a s' : gen_app_id s = (Ok a, s') -> app_id_rule a.
Proof.
  unfold gen_app_id. intros H. bind_inv H n s1 E. injection H as <- _.
  exists n. split; [reflexivity |]. apply (randint_inv _ _ _ _ _ E). lia.
Qed.

Lemma gen_os_version_rule s v s' :
  gen_os_version s = (Ok v, s') -> os_version_rule v.
Proof.
  unfold gen_os_version. intros H.
  bind_inv H os s1 Eq1. bind_inv H major s2 Eq2. bind_inv H minor s3 Eq3.
  injection H as <- _.
  exists os, major, minor. split; [reflexivity |].
  apply choice_In in Eq1. destruct Eq1 as [Hos _].
  split; [simpl in Hos; intuition congruence |].
  split; [apply (randint_inv _ _ _ _ _ Eq2) | apply (randint_inv _ _ _ _ _ Eq3)];
    lia.
Qed.

Lemma poisson_modulate_keys {RD : Rounding} tz hour : forall items acc r m sum,
  Poisson.modulate tz hour items acc = (r, (m, sum)) ->
  forall c, In c (keys m) -> In c (keys (fst acc)) \/ In c (keys items).
Proof.
  induction items as [| [c0 w0] rest IH]; intros acc r m sum H c Hc.
  - injection H as _ ->. left. exact Hc.
  - cbn [Poisson.modulate] in H.
    destruct (getitem tz c0) as [offset | e].
    2:{ injection H as _ ->. left. exact Hc. }
    destruct (Poisson.user_daily_activity_pattern _) as [f | e].
    2:{ injection H as _ ->. left. exact Hc. }
    destruct (IH _ _ _ _ H c Hc) as [Hin | Hin].
    + cbn [fst] in Hin. apply keys_set in Hin. destruct Hin as [-> | Hin].
      * right. left. reflexivity.
      * left. exact Hin.
    + right. right. exact Hin.
Qed.

Lemma simple_modulate_keys (ML : MathLib Q) tz hour : forall items acc m,
  Simple.modulate tz hour items acc = Ok m ->
  forall c, In c (keys m) -> In c (keys acc) \/ In c (keys items).
Proof.
  induction items as [| [c0 w0] rest IH]; intros acc m H c Hc.
  - injection H as <-. left. exact Hc.
  - cbn [Simple.modulate] in H.
    destruct (getitem tz c0) as [offset | e]; [| discriminate].
    cbn [rbind] in H.
    destruct (IH _ _ H c Hc) as [Hin | Hin].
    + apply keys_set in Hin. destruct Hin as [-> | Hin].
      * right. left. reflexivity.
      * left. exact Hin.
    + right. right. exact Hin.
Qed.

Lemma mutate_modulated_event_type m c :
  event_type_distribution (Poisson.mutate_modulated m c)
  = event_type_distribution c /\
  device_type_distribution (Poisson.mutate_modulated m c)
  = device_type_distribution c.
Proof.
  unfold Poisson.mutate_modulated.
  destruct (country_infos c) as [ci |]; [| split; reflexivity].
  destruct (distribution_modulated ci); split; reflexivity.
Qed.

Lemma event_details_obj_moves t :
  preserves only_rng_moves (event_details_obj t).
Proof.
  exact (preserves_event_details_obj only_rng_moves only_rng_moves_refl
           only_rng_moves_trans only_rng_moves_rng t).
Qed.

Lemma sample_event_attributes m s e s' :
  sample_event m s = (Ok (Some e), s') ->
  In (country_code e) (keys m) /\
  (exists pool, get (USERS_BY_COUNTRY s) (country_code e) = Some pool /\
                In (user_id e) pool) /\
  In (event_type e) (keys (get_default (event_type_distribution (config s)) [])) /\
  In (device_type e)
     (keys (get_default (device_type_distribution (config s)) [])) /\
  app_id_rule (app_id e) /\ os_version_rule (os_version e) /\
  generation_timestamp e = wall_micros s /\
  event_timestamp e = JInt (GLOBAL_TIMESTAMP_MICROS s) /\
  only_rng_moves s s'.
Proof.
  unfold sample_event, get_current_timestamp_micros, uuid_uuid4, Faker.uuid4.
  intros H.
  bind_inv H cc s1 Eq1. apply weighted_choice_In in Eq1. destruct Eq1 as [Hcc ->].
  bind_inv H users s2 Eq2. injection Eq2 as <- <-.
  bind_inv H pool s3 Eq3. unfold lift in Eq3. injection Eq3 as Eq3 <-.
  bind_inv H uid s4 Eq4. apply choice_In in Eq4. destruct Eq4 as [Huid ->].
  bind_inv H cfg s5 Eq5. injection Eq5 as <- <-.
  bind_inv H et s6 Eq6. apply weighted_choice_In in Eq6. destruct Eq6 as [Het ->].
  bind_inv H det s7 Eq7. apply event_details_obj_moves in Eq7.
  destruct Eq7 as [n7 ->].
  bind_inv H ts s8 Eq8. injection Eq8 as <- <-.
  bind_inv H eid s9 Eq9.
  apply (preserves_token only_rng_moves only_rng_moves_refl
           only_rng_moves_trans only_rng_moves_rng) in Eq9.
  destruct Eq9 as [n9 ->].
  bind_inv H vts s10 Eq10. injection Eq10 as <- <-.
  bind_inv H sid s11 Eq11.
  apply (preserves_token only_rng_moves only_rng_moves_refl
           only_rng_moves_trans only_rng_moves_rng) in Eq11.
  destruct Eq11 as [n11 ->].
  bind_inv H aid s12 Eq12.
  pose proof (gen_app_id_rule _ _ _ Eq12) as Haid.
  apply (preserves_gen_app_id only_rng_moves only_rng_moves_refl
           only_rng_moves_trans only_rng_moves_rng) in Eq12.
  destruct Eq12 as [n12 ->].
  bind_inv H dt s13 Eq13. apply weighted_choice_In in Eq13.
  destruct Eq13 as [Hdt ->].
  bind_inv H osv s14 Eq14.
  pose proof (gen_os_version_rule _ _ _ Eq14) as Hosv.
  apply (preserves_gen_os_version only_rng_moves only_rng_moves_refl
           only_rng_moves_trans only_rng_moves_rng) in Eq14.
  destruct Eq14 as [n14 ->].
  injection H as <- <-. cbn.
  split; [exact Hcc |].
  split.
  { exists pool. split; [| exact Huid].
    unfold getitem in Eq3. cbn in Eq3.
    destruct (get (USERS_BY_COUNTRY s) cc); [| discriminate].
    injection Eq3 as ->. reflexivity. }
  repeat (split; [assumption || reflexivity |]).
  eexists. reflexivity.
Qed.

Lemma generate_time_modulated_weights_keys {RD : Rounding} s m sum s' :
  Poisson.generate_time_modulated_weights s = (Ok (m, sum), s') ->
  forall c, In c (keys m) ->
    In c (keys (Poisson.country_distribution_of (config s))) \/
    In c (keys (Poisson.country_distribution_modulated_of (config s))).
Proof.
  rewrite generate_time_modulated_weights_unfold.
  destruct (Poisson.modulate _ _ _ _) as [r [m0 sum0]] eqn:Em.
  destruct r as [[] | e]; [| discriminate].
  intros H c Hc. injection H as <- _ _.
  destruct (poisson_modulate_keys _ _ _ _ _ _ _ Em c Hc) as [Hin | Hin];
    [right | left]; exact Hin.
Qed.

(** An accepted arrival is the outcome of the sampling step, run on the
    refreshed weights in a state that differs from the start state in the
    clock, the generator and the modulated weights only. *)
Lemma accepted_event_sampled {RD : Rounding} (ML : MathLib Q) s e s' :
  Poisson.generate_event s = (Ok (Some e), s') ->
  exists m s3,
    sample_event m s3 = (Ok (Some e), s') /\
    config s3 = Poisson.mutate_modulated m (config s) /\
    USERS_BY_COUNTRY s3 = USERS_BY_COUNTRY s /\
    wall_micros s3 = wall_micros s /\
    trace s3 = trace s /\
    (forall c, In c (keys m) ->
       In c (keys (Poisson.country_distribution_of (config s))) \/
       In c (keys (Poisson.country_distribution_modulated_of (config s)))).
Proof.
  intros H.
  destruct (Qeq_dec (GLOBAL_RATE_MAXIMUM s) 0) as [Hz | Hnz].
  { rewrite (generate_event_zero_rate ML s Hz) in H. discriminate H. }
  rewrite (generate_event_after_gap ML s Hnz) in H.
  set (s1 := advance (gap ML s) (with_rng_pos (S (rng_pos s)) s)) in *.
  unfold thinning_step in H.
  bind_inv H ms s2 Egen. destruct ms as [m sum].
  pose proof (generate_time_modulated_weights_keys _ _ _ _ Egen) as Hkeys.
  apply generate_time_modulated_weights_state in Egen. subst s2.
  bind_inv H u s3 Eu. rewrite random_at in Eu. injection Eu as _ <-.
  bind_inv H p s4 Ep. unfold lift in Ep. injection Ep as _ <-.
  destruct (Qlt_le_dec p u); [discriminate H |].
  eexists. eexists. split; [exact H |].
  repeat (split; [reflexivity |]). exact Hkeys.
Qed.

(** X5: every event of the Poisson variant is made of values the
    configuration and the user pools hold: the user belongs to the pool of
    the event's country, the country is a key of the distribution or of
    the modulated distribution, event type and device type are keys of
    their distributions, [app_id] is "app_" and a number from 1000 to
    9999, [os_version] is iOS or Android with a major version from 12 to
    15 and a minor version from 0 to 5, [generation_timestamp] is the wall
    clock and [event_timestamp] is the virtual clock after the gap. *)
Theorem poisson_event_attributes {RD : Rounding} (ML : MathLib Q) (s : State) (e : Event)
  (s' : State) :
  Poisson.generate_event s = (Ok (Some e), s') ->
  (exists pool, get (USERS_BY_COUNTRY s) (country_code e) = Some pool /\
                In (user_id e) pool) /\
  (In (country_code e) (keys (Poisson.country_distribution_of (config s))) \/
   In (country_code e)
      (keys (Poisson.country_distribution_modulated_of (config s)))) /\
  In (event_type e) (keys (get_default (event_type_distribution (config s)) [])) /\
  In (device_type e)
     (keys (get_default (device_type_distribution (config s)) [])) /\
  app_id_rule (app_id e) /\ os_version_rule (os_version e) /\
  generation_timestamp e = wall_micros s /\
  event_timestamp e = JInt (GLOBAL_TIMESTAMP_MICROS s').
Proof.
  intros H.
  destruct (accepted_event_sampled ML s e s' H)
    as (m & s3 & Es & Hc & Hu & Hw & _ & Hkeys).
  apply sample_event_attributes in Es.
  destruct Es as (Hcc & Hpool & Het & Hdt & Haid & Hosv & Hgen & Hts & n & ->).
  destruct (mutate_modulated_event_type m (config s)) as [Ket Kdt].
  rewrite Hc, Ket in Het. rewrite Hc, Kdt in Hdt.
  rewrite Hu in Hpool. rewrite Hw in Hgen.
  split; [exact Hpool |].
  split; [exact (Hkeys _ Hcc) |].
  repeat (split; [assumption |]). exact Hts.
Qed.

(** The first tick of the example run. *)
Lemma poisson_event_attributes_witness :
  exists e pool,
    fst (Poisson.generate_event (ML:=Example.rational_math) Example.started)
    = Ok (Some e) /\
    get (USERS_BY_COUNTRY Example.started) (country_code e) = Some pool /\
    In (user_id e) pool /\
    app_id_rule (app_id e) /\ os_version_rule (os_version e).
Proof.
  destruct (Poisson.generate_event (ML:=Example.rational_math)
              Example.started) as [r s'] eqn:E.
  assert (Hr : exists e, r = Ok (Some e)).
  { change r with (fst (r, s')). rewrite <- E.
    vm_compute. eexists. reflexivity. }
  destruct Hr as [e ->].
  destruct (poisson_event_attributes _ _ _ _ E)
    as ((pool & Hp & Hu) & _ & _ & _ & Ha & Ho & _).
  exists e, pool.
  exact (conj eq_refl (conj Hp (conj Hu (conj Ha Ho)))).
Defined.

(** X6: every event of the simple variant is made of values the
    configuration holds: country, event type and device type are keys of
    their distributions, [app_id] and [os_version] have the same format as
    in the Poisson variant, [generation_timestamp] is the wall clock; and
    producing the event changes nothing in the state but the read position
    of the random generator. *)
Theorem simple_event_attributes {RD : Rounding} (ML : MathLib Q) (s : State) (e : Event)
  (s' : State) :
  Simple.generate_event s = (Ok e, s') ->
  In (country_code e) (keys (Poisson.country_distribution_of (config s))) /\
  In (event_type e) (keys (get_default (event_type_distribution (config s)) [])) /\
  In (device_type e)
     (keys (get_default (device_type_distribution (config s)) [])) /\
  app_id_rule (app_id e) /\ os_version_rule (os_version e) /\
  generation_timestamp e = wall_micros s /\
  exists n, s' = with_rng_pos n s.
Proof.
  intros H.
  pose proof (preserves_simple_generate_event only_rng_moves
                only_rng_moves_refl only_rng_moves_trans only_rng_moves_rng
                ML s _ _ H) as Hmove.
  unfold Simple.generate_event, Simple.generate_time_modulated_weights,
    get_current_timestamp_micros, uuid_uuid4, Faker.iso8601, Faker.uuid4 in H.
  bind_inv H cfg s1 Eq1. injection Eq1 as <- <-.
  bind_inv H et s2 Eq2. apply weighted_choice_In in Eq2.
  destruct Eq2 as [Het ->].
  bind_inv H det s3 Eq3. apply event_details_obj_moves in Eq3.
  destruct Eq3 as [n3 ->].
  bind_inv H m s4 Eq4. bind_inv Eq4 hour s5 Eq5.
  apply (preserves_get_current_hour only_rng_moves only_rng_moves_refl
           only_rng_moves_trans) in Eq5.
  destruct Eq5 as [n5 ->].
  unfold lift in Eq4. injection Eq4 as Em <-.
  bind_inv H ts s6 Eq6. injection Eq6 as <- <-.
  bind_inv H eid s7 Eq7.
  apply (preserves_token only_rng_moves only_rng_moves_refl
           only_rng_moves_trans only_rng_moves_rng) in Eq7.
  destruct Eq7 as [n7 ->].
  bind_inv H ets s8 Eq8.
  apply (preserves_token only_rng_moves only_rng_moves_refl
           only_rng_moves_trans only_rng_moves_rng) in Eq8.
  destruct Eq8 as [n8 ->].
  bind_inv H uid s9 Eq9.
  apply (preserves_token only_rng_moves only_rng_moves_refl
           only_rng_moves_trans only_rng_moves_rng) in Eq9.
  destruct Eq9 as [n9 ->].
  bind_inv H sid s10 Eq10.
  apply (preserves_token only_rng_moves only_rng_moves_refl
           only_rng_moves_trans only_rng_moves_rng) in Eq10.
  destruct Eq10 as [n10 ->].
  bind_inv H aid s11 Eq11.
  pose proof (gen_app_id_rule _ _ _ Eq11) as Haid.
  bind_inv H dt s12 Eq12. apply weighted_choice_In in Eq12.
  destruct Eq12 as [Hdt _].
  bind_inv H osv s13 Eq13.
  pose proof (gen_os_version_rule _ _ _ Eq13) as Hosv.
  bind_inv H cc s14 Eq14. apply weighted_choice_In in Eq14.
  destruct Eq14 as [Hcc _].
  injection H as <- _. cbn.
  split.
  { destruct (simple_modulate_keys ML _ _ _ _ _ Em cc Hcc) as [[] | Hin].
    unfold Poisson.country_distribution_of. exact Hin. }
  repeat (split; [assumption || reflexivity |]).
  exact Hmove.
Qed.

(** One event of the simple variant on the example state. *)
Lemma simple_event_attributes_witness :
  exists e n,
    Simple.generate_event (ML:=Example.rational_math) Example.started
    = (Ok e, with_rng_pos n Example.started) /\
    In (country_code e)
       (keys (Poisson.country_distribution_of (config Example.started))) /\
    app_id_rule (app_id e) /\ os_version_rule (os_version e).
Proof.
  destruct (Simple.generate_event (ML:=Example.rational_math)
              Example.started) as [r s'] eqn:E.
  assert (Hr : exists e, r = Ok e).
  { change r with (fst (r, s')). rewrite <- E.
    vm_compute. eexists. reflexivity. }
  destruct Hr as [e ->].
  destruct (simple_event_attributes _ _ _ _ E)
    as (Hc & _ & _ & Ha & Ho & _ & n & ->).
  exists e, n.
  exact (conj eq_refl (conj Hc (conj Ha Ho))).
Defined.

(** ** Start-up, step by step *)

Lemma startup_unfold {RD : Rounding} (s : State) :
  Poisson.startup s =
  match for_each (keys (Poisson.country_distribution_of (config s)))
          (Poisson.init_country (population_fraction (config s))
             (replicas_factor (config s))
             (interactions_per_second (config s))) (zeroed s) with
  | (Ok _, s1) => (Ok tt, resumed s1)
  | (Raise e, s1) => (Raise e, s1)
  end.
Proof.
  unfold Poisson.startup.
  unfold bind at 1. unfold gets at 1.
  unfold bind at 1. unfold modify at 1.
  unfold bind at 1.
  change (with_config _ s) with (zeroed s).
  change (for_each _ _ (zeroed s))
    with (for_each (keys (Poisson.country_distribution_of (config s)))
            (Poisson.init_country (population_fraction (config s))
               (replicas_factor (config s))
               (interactions_per_second (config s))) (zeroed s)).
  destruct (for_each _ _ (zeroed s)) as [[[] | e] s1]; reflexivity.
Qed.

Lemma zeroed_distribution s :
  Poisson.country_distribution_of (config (zeroed s))
  = Poisson.country_distribution_of (config s).
Proof.
  unfold zeroed, Poisson.country_distribution_of, Poisson.assign_modulated.
  cbn [config with_config].
  destruct (country_infos (config s)) as [ci |] eqn:Eci;
    [reflexivity | rewrite Eci; reflexivity].
Qed.


(** X7: with [gke_replicas_factor] equal to zero and a country
    distribution that is not empty, [main] stops with
    [ZeroDivisionError] on the first country: no user has been created,
    nothing has been published, and clock and rate bound are still
    zero. *)
Theorem startup_zero_replicas {RD : Rounding} (ML : MathLib Q) (stream : nat -> N)
  (micros hour minute : Z) (c0 c : Config) (n : nat) (k : string) (w : Q)
  (rest : dict Q) :
  Poisson.falsy (gcp_project_id c) = false ->
  Poisson.falsy (pubsub_topic_name c) = false ->
  Poisson.country_distribution_of c = (k, w) :: rest ->
  replicas_factor c == 0 ->
  exists s',
    Poisson.main (Poisson.Parsed c) n
                 (Poisson.module_state stream micros hour minute c0)
    = (Raise ZeroDivisionError, s') /\
    USERS_BY_COUNTRY s' = [] /\ trace s' = [] /\
    GLOBAL_TIMESTAMP_MICROS s' = 0%Z /\ GLOBAL_RATE_MAXIMUM s' = 0.
Proof.
  intros Hp Ht Hd Hr.
  unfold Poisson.main. unfold bind at 1. unfold modify at 1.
  rewrite Hp, Ht. cbn [orb].
  set (s0 := with_config c (Poisson.module_state stream micros hour minute c0)).
  assert (Es : exists s', Poisson.startup s0 = (Raise ZeroDivisionError, s') /\
             USERS_BY_COUNTRY s' = [] /\ trace s' = [] /\
             GLOBAL_TIMESTAMP_MICROS s' = 0%Z /\ GLOBAL_RATE_MAXIMUM s' = 0).
  { rewrite startup_unfold.
    change (config s0) with c. rewrite Hd.
    cbn [keys map fst for_each].
    unfold bind at 1. unfold Poisson.init_country at 1.
    unfold bind at 1. unfold gets at 1.
    rewrite zeroed_distribution. change (config s0) with c. rewrite Hd.
    assert (Hg : getitem ((k, w) :: rest) k = Ok w).
    { unfold getitem. cbn [get]. rewrite String.eqb_refl. reflexivity. }
    rewrite Hg.
    unfold bind at 1. unfold lift at 1.
    unfold bind at 1. unfold lift at 1.
    unfold truediv. apply Qeq_bool_iff in Hr. rewrite Hr.
    eexists. split; [reflexivity |]. repeat split. }
  destruct Es as (s' & E & H).
  exists s'. split; [| exact H].
  unfold bind. rewrite E. reflexivity.
Qed.

(** The example configuration with a replica factor of zero. *)
Lemma startup_zero_replicas_witness :
  exists s',
    Poisson.main (ML:=Example.rational_math)
      (Poisson.Parsed
         {| gcp_project_id := gcp_project_id Example.cfg;
            pubsub_topic_name := pubsub_topic_name Example.cfg;
            event_type_distribution := event_type_distribution Example.cfg;
            device_type_distribution := device_type_distribution Example.cfg;
            country_infos := country_infos Example.cfg;
            generation_rate := generation_rate Example.cfg;
            simulation_parameters :=
              {| users_population_fraction := Some (1 # 1000);
                 gke_replicas_factor := Some 0;
                 user_interactions_per_day := Some 57 |} |})
      3 Example.loaded
    = (Raise ZeroDivisionError, s') /\ trace s' = [].
Proof.
  destruct (startup_zero_replicas Example.rational_math Example.stream
              1000 10 30 Example.cfg
              {| gcp_project_id := gcp_project_id Example.cfg;
                 pubsub_topic_name := pubsub_topic_name Example.cfg;
                 event_type_distribution := event_type_distribution Example.cfg;
                 device_type_distribution :=
                   device_type_distribution Example.cfg;
                 country_infos := country_infos Example.cfg;
                 generation_rate := generation_rate Example.cfg;
                 simulation_parameters :=
                   {| users_population_fraction := Some (1 # 1000);
                      gke_replicas_factor := Some 0;
                      user_interactions_per_day := Some 57 |} |}
              3 "US"%string 300000
              [("IR", 80000); ("XX", 1 # 1000)]%string)
    as (s' & E & _ & Htr & _).
  - reflexivity.
  - reflexivity.
  - reflexivity.
  - reflexivity.
  - exists s'. split; [exact E | exact Htr].
Defined.


Lemma get_cons {V} (k' : string) (v' : V) r k :
  get ((k', v') :: r) k = if String.eqb k k' then Some v' else get r k.
Proof. reflexivity. Qed.






(** ** Ready states: turns that cannot fail *)

Lemma bind_run {A B} (m : M A) (k : A -> M B) s a s1 r :
  m s = (Ok a, s1) -> k a s1 = r -> bind m k s = r.
Proof. unfold bind. intros -> <-. reflexivity. Qed.

Ltac step E := eapply bind_run; [exact E | cbv beta].
Ltac step_refl := eapply bind_run; [reflexivity | cbv beta].

Lemma In_set {V} (d : dict V) k v kv :
  In kv (set d k v) -> kv = (k, v) \/ In kv d.
Proof.
  induction d as [| [k' v'] d IH]; cbn [set].
  - intros [<- | []]. left. reflexivity.
  - destruct (String.eqb k k').
    + intros [<- | H]; [left; reflexivity | right; right; exact H].
    + intros [<- | H]; [right; left; reflexivity |].
      destruct (IH H) as [-> | H']; [left; reflexivity | right; right; exact H'].
Qed.

Lemma In_set_same {V} (d : dict V) k v : In (k, v) (set d k v).
Proof.
  induction d as [| [k' v'] d IH]; cbn [set].
  - left. reflexivity.
  - destruct (String.eqb k k'); [left; reflexivity | right; exact IH].
Qed.

Lemma token_run prefix s :
  exists t, Faker.token prefix s = (Ok t, with_rng_pos (S (rng_pos s)) s).
Proof. eexists. reflexivity. Qed.

Lemma gen_app_id_run s :
  exists a, gen_app_id s = (Ok a, with_rng_pos (S (rng_pos s)) s).
Proof.
  destruct (randint_run 1000 9999 s ltac:(lia)) as (k & E & _).
  eexists. unfold gen_app_id. step E. reflexivity.
Qed.

Lemma gen_os_version_run s :
  exists v, gen_os_version s = (Ok v, with_rng_pos (3 + rng_pos s) s).
Proof.
  destruct (choice_run ["iOS"; "Android"]%string s ltac:(discriminate))
    as (os & Eos & _).
  destruct (randint_run 12 15 (with_rng_pos (S (rng_pos s)) s) ltac:(lia))
    as (major & Emaj & _).
  destruct (randint_run 0 5
              (with_rng_pos (S (S (rng_pos s))) s) ltac:(lia))
    as (minor & Emin & _).
  eexists. unfold gen_os_version. step Eos. step Emaj. step Emin. reflexivity.
Qed.

Lemma event_details_obj_run t s :
  exists det n, event_details_obj t s = (Ok det, with_rng_pos n s).
Proof.
  unfold event_details_obj.
  destruct (t =? "search")%string.
  { destruct (token_run "bs-" s) as (q & E). do 2 eexists.
    unfold Faker.bs. step E. reflexivity. }
  destruct (t =? "review_submit")%string.
  { destruct (randint_run 1 5 s ltac:(lia)) as (k & E & _). do 2 eexists.
    step E. reflexivity. }
  destruct (t =? "in_app_purchase")%string.
  { destruct (randint_run 100 999 s ltac:(lia)) as (k & E & _).
    destruct (uniform_run (99 # 100) (9999 # 100)
                (with_rng_pos (S (rng_pos s)) s) ltac:(lra)) as (p & Ep & _).
    do 2 eexists. step E. step Ep. reflexivity. }
  exists [], (rng_pos s). unfold ret. destruct s; reflexivity.
Qed.

Lemma weight_at_nth_error (d : dict Q) i label w :
  nth_error d i = Some (label, w) -> weight_at (values d) i = w.
Proof.
  intros En. destruct (nth_error_keys_values d i label w En) as [_ Hv].
  unfold weight_at. apply nth_error_nth. exact Hv.
Qed.

(** Sampling of the attributes succeeds when the refreshed weights are
    not negative, have a positive total, and lead to countries with
    users. *)
Lemma sample_event_total (m : dict Q) (s : State) :
  0 < total_weight (values m) ->
  (forall kv, In kv m -> entry_ok s kv) ->
  0 < total_weight
        (values (get_default (event_type_distribution (config s)) [])) ->
  0 < total_weight
        (values (get_default (device_type_distribution (config s)) [])) ->
  exists e n, sample_event m s = (Ok (Some e), with_rng_pos n s).
Proof.
  intros Hpos Hok Het Hdt.
  destruct (weighted_choice_run m s Hpos) as (cc & w & En & Ecc).
  assert (Hw : 0 < w).
  { rewrite <- (weight_at_nth_error m _ cc w En).
    destruct (uniform_at_range s (rng_pos s)) as [Hu0 Hu1].
    apply chosen_weight_positive; try assumption.
    intros v Hv. unfold values in Hv. apply in_map_iff in Hv.
    destruct Hv as (kv & <- & Hkv). apply (Hok kv Hkv). }
  destruct (Hok (cc, w) (nth_error_In _ _ En)) as [_ Husers].
  destruct (Husers Hw) as (pool & Hpool & Hne). cbn [fst] in Hpool.
  set (s1 := with_rng_pos (S (rng_pos s)) s) in *.
  destruct (choice_run pool s1 Hne) as (uid & Euid & _).
  set (s2 := with_rng_pos (S (rng_pos s1)) s1) in *.
  destruct (weighted_choice_run
              (get_default (event_type_distribution (config s)) []) s2 Het)
    as (et & _ & _ & Eet).
  set (s3 := with_rng_pos (S (rng_pos s2)) s2) in *.
  destruct (event_details_obj_run et s3) as (det & n4 & Edet).
  set (s4 := with_rng_pos n4 s3) in *.
  destruct (token_run "uuid-" s4) as (eid & Eeid).
  set (s5 := with_rng_pos (S (rng_pos s4)) s4) in *.
  destruct (token_run "uuid-" s5) as (sid & Esid).
  set (s6 := with_rng_pos (S (rng_pos s5)) s5) in *.
  destruct (gen_app_id_run s6) as (aid & Eaid).
  set (s7 := with_rng_pos (S (rng_pos s6)) s6) in *.
  destruct (weighted_choice_run
              (get_default (device_type_distribution (config s)) []) s7 Hdt)
    as (dt & _ & _ & Edt).
  set (s8 := with_rng_pos (S (rng_pos s7)) s7) in *.
  destruct (gen_os_version_run s8) as (osv & Eosv).
  eexists. exists (3 + rng_pos s8)%nat.
  unfold sample_event, get_current_timestamp_micros, uuid_uuid4, Faker.uuid4.
  step Ecc. step_refl.
  eapply bind_run.
  { unfold lift, getitem. change (USERS_BY_COUNTRY s1) with (USERS_BY_COUNTRY s).
    rewrite Hpool. reflexivity. }
  cbv beta.
  step Euid. step_refl. step Eet. step Edet. step_refl. step Eeid. step_refl.
  step Esid. step Eaid. step Edt. step Eosv. reflexivity.
Qed.

Lemma sample_event_not_None m s r s' :
  sample_event m s = (Ok r, s') -> r <> None.
Proof.
  unfold sample_event. intros H. peel H. injection H as <- _. discriminate.
Qed.

(** The refresh loop on a distribution whose countries all have a
    timezone. *)
Lemma poisson_modulate_total tz hour : forall items acc,
  (forall c w, In (c, w) items -> In c (keys tz)) ->
  exists m sum,
    Poisson.modulate tz hour items acc = (Ok tt, (m, sum)) /\
    (forall kv, In kv m ->
       In kv (fst acc) \/
       exists w f, In (fst kv, w) items /\ snd kv = w * f /\
                   (3 # 100) <= f /\ f <= 1) /\
    (items <> [] ->
       exists c w f, In (c, w) items /\ In (c, w * f) m /\ (3 # 100) <= f) /\
    ((forall c w, In (c, w) items -> 0 <= w) ->
       snd acc + (3 # 100) * total_weight (values items) <= sum).
Proof.
  induction items as [| [c w] rest IH]; intros acc Htz.
  - exists (fst acc), (snd acc). destruct acc as [m0 sum0]. cbn.
    split; [reflexivity |]. split; [intros kv H; left; exact H |].
    split; [congruence |]. intros _. unfold total_weight. cbn. lra.
  - destruct (In_get_Some tz c (Htz c w (or_introl eq_refl))) as [offset Hoff].
    destruct (exact_pattern_total (fl (hour + offset))) as (i & f & _ & _ & _ & Hf).
    destruct (exact_pattern_bounds _ _ Hf) as [Hf0 Hf1].
    destruct (IH (set (fst acc) c (w * f),
                  snd acc + get_default (get (set (fst acc) c (w * f)) c) 0)
                 (fun c' w' H => Htz c' w' (or_intror H)))
      as (m & sum & E & Hent & Hex & Hsum).
    exists m, sum. split.
    { cbn [Poisson.modulate]. unfold getitem. rewrite Hoff, Hf. exact E. }
    cbn [fst snd] in *. rewrite get_set_same in Hsum. cbn [get_default] in Hsum.
    split; [| split].
    + intros kv Hkv. destruct (Hent kv Hkv) as [Hin | (w' & f' & Hin & Hv & Hb)].
      * apply In_set in Hin. destruct Hin as [-> | Hin]; [| left; exact Hin].
        right. exists w, f. cbn. split; [left; reflexivity |].
        split; [reflexivity | split; assumption].
      * right. exists w', f'. split; [right; exact Hin |]. split; assumption.
    + intros _. destruct rest as [| kv rest'].
      * injection E as <- _. exists c, w, f.
        split; [left; reflexivity |]. split; [apply In_set_same | exact Hf0].
      * destruct (Hex ltac:(discriminate)) as (c' & w' & f' & Hin & Hm & Hb).
        exists c', w', f'. split; [right; exact Hin |]. split; assumption.
    + intros Hnn. cbn [values map snd]. rewrite total_weight_cons.
      assert (Hw : 0 <= w) by (apply (Hnn c w); left; reflexivity).
      specialize (Hsum (fun c' w' H => Hnn c' w' (or_intror H))).
      fold (values rest). nra.
Qed.

Lemma total_weight_nonneg ws :
  (forall w, In w ws -> 0 <= w) -> 0 <= total_weight ws.
Proof.
  induction ws as [| x r IH]; intros H.
  - unfold total_weight. cbn. lra.
  - rewrite total_weight_cons.
    assert (0 <= x) by (apply H; left; reflexivity).
    assert (0 <= total_weight r) by (apply IH; intros; apply H; right; assumption).
    lra.
Qed.

Lemma total_weight_positive ws x :
  (forall w, In w ws -> 0 <= w) -> In x ws -> 0 < x -> 0 < total_weight ws.
Proof.
  induction ws as [| y r IH]; intros H Hin Hx; [destruct Hin |].
  rewrite total_weight_cons.
  assert (Hy : 0 <= y) by (apply H; left; reflexivity).
  assert (Hr : 0 <= total_weight r)
    by (apply total_weight_nonneg; intros; apply H; right; assumption).
  destruct Hin as [-> | Hin]; [lra |].
  assert (0 < total_weight r)
    by (apply IH; [intros; apply H; right; assumption | exact Hin | exact Hx]).
  lra.
Qed.

Lemma mutate_modulated_parts m c :
  Poisson.country_distribution_of (Poisson.mutate_modulated m c)
  = Poisson.country_distribution_of c /\
  Poisson.country_timezone_of (Poisson.mutate_modulated m c)
  = Poisson.country_timezone_of c /\
  generation_rate (Poisson.mutate_modulated m c) = generation_rate c /\
  (Poisson.country_distribution_modulated_of (Poisson.mutate_modulated m c) = m
   \/ Poisson.country_distribution_modulated_of (Poisson.mutate_modulated m c)
      = Poisson.country_distribution_modulated_of c).
Proof.
  unfold Poisson.mutate_modulated, Poisson.country_distribution_of,
    Poisson.country_timezone_of, Poisson.country_distribution_modulated_of.
  destruct (country_infos c) as [ci |] eqn:Eci.
  - destruct (distribution_modulated ci) eqn:Edm.
    + cbn. repeat split. left. reflexivity.
    + rewrite Eci, ?Edm. repeat split. right. reflexivity.
  - rewrite Eci. repeat split. right. reflexivity.
Qed.

(** What a refresh of the modulated weights yields in a ready state. *)
Lemma refresh_ready (s : State) :
  ready s ->
  exists m sum,
    Poisson.generate_time_modulated_weights s
    = (Ok (m, sum), with_config (Poisson.mutate_modulated m (config s)) s) /\
    0 < total_weight (values m) /\
    (forall kv, In kv m -> entry_ok s kv) /\
    (3 # 100) * total_weight (values (Poisson.country_distribution_of (config s)))
    <= sum.
Proof.
  intros (Hrate & Het & Hdt & Hne & Hdist & Hmod).
  destruct (poisson_modulate_total (Poisson.country_timezone_of (config s))
              (fl (Py.round (GLOBAL_TIMESTAMP_HOUR s) 2))
              (Poisson.country_distribution_of (config s))
              (Poisson.country_distribution_modulated_of (config s), 0)
              (fun c w H => proj1 (proj2 (Hdist c w H))))
    as (m & sum & E & Hent & Hex & Hsum).
  assert (Hok : forall kv, In kv m -> entry_ok s kv).
  { intros kv Hkv. destruct (Hent kv Hkv) as [Hin | (w & f & Hin & Hv & Hf0 & Hf1)].
    - apply Hmod. exact Hin.
    - destruct (Hdist _ _ Hin) as (Hw & _ & Hu).
      split; [rewrite Hv; nra | intros _; exact Hu]. }
  exists m, sum. split; [| split; [| split]].
  - rewrite generate_time_modulated_weights_unfold, E. reflexivity.
  - destruct (Hex Hne) as (c & w & f & Hin & Hm & Hf0).
    destruct (Hdist _ _ Hin) as (Hw & _).
    apply total_weight_positive with (w * f).
    + intros v Hv. unfold values in Hv. apply in_map_iff in Hv.
      destruct Hv as (kv & <- & Hkv). apply (Hok kv Hkv).
    + unfold values. apply in_map_iff. exists (c, w * f). split; [reflexivity | exact Hm].
    + nra.
  - exact Hok.
  - cbn [snd] in Hsum.
    assert (H0 : forall c w,
               In (c, w) (Poisson.country_distribution_of (config s)) -> 0 <= w).
    { intros c w H. destruct (Hdist c w H) as (Hw & _). lra. }
    specialize (Hsum H0). lra.
Qed.

(** Readiness only depends on the configuration apart from the modulated
    weights, on the user pools and on the rate bound. *)
Lemma ready_after (s s' : State) (m : dict Q) :
  ready s ->
  config s' = Poisson.mutate_modulated m (config s) ->
  USERS_BY_COUNTRY s' = USERS_BY_COUNTRY s ->
  GLOBAL_RATE_MAXIMUM s' = GLOBAL_RATE_MAXIMUM s ->
  (forall kv, In kv m -> entry_ok s kv) ->
  ready s'.
Proof.
  intros (Hrate & Het & Hdt & Hne & Hdist & Hmod) Hc Hu Hr Hm.
  destruct (mutate_modulated_parts m (config s)) as (Kd & Kt & _ & Km).
  destruct (mutate_modulated_event_type m (config s)) as [Ke Kdv].
  unfold ready, entry_ok, has_users. rewrite Hc, Hu, Hr, Kd, Kt, Ke, Kdv.
  repeat (split; [assumption |]).
  destruct Km as [-> | ->]; assumption.
Qed.

Lemma saturated_after (s s' : State) (m : dict Q) :
  saturated s ->
  config s' = Poisson.mutate_modulated m (config s) ->
  GLOBAL_RATE_MAXIMUM s' = GLOBAL_RATE_MAXIMUM s ->
  saturated s'.
Proof.
  unfold saturated. intros H Hc Hr.
  destruct (mutate_modulated_parts m (config s)) as (Kd & _).
  rewrite Hc, Hr, Kd. exact H.
Qed.

Lemma poisson_pace_run base_rate randomness s :
  exists d n,
    Poisson.pace base_rate randomness s
    = (Ok tt, with_trace (Sleep d :: trace s) (with_rng_pos n s)).
Proof.
  unfold Poisson.pace. destruct (Qlt_le_dec 0 base_rate).
  - do 2 eexists. reflexivity.
  - exists (225 # 100000), (rng_pos s). unfold time_sleep, modify.
    destruct s; reflexivity.
Qed.

(** One turn of the delivery loop in a ready state. *)
Lemma ready_turn (ML : MathLib Q) (topic : string) (s : State) :
  ready s ->
  exists s',
    Poisson.loop_iteration topic s = (Ok tt, s') /\
    ready s' /\
    (saturated s -> saturated s') /\
    (trace s' = trace s \/
     exists e d, trace s' = Sleep d :: Publish topic e :: trace s) /\
    (saturated s ->
     exists e d, trace s' = Sleep d :: Publish topic e :: trace s).
Proof.
  intros Hready.
  assert (Hrate : 0 < GLOBAL_RATE_MAXIMUM s) by apply Hready.
  assert (Hnz : ~ GLOBAL_RATE_MAXIMUM s == 0) by lra.
  set (s1 := advance (gap ML s) (with_rng_pos (S (rng_pos s)) s)).
  assert (Hready1 : ready s1) by exact Hready.
  destruct (refresh_ready s1 Hready1) as (m & sum & Egen & Hpos & Hok & Hsum).
  change (config s1) with (config s) in *.
  set (s2 := with_config (Poisson.mutate_modulated m (config s)) s1) in *.
  pose proof (thinning_step_run (GLOBAL_RATE_MAXIMUM s) s1 m sum s2 Hnz Egen)
    as Ethin.
  change (rng_pos s1) with (S (rng_pos s)) in Ethin.
  set (s3 := with_rng_pos (S (S (rng_pos s))) s2) in *.
  set (u := uniform_at s1 (S (rng_pos s))) in *.
  assert (Egen_ev : Poisson.generate_event s
                    = (if Qlt_le_dec (sum / GLOBAL_RATE_MAXIMUM s) u
                       then ret None else sample_event m) s3).
  { rewrite (generate_event_after_gap ML s Hnz). exact Ethin. }
  assert (Hok1 : forall kv, In kv m -> entry_ok s kv) by exact Hok.
  assert (Hsat : saturated s -> u <= sum / GLOBAL_RATE_MAXIMUM s).
  { intros Hs. unfold saturated in Hs.
    destruct (uniform_at_range s1 (S (rng_pos s))) as [_ Hu1]. fold u in Hu1.
    apply Qle_shift_div_l; [exact Hrate |]. nra. }
  unfold Poisson.loop_iteration.
  destruct (Qlt_le_dec (sum / GLOBAL_RATE_MAXIMUM s) u) as [Hrej | Hacc].
  - exists s3. split.
    { step_refl. step Egen_ev. reflexivity. }
    split; [apply (ready_after s s3 m Hready); auto; reflexivity |].
    split; [intros Hs; apply (saturated_after s s3 m Hs); reflexivity |].
    split; [left; reflexivity |].
    intros Hs. specialize (Hsat Hs). lra.
  - destruct (sample_event_total m s3 Hpos Hok
                ltac:(destruct (mutate_modulated_event_type m (config s)) as [K _];
                      change (config s3) with (Poisson.mutate_modulated m (config s));
                      rewrite K; apply Hready)
                ltac:(destruct (mutate_modulated_event_type m (config s)) as [_ K];
                      change (config s3) with (Poisson.mutate_modulated m (config s));
                      rewrite K; apply Hready))
      as (e & n & Esample).
    set (s4 := with_rng_pos n s3) in *.
    rewrite Esample in Egen_ev.
    set (s5 := with_trace (Publish topic e :: trace s4) s4).
    destruct (poisson_pace_run
                (get_default (events_per_second (generation_rate (config s))) 0)
                (get_default (randomness_factor (generation_rate (config s)))
                             (1 # 10)) s5) as (d & n' & Epace).
    eexists. split.
    { step_refl. step Egen_ev. eapply bind_run; [reflexivity |]. exact Epace. }
    split; [apply (ready_after s _ m Hready); auto; reflexivity |].
    split; [intros Hs; apply (saturated_after s _ m Hs); reflexivity |].
    assert (Htr : exists e0 d0,
              trace (with_trace (Sleep d :: trace s5) (with_rng_pos n' s5))
              = Sleep d0 :: Publish topic e0 :: trace s).
    { exists e, d. reflexivity. }
    split; [right; exact Htr | intros _; exact Htr].
Qed.

(** The state in which the delivery loop of the example run starts is
    ready and saturated. *)
Lemma example_ready : ready Example.started /\ saturated Example.started.
Proof.
  assert (Ed : Poisson.country_distribution_of (config Example.started)
               = [("US", 300000); ("IR", 80000)]%string)
    by (vm_compute; reflexivity).
  assert (Etz : Poisson.country_timezone_of (config Example.started)
                = [("US", - (5)); ("IR", 7 # 2); ("XX", 0)]%string)
    by (vm_compute; reflexivity).
  assert (Em : Poisson.country_distribution_modulated_of (config Example.started)
               = [("US", 0); ("IR", 0); ("XX", 0)]%string)
    by (vm_compute; reflexivity).
  assert (Hus : has_users Example.started "US").
  { exists (get_default (get (USERS_BY_COUNTRY Example.started) "US") []).
    split; vm_compute; [reflexivity | discriminate]. }
  assert (Hir : has_users Example.started "IR").
  { exists (get_default (get (USERS_BY_COUNTRY Example.started) "IR") []).
    split; vm_compute; [reflexivity | discriminate]. }
  split.
  - unfold ready. rewrite Ed, Etz, Em.
    split; [vm_compute; reflexivity |].
    split; [vm_compute; reflexivity |].
    split; [vm_compute; reflexivity |].
    split; [discriminate |]. split.
    + intros c w [H | [H | []]]; injection H as <- <-;
        (split; [reflexivity | split; [cbn; tauto | assumption]]).
    + intros kv [<- | [<- | [<- | []]]]; split;
        try (intros H; discriminate H); discriminate.
  - unfold saturated. rewrite Ed. vm_compute. discriminate.
Qed.

(** X8: in a ready state (positive rate bound; positive base weights;
    every country of the distribution with a timezone entry and a
    non-empty user pool; leftover modulated weights that are zero or
    belong to such a country; event-type and device-type weights of
    positive total), on exact numbers, no turn of the delivery loop
    raises, however many turns are run. *)
Theorem delivery_loop_never_raises (ML : MathLib Q) (topic : string)
  (s : State) :
  ready s -> forall n, turns_return ML n topic s.
Proof.
  intros H n. revert s H. induction n as [| n IH]; intros s H; [exact I |].
  destruct (ready_turn ML topic s H) as (s' & E & H' & _).
  exists s'. split; [exact E | apply IH; exact H'].
Qed.

(** Three turns of the example run. *)
Lemma delivery_loop_never_raises_witness :
  turns_return Example.rational_math 3 "t" Example.started.
Proof.
  exact (delivery_loop_never_raises Example.rational_math "t"%string
           Example.started (proj1 example_ready) 3).
Defined.

(** X9: on exact numbers (floats that do not round; with the rounding
    of binary64 a turn can raise [IndexError] in the table look-up, see
    C10), when, in a ready state, the rate bound is at most 0.03 times
    the total base weight, the acceptance test of the thinning step never
    rejects: [n] turns of the delivery loop publish [n] events. *)
Theorem saturated_loop_publishes_every_turn (ML : MathLib Q) (topic : string)
  (s : State) :
  ready s -> saturated s ->
  forall n, exists s',
    Poisson.run (RD:=exact) n topic s = (Ok tt, s') /\
    published (trace s') = (n + published (trace s))%nat.
Proof.
  intros H Hs n. revert s H Hs.
  induction n as [| n IH]; intros s H Hs.
  - exists s. split; reflexivity.
  - destruct (ready_turn ML topic s H) as (s1 & E & H1 & Hs1 & _ & Hpub).
    destruct (Hpub Hs) as (e & d & Htr).
    destruct (IH s1 H1 (Hs1 Hs)) as (s' & Erun & Hcount).
    exists s'. split.
    + cbn [Poisson.run]. rewrite E. exact Erun.
    + rewrite Hcount, Htr. cbn [published]. lia.
Qed.

(** Three turns of the example run publish three events. *)
Lemma saturated_loop_publishes_every_turn_witness :
  exists s',
    Poisson.run (RD:=exact) (ML:=Example.rational_math) 3 "t"
      Example.started
    = (Ok tt, s') /\
    published (trace s') = (3 + published (trace Example.started))%nat.
Proof.
  exact (saturated_loop_publishes_every_turn Example.rational_math "t"%string
           Example.started (proj1 example_ready) (proj2 example_ready) 3).
Defined.

(** ** Start-up reaches a ready state *)






Lemma In_get_NoDup {V} (d : dict V) k v :
  NoDup (keys d) -> In (k, v) d -> get d k = Some v.
Proof.
  induction d as [| [k' v'] d IH]; intros Hnd Hin; [destruct Hin |].
  rewrite get_cons. inversion Hnd as [| ? ? Hk Hnd']; subst.
  destruct Hin as [Heq | Hin].
  - injection Heq as -> ->. rewrite String.eqb_refl. reflexivity.
  - destruct (String.eqb_spec k k') as [-> | _]; [| apply IH; assumption].
    exfalso. apply Hk. unfold keys. apply in_map_iff.
    exists (k', v). split; [reflexivity | exact Hin].
Qed.










(** ** A country without a timezone entry *)





(** ** The two clocks *)




(** ** A rate bound of zero *)





(** ** Start-up: what is left of the distribution, and the rate bound *)



(** ** Bounds on the modulated weights *)

Lemma total_weight_pointwise (g h : string * Q -> Q) : forall d : dict Q,
  (forall kv, In kv d -> g kv <= h kv) ->
  total_weight (map g d) <= total_weight (map h d).
Proof.
  induction d as [| kv d IH]; intros H.
  - apply Qle_refl.
  - cbn [map]. rewrite !total_weight_cons.
    assert (g kv <= h kv) by (apply H; left; reflexivity).
    assert (total_weight (map g d) <= total_weight (map h d))
      by (apply IH; intros; apply H; right; assumption).
    lra.
Qed.

Lemma total_weight_scale (a : Q) : forall ws,
  total_weight (map (Qmult a) ws) == a * total_weight ws.
Proof.
  induction ws as [| w ws IH].
  - unfold total_weight. cbn. ring.
  - cbn [map]. rewrite !total_weight_cons, IH. ring.
Qed.

(** X15: on exact numbers (floats that do not round; with the rounding
    of binary64 the table look-up of the refresh can raise [IndexError],
    see C10), on a distribution of distinct countries with non-negative
    weights and timezone entries, the refresh of the Poisson variant
    returns normally, gives every country a weight between 3% and 100% of
    its base weight, and returns a sum between 3% and 100% of the total
    base weight. *)
Theorem modulated_weights_bounded (s : State) :
  let dist := Poisson.country_distribution_of (config s) in
  let tz := Poisson.country_timezone_of (config s) in
  NoDup (keys dist) ->
  (forall c, In c (keys dist) -> In c (keys tz)) ->
  (forall c w, In (c, w) dist -> 0 <= w) ->
  exists m sum s',
    Poisson.generate_time_modulated_weights (RD:=exact) s
    = (Ok (m, sum), s') /\
    (forall c w, In (c, w) dist ->
       exists v, get m c = Some v /\ (3 # 100) * w <= v /\ v <= w) /\
    (3 # 100) * total_weight (values dist) <= sum /\
    sum <= total_weight (values dist).
Proof.
  intros dist tz Hnd Htz Hnn.
  destruct (modulate_run (RD:=exact) tz
              (fl (Py.round (GLOBAL_TIMESTAMP_HOUR s) 2)) dist
              (Poisson.country_distribution_modulated_of (config s), 0)
              Hnd Htz (exact_lookups _ _ _))
    as (m & sum & E & Hent & _ & Hsum0).
  assert (Hsum : sum == 0 + total_weight (modulated_weights m (keys dist))).
  { rewrite Hsum0. unfold float_sum_from. cbn [snd].
    change (fun acc w : Q => fl (acc + w)) with Qplus.
    apply fold_left_Qplus_shift. }
  clear Hsum0.
  assert (Hv : forall c w, In (c, w) dist ->
             exists v, get m c = Some v /\ (3 # 100) * w <= v /\ v <= w).
  { intros c w Hin.
    destruct (Hent c w (In_get_NoDup dist c w Hnd Hin))
      as (offset & f & _ & Hf & Hm).
    destruct (exact_pattern_bounds _ _ Hf) as [Hf0 Hf1].
    specialize (Hnn c w Hin).
    exists (w * f). split; [exact Hm |]. split; nra. }
  exists m, sum, (with_config (Poisson.mutate_modulated m (config s)) s).
  split.
  { rewrite generate_time_modulated_weights_unfold. fold dist tz.
    rewrite E. reflexivity. }
  split; [exact Hv |].
  rewrite Hsum.
  unfold modulated_weights, keys. rewrite map_map.
  split.
  - rewrite <- (total_weight_scale (3 # 100) (values dist)).
    unfold values. rewrite map_map. rewrite Qplus_0_l.
    apply total_weight_pointwise. intros [c w] Hin. cbn [fst snd].
    destruct (Hv c w Hin) as (v & -> & Hlo & _). exact Hlo.
  - rewrite Qplus_0_l. unfold values.
    apply total_weight_pointwise. intros [c w] Hin. cbn [fst snd].
    destruct (Hv c w Hin) as (v & -> & _ & Hhi). exact Hhi.
Qed.

(** The first refresh of the example run. *)
Lemma modulated_weights_bounded_witness :
  exists m sum s',
    Poisson.generate_time_modulated_weights (RD:=exact) Example.started
    = (Ok (m, sum), s') /\
    (3 # 100) * 380000 <= sum /\ sum <= 380000.
Proof.
  destruct (modulated_weights_bounded Example.started)
    as (m & sum & s' & E & _ & Hlo & Hhi).
  - vm_compute. repeat constructor; cbn; intuition discriminate.
  - vm_compute. tauto.
  - vm_compute. intros c w [H | [H | []]]; injection H as _ <-; discriminate.
  - exists m, sum, s'. split; [exact E |].
    assert (ET : total_weight
                   (values (Poisson.country_distribution_of
                              (config Example.started))) == 380000)
      by (vm_compute; reflexivity).
    rewrite ET in Hlo, Hhi. split; assumption.
Defined.

(** ** The weights of the simple variant *)

(** X16: [generate_time_modulated_weights] of the simple variant builds
    a fresh dictionary: it holds the countries of the distribution and no
    other, each with its base weight times the closed-form factor at the
    wall-clock hour shifted by the country's offset, and the state is left
    as it was. *)
Theorem simple_modulated_weights {RD : Rounding} (ML : MathLib Q)
  (dist tz : dict Q) (s : State) :
  NoDup (keys dist) ->
  (forall c, In c (keys dist) -> In c (keys tz)) ->
  exists hour m,
    get_current_hour s = (Ok hour, s) /\
    Simple.generate_time_modulated_weights dist tz s = (Ok m, s) /\
    (forall c, In c (keys m) -> In c (keys dist)) /\
    (forall c w, get dist c = Some w ->
       exists offset,
         get tz c = Some offset /\
         get m c
         = Some (w * Simple.user_daily_activity_pattern (hour + offset))).
Proof.
  intros Hnd Htz.
  set (hour := fl (inject_Z (wall_hour s)
                   + fl (Py.round (fl (inject_Z (wall_minute s) / 60)) 1))).
  destruct (simple_modulate_run ML tz hour dist [] Hnd Htz)
    as (m & E & Hent & _).
  exists hour, m. split; [reflexivity |]. split.
  - unfold Simple.generate_time_modulated_weights.
    eapply bind_run; [reflexivity |].
    change (lift (Simple.modulate tz hour dist []) s = (Ok m, s)).
    unfold lift. rewrite E. reflexivity.
  - split; [| exact Hent].
    intros c Hc.
    destruct (simple_modulate_keys ML _ _ _ _ _ E c Hc) as [[] | Hin].
    exact Hin.
Qed.

(** One country, five hours behind. *)
Lemma simple_modulated_weights_witness :
  exists hour m,
    get_current_hour Example.loaded = (Ok hour, Example.loaded) /\
    Simple.generate_time_modulated_weights (ML:=Example.rational_math)
      [("US", 300000)]%string [("US", - (5))]%string Example.loaded
    = (Ok m, Example.loaded) /\
    get m "US"
    = Some (300000 * @Simple.user_daily_activity_pattern Q ArithQ
                       Example.rational_math (hour + - (5))).
Proof.
  destruct (simple_modulated_weights Example.rational_math
              [("US", 300000)]%string [("US", - (5))]%string Example.loaded)
    as (hour & m & Eh & Em & _ & Hent).
  - repeat constructor. intros [].
  - intros c H. exact H.
  - destruct (Hent "US"%string 300000 eq_refl) as (offset & Eo & Hm).
    injection Eo as <-.
    exists hour, m. exact (conj Eh (conj Em Hm)).
Defined.

(** ** Events are published in the order of their timestamps *)

Lemma generate_event_stamp {RD : Rounding} (ML : MathLib Q) s e s1 :
  Poisson.generate_event s = (Ok (Some e), s1) ->
  event_timestamp e = JInt (GLOBAL_TIMESTAMP_MICROS s1).
Proof.
  intros H.
  destruct (accepted_event_sampled ML s e s1 H) as (m & s3 & Es & _).
  apply sample_event_attributes in Es.
  destruct Es as (_ & _ & _ & _ & _ & _ & _ & Hts & n & ->).
  exact Hts.
Qed.

Lemma chronological_later (s s1 : State) :
  chronological s ->
  (GLOBAL_TIMESTAMP_MICROS s <= GLOBAL_TIMESTAMP_MICROS s1)%Z ->
  trace s1 = trace s ->
  chronological s1 /\
  Forall (Z.ge (GLOBAL_TIMESTAMP_MICROS s1)) (stamps (trace s)).
Proof.
  unfold chronological. intros H Hle Htr. rewrite Htr.
  apply StronglySorted_inv in H. destruct H as [Hs Hall].
  assert (Hall1 : Forall (Z.ge (GLOBAL_TIMESTAMP_MICROS s1)) (stamps (trace s))).
  { eapply Forall_impl; [| exact Hall]. cbv beta. intros z Hz. lia. }
  split; [constructor; assumption | exact Hall1].
Qed.

Lemma chronological_turn (ML : MathLib Q) (topic : string) :
  (forall u, 0 < u -> u <= 1 -> math_log u <= 0) ->
  forall s r s',
    0 <= GLOBAL_RATE_MAXIMUM s -> chronological s ->
    Poisson.loop_iteration topic s = (r, s') ->
    chronological s' /\ GLOBAL_RATE_MAXIMUM s' = GLOBAL_RATE_MAXIMUM s.
Proof.
  intros Hlog s r s' Hrate Hchr E.
  unfold Poisson.loop_iteration in E.
  unfold bind at 1 in E. unfold gets at 1 in E. unfold bind at 1 in E.
  destruct (Poisson.generate_event s) as [rg s1] eqn:Eg.
  destruct (clock_le_generate_event ML Hlog s rg s1 Eg) as [Hr Hclock].
  destruct (Hclock Hrate) as [Hm _].
  assert (Htr : trace s1 = trace s).
  { refine (preserves_poisson_generate_event same_trace same_trace_refl
              same_trace_trans same_trace_rng same_trace_config ML
              _ s _ _ Eg).
    intros. reflexivity. }
  destruct (chronological_later s s1 Hchr Hm Htr) as [Hchr1 Hall].
  destruct rg as [[e |] | ex].
  - pose proof (generate_event_stamp ML s e s1 Eg) as Hstamp.
    unfold bind at 1 in E. unfold publish at 1, modify at 1 in E.
    set (s5 := with_trace (Publish topic e :: trace s1) s1) in *.
    destruct (poisson_pace_run
                (get_default (events_per_second (generation_rate (config s))) 0)
                (get_default (randomness_factor (generation_rate (config s)))
                             (1 # 10)) s5) as (d & n & Epace).
    rewrite Epace in E. injection E as _ <-.
    split; [| exact Hr].
    unfold chronological.
    cbn [trace with_trace with_rng_pos GLOBAL_TIMESTAMP_MICROS stamps s5].
    rewrite Hstamp, Htr.
    constructor.
    + unfold chronological in Hchr1. rewrite Htr in Hchr1. exact Hchr1.
    + constructor; [lia | exact Hall].
  - injection E as _ <-. split; [exact Hchr1 | exact Hr].
  - injection E as _ <-. split; [exact Hchr1 | exact Hr].
Qed.

(** X17: with a non-negative rate bound (and a logarithm that is not
    positive on (0, 1]), over any number of turns of the delivery loop
    the events are published in the order of their timestamps, and no
    published event is stamped later than the virtual clock stands. *)
Theorem events_published_in_timestamp_order (ML : MathLib Q) (topic : string)
  (s : State) :
  (forall u, 0 < u -> u <= 1 -> math_log u <= 0) ->
  0 <= GLOBAL_RATE_MAXIMUM s ->
  chronological s ->
  forall n r s', Poisson.run n topic s = (r, s') -> chronological s'.
Proof.
  intros Hlog Hrate Hchr n. revert s Hrate Hchr.
  induction n as [| n IH]; intros s Hrate Hchr r s' E.
  - injection E as _ <-. exact Hchr.
  - cbn [Poisson.run] in E.
    destruct (Poisson.loop_iteration topic s) as [[[] | ex] s1] eqn:Et.
    + destruct (chronological_turn ML topic Hlog s _ s1 Hrate Hchr Et)
        as [Hchr1 Hr].
      assert (Hrate1 : 0 <= GLOBAL_RATE_MAXIMUM s1) by (rewrite Hr; exact Hrate).
      exact (IH s1 Hrate1 Hchr1 r s' E).
    + injection E as _ <-.
      exact (proj1 (chronological_turn ML topic Hlog s _ s1 Hrate Hchr Et)).
Qed.

(** Three turns of the example run. *)
Lemma events_published_in_timestamp_order_witness :
  0 <= GLOBAL_RATE_MAXIMUM Example.started /\
  chronological Example.started /\
  chronological
    (snd (Poisson.run (ML:=Example.rational_math) 3 "t" Example.started)).
Proof.
  assert (Hrate : 0 <= GLOBAL_RATE_MAXIMUM Example.started)
    by (vm_compute; discriminate).
  assert (Hchr : chronological Example.started).
  { unfold chronological.
    assert (Et : trace Example.started = []) by (vm_compute; reflexivity).
    rewrite Et. repeat constructor. }
  split; [exact Hrate |]. split; [exact Hchr |].
  exact (events_published_in_timestamp_order Example.rational_math "t"%string
           Example.started rational_log_nonpos Hrate Hchr 3 _ _
           (surjective_pairing _)).
Defined.

(** ** DiurnalModulator: the table against the closed-form curve *)

#[local] Open Scope R_scope.

(** Rational bounds on pi, from a Machin-like series. *)
Lemma PI_bounds : 31415 / 10000 <= PI /\ PI <= 31421 / 10000.
Proof.
  pose proof (PI_2_3_7_ineq 1) as [Hlo Hhi].
  unfold PI_2_3_7_tg, tg_alt, Ratan_seq in Hlo, Hhi.
  cbn [sum_f_R0 Nat.mul Nat.add pow INR] in Hlo, Hhi.
  split; lra.
Qed.

Lemma INR_fact_S n : INR (fact (S n)) = INR (S n) * INR (fact n).
Proof. rewrite fact_simpl, mult_INR. reflexivity. Qed.

Lemma INR_fact_values :
  INR (fact 2) = 2 /\ INR (fact 4) = 24 /\ INR (fact 6) = 720 /\
  INR (fact 8) = 40320 /\ INR (fact 10) = 3628800 /\
  INR (fact 12) = 479001600.
Proof.
  rewrite !INR_fact_S. change (INR (fact 0)) with 1.
  rewrite !S_INR. change (INR 0) with 0.
  repeat split; ring.
Qed.

Ltac push_Q2R :=
  repeat first
    [ rewrite Q2R_plus | rewrite Q2R_minus | rewrite Q2R_mult
    | rewrite Q2R_opp ];
  repeat match goal with
    | |- context [Q2R (?n # ?d)] =>
        change (Q2R (n # d)) with (IZR n * / IZR (Zpos d))
    end.

Lemma cos_taylor_Q (q : Q) :
  -2 <= Q2R q <= 2 ->
  Q2R (cos_lower_Q q) <= cos (Q2R q) <= Q2R (cos_upper_Q q).
Proof.
  intros [H1 H2].
  pose proof (pre_cos_bound (Q2R q) 2 H1 H2) as [Hlo Hhi].
  unfold cos_approx, cos_term in Hlo, Hhi.
  cbn [sum_f_R0 Nat.mul Nat.add] in Hlo, Hhi.
  destruct INR_fact_values as (F2 & F4 & F6 & F8 & F10 & F12).
  rewrite F2, F4, F6, F8, F10 in Hlo.
  rewrite F2, F4, F6, F8, F10, F12 in Hhi.
  change (INR (fact 0)) with 1 in Hlo, Hhi.
  unfold cos_lower_Q, cos_upper_Q. cbv zeta. push_Q2R.
  set (a := Q2R q) in *.
  split.
  - eapply Rle_trans; [| exact Hlo]. right. field.
  - eapply Rle_trans; [exact Hhi |]. right. field.
Qed.

Lemma cos_phase_enclosure (t : Q) :
  0 <= Q2R t <= 30 ->
  Q2R (cos_phase_lo t) <= cos (Q2R t * PI / 60) <= Q2R (cos_phase_hi t).
Proof.
  intros [Ht0 Ht30]. destruct PI_bounds as [Hpl Hph].
  unfold cos_phase_lo, cos_phase_hi.
  set (x := Q2R t * PI / 60).
  assert (Hl : Q2R (t * PI_lo * (1 # 60)) = Q2R t * (31415 / 10000) / 60).
  { unfold PI_lo. push_Q2R. field. }
  assert (Hh : Q2R (t * PI_hi * (1 # 60)) = Q2R t * (31421 / 10000) / 60).
  { unfold PI_hi. push_Q2R. field. }
  assert (Hxl : Q2R (t * PI_lo * (1 # 60)) <= x).
  { rewrite Hl. unfold x. nra. }
  assert (Hxh : x <= Q2R (t * PI_hi * (1 # 60))).
  { rewrite Hh. unfold x. nra. }
  assert (H0l : 0 <= Q2R (t * PI_lo * (1 # 60))) by (rewrite Hl; nra).
  assert (Hh2 : Q2R (t * PI_hi * (1 # 60)) <= 2) by (rewrite Hh; nra).
  assert (HhPI : Q2R (t * PI_hi * (1 # 60)) <= PI) by (rewrite Hh; nra).
  split.
  - apply Rle_trans with (cos (Q2R (t * PI_hi * (1 # 60)))).
    + apply cos_taylor_Q. lra.
    + apply cos_decr_1; lra.
  - apply Rle_trans with (cos (Q2R (t * PI_lo * (1 # 60)))).
    + apply cos_decr_1; lra.
    + apply cos_taylor_Q. lra.
Qed.

Lemma cos_PI_minus (x : R) : cos (PI - x) = - cos x.
Proof.
  replace (PI - x) with (- x + PI) by ring.
  rewrite neg_cos, cos_neg. reflexivity.
Qed.

Lemma Q2R_30 : Q2R 30 = 30.
Proof. unfold Q2R. simpl. lra. Qed.
Lemma Q2R_60 : Q2R 60 = 60.
Proof. unfold Q2R. simpl. lra. Qed.

Lemma phase_enclosure (t : Q) :
  0 <= Q2R t <= 60 ->
  Q2R (phase_lo t) <= cos (Q2R t * PI / 60) <= Q2R (phase_hi t).
Proof.
  intros [H0 H60]. unfold phase_lo, phase_hi.
  destruct (Qle_bool t 30) eqn:E.
  - apply Qle_bool_iff, Qle_Rle in E. rewrite Q2R_30 in E.
    apply cos_phase_enclosure. lra.
  - assert (H30 : 30 < Q2R t).
    { apply Rnot_le_lt. intros Hle. rewrite <- Q2R_30 in Hle.
      apply Rle_Qle, Qle_bool_iff in Hle. congruence. }
    assert (Hs : Q2R (60 - t) = 60 - Q2R t)
      by (rewrite Q2R_minus, Q2R_60; reflexivity).
    destruct (cos_phase_enclosure (60 - t)) as [Hlo Hhi]; [rewrite Hs; lra |].
    rewrite Hs in Hlo, Hhi.
    replace ((60 - Q2R t) * PI / 60) with (PI - Q2R t * PI / 60) in Hlo, Hhi
      by field.
    rewrite cos_PI_minus in Hlo, Hhi.
    rewrite !Q2R_opp. lra.
Qed.

(** On a stretch [a, b] of phases the cosine lies between its values at
    the ends. *)
Lemma phase_stretch (a b : Q) (t : R) :
  0 <= Q2R a -> Q2R b <= 60 -> Q2R a <= t <= Q2R b ->
  Q2R (phase_lo b) <= cos (t * PI / 60) <= Q2R (phase_hi a).
Proof.
  intros Ha Hb [Hat Htb]. destruct PI_bounds as [Hpl Hph].
  destruct (phase_enclosure a) as [_ Hhi]; [lra |].
  destruct (phase_enclosure b) as [Hlo _]; [lra |].
  split.
  - apply Rle_trans with (cos (Q2R b * PI / 60)); [exact Hlo |].
    apply cos_decr_1; nra.
  - apply Rle_trans with (cos (Q2R a * PI / 60)); [| exact Hhi].
    apply cos_decr_1; nra.
Qed.

Lemma table_within_tolerance :
  forallb (bucket_ok (26 # 1000)) (seq 0 120) = true.
Proof. vm_compute. reflexivity. Qed.

Lemma Q2R_inject_Z (z : Z) : Q2R (inject_Z z) = IZR z.
Proof. unfold Q2R. simpl. field. Qed.

(** The closed-form curve over the reals, with its literals evaluated. *)
Lemma continuous_formula (h : R) :
  Simple.user_daily_activity_pattern h
  = 3 / 100 + 97 / 100 * (1 + cos ((h - 16) * (2 * PI / 24))) / 2.
Proof.
  unfold Simple.user_daily_activity_pattern.
  cbn [lit add sub mul div ArithR math_cos math_pi MathR].
  replace (Q2R (3 # 100)) with (3 / 100) by (unfold Q2R; simpl; field).
  replace (Q2R (97 # 100)) with (97 / 100) by (unfold Q2R; simpl; field).
  replace (Q2R 1) with 1 by (unfold Q2R; simpl; field).
  replace (Q2R 2) with 2 by (unfold Q2R; simpl; field).
  replace (Q2R 16) with 16 by (unfold Q2R; simpl; field).
  replace (Q2R 24) with 24 by (unfold Q2R; simpl; field).
  reflexivity.
Qed.

Lemma mod24_id (h : Q) : (0 <= h)%Q -> (h < 24)%Q -> (mod_ h 24 == h)%Q.
Proof.
  intros H0 H24. unfold mod_.
  assert (Hf : Qfloor (h / 24) = 0%Z).
  { pose proof (Qfloor_le (h / 24)) as Hle.
    pose proof (Qlt_floor (h / 24)) as Hlt.
    assert (Hq0 : (0 <= h / 24)%Q) by (apply Qle_shift_div_l; [reflexivity | lra]).
    assert (Hq1 : (h / 24 < 1)%Q) by (apply Qlt_shift_div_r; [reflexivity | lra]).
    assert (H1 : (Qfloor (h / 24) < 1)%Z).
    { rewrite Zlt_Qlt. apply Qle_lt_trans with (h / 24)%Q; assumption. }
    assert (H2 : (-1 < Qfloor (h / 24))%Z).
    { rewrite Zlt_Qlt. rewrite inject_Z_plus in Hlt.
      change (inject_Z (-1)) with (-1)%Q. change (inject_Z 1) with 1%Q in Hlt.
      lra. }
    lia. }
  rewrite Hf. change (inject_Z 0) with 0%Q. ring.
Qed.

(** The bucket of an hour in [0, 24) is the integer part of five times the
    hour. *)
Lemma bucket_of_hour (h : Q) (i : Z) :
  (0 <= h)%Q -> (h < 24)%Q -> Diurnal.bucket h = Ok i ->
  IZR i <= 5 * Q2R h < IZR i + 1.
Proof.
  intros H0 H24 Hb.
  change (Diurnal.bucket h) with (Ok (trunc (mod_ h 24 * 5))) in Hb.
  injection Hb as <-.
  pose proof (mod24_id h H0 H24) as Hm.
  assert (Hx : (mod_ h 24 * 5 == h * 5)%Q) by (rewrite Hm; reflexivity).
  assert (Hnn : (0 <= mod_ h 24 * 5)%Q) by (rewrite Hx; lra).
  rewrite (trunc_nonneg_floor _ Hnn).
  rewrite (Qfloor_comp _ _ Hx).
  pose proof (Qfloor_le (h * 5)) as Hle.
  pose proof (Qlt_floor (h * 5)) as Hlt.
  apply Qle_Rle in Hle. apply Qlt_Rlt in Hlt.
  rewrite Q2R_inject_Z in *. rewrite Q2R_mult in *.
  rewrite plus_IZR in Hlt.
  replace (Q2R 5) with 5 in * by (unfold Q2R; simpl; field).
  lra.
Qed.

(** Along bucket [i] the cosine of the curve is the cosine of a phase that
    stays between [phase_min i] and [phase_min i + 1]. *)
Lemma bucket_phase (h : R) (i : Z) :
  (0 <= i <= 119)%Z -> IZR i <= 5 * h < IZR i + 1 ->
  exists t,
    cos ((h - 16) * (2 * PI / 24)) = cos (t * PI / 60) /\
    IZR (phase_min i) <= t <= IZR (phase_min i) + 1 /\
    (0 <= phase_min i)%Z /\ (phase_min i + 1 <= 60)%Z.
Proof.
  intros Hi Hh. unfold phase_min.
  destruct (Z.ltb_spec i 20) as [H20 | H20];
    [| destruct (Z.ltb_spec i 80) as [H80 | H80]].
  - exists (5 * h + 40). split; [| split; [| lia]].
    + rewrite <- (cos_period ((h - 16) * (2 * PI / 24)) 1).
      f_equal. simpl INR. field.
    + rewrite plus_IZR. lra.
  - exists (80 - 5 * h). split; [| split; [| lia]].
    + rewrite <- cos_neg. f_equal. field.
    + rewrite minus_IZR. lra.
  - exists (5 * h - 80). split; [| split; [| lia]].
    + f_equal. field.
    + rewrite minus_IZR. lra.
Qed.

(** C2 (amended): for every hour h in [0, 24) the closed-form modulator
    0.03 + 0.97 * (1 + cos((h - 16) * 2 pi / 24)) / 2 and the entry of the
    120-entry table at index floor((h mod 24) * 5) agree within 0.026. *)
Theorem diurnal_policies_agree (h : Q) :
  (0 <= h)%Q -> (h < 24)%Q ->
  exists f,
    Poisson.user_daily_activity_pattern h = Ok f /\
    Rabs (Simple.user_daily_activity_pattern (Q2R h) - Q2R f) <= 26 / 1000.
Proof.
  intros H0 H24.
  destruct (exact_pattern_total h) as (i & f & Hi & Hb & Hn & Hf).
  exists f. split; [exact Hf |].
  pose proof (bucket_of_hour h i H0 H24 Hb) as Hh.
  destruct (bucket_phase (Q2R h) i Hi Hh) as (t & Hcos & Ht & Hp0 & Hp60).
  rewrite continuous_formula, Hcos.
  set (j := inject_Z (phase_min i)).
  assert (Hja : Q2R j = IZR (phase_min i)) by apply Q2R_inject_Z.
  assert (Hjb : Q2R (j + 1) = IZR (phase_min i) + 1).
  { rewrite Q2R_plus, Hja. f_equal. unfold Q2R. simpl. field. }
  destruct (phase_stretch j (j + 1)%Q t) as [Hlo Hhi].
  { rewrite Hja. apply IZR_le. exact Hp0. }
  { rewrite Hjb. rewrite <- (plus_IZR _ 1). apply IZR_le. exact Hp60. }
  { rewrite Hja, Hjb. exact Ht. }
  pose proof table_within_tolerance as Hall.
  rewrite forallb_forall in Hall.
  specialize (Hall (Z.to_nat i)).
  assert (Hin : In (Z.to_nat i) (seq 0 120)) by (apply in_seq; lia).
  specialize (Hall Hin). unfold bucket_ok in Hall.
  rewrite Hn in Hall. rewrite Z2Nat.id in Hall by lia. fold j in Hall.
  apply andb_prop in Hall. destruct Hall as [Hup Hdown].
  apply Qle_bool_iff, Qle_Rle in Hup. apply Qle_bool_iff, Qle_Rle in Hdown.
  unfold curve in Hup, Hdown.
  repeat (rewrite Q2R_plus in Hup || rewrite Q2R_mult in Hup).
  repeat (rewrite Q2R_plus in Hdown || rewrite Q2R_minus in Hdown
          || rewrite Q2R_mult in Hdown).
  replace (Q2R (3 # 100)) with (3 / 100) in * by (unfold Q2R; simpl; field).
  replace (Q2R (97 # 100)) with (97 / 100) in * by (unfold Q2R; simpl; field).
  replace (Q2R (26 # 1000)) with (26 / 1000) in * by (unfold Q2R; simpl; field).
  replace (Q2R (1 # 2)) with (1 / 2) in * by (unfold Q2R; simpl; field).
  replace (Q2R 1) with 1 in * by (unfold Q2R; simpl; field).
  apply Rabs_le. lra.
Qed.

(** At 10:11 (hour 10.19) the table still holds the value sampled at 10:00,
    0.515, while the curve has risen above 0.538. *)
Lemma diurnal_policies_differ_by_more_than_a_hundredth :
  ~ (forall h : Q, (0 <= h)%Q -> (h < 24)%Q ->
       exists f,
         Poisson.user_daily_activity_pattern h = Ok f /\
         Rabs (Simple.user_daily_activity_pattern (Q2R h) - Q2R f) <= 1 / 100).
Proof.
  intros H.
  destruct (H (1019 # 100)) as (f & Hf & Habs);
    [discriminate | reflexivity |].
  vm_compute in Hf. injection Hf as <-.
  rewrite continuous_formula in Habs.
  assert (Hcos : cos ((Q2R (1019 # 100) - 16) * (2 * PI / 24))
                 = cos (Q2R (2905 # 100) * PI / 60)).
  { rewrite <- cos_neg. f_equal.
    replace (Q2R (1019 # 100)) with (1019 / 100) by (unfold Q2R; simpl; field).
    replace (Q2R (2905 # 100)) with (2905 / 100) by (unfold Q2R; simpl; field).
    field. }
  rewrite Hcos in Habs.
  destruct (phase_enclosure (2905 # 100)) as [Hlo _].
  { replace (Q2R (2905 # 100)) with (2905 / 100) by (unfold Q2R; simpl; field).
    lra. }
  assert (Hq : (4 # 100 <= phase_lo (2905 # 100))%Q).
  { vm_compute. discriminate. }
  apply Qle_Rle in Hq.
  replace (Q2R (4 # 100)) with (4 / 100) in Hq by (unfold Q2R; simpl; field).
  replace (Q2R (515 # 1000)) with (515 / 1000) in Habs
    by (unfold Q2R; simpl; field).
  match type of Habs with Rabs ?x <= _ => pose proof (Rle_abs x) end.
  lra.
Qed.

(** The peak hour. *)
Lemma diurnal_policies_agree_witness :
  exists f,
    Poisson.user_daily_activity_pattern 16 = Ok f /\
    Rabs (Simple.user_daily_activity_pattern (Q2R 16) - Q2R f) <= 26 / 1000.
Proof.
  apply (diurnal_policies_agree 16).
  - discriminate.
  - reflexivity.
Defined.

(** ** The closed-form curve *)

(** X18: over the reals the closed-form curve stays between 0.03 and 1,
    has period 24, peaks at 1 at hour 16 and bottoms out at 0.03 at
    hour 4. *)
Theorem closed_form_curve_shape (h : R) :
  (3 / 100 <= Simple.user_daily_activity_pattern h <= 1)%R /\
  Simple.user_daily_activity_pattern (h + 24)%R
  = Simple.user_daily_activity_pattern h /\
  Simple.user_daily_activity_pattern 16%R = 1%R /\
  Simple.user_daily_activity_pattern 4%R = (3 / 100)%R.
Proof.
  rewrite !continuous_formula.
  split; [| split; [| split]].
  - pose proof (COS_bound ((h - 16) * (2 * PI / 24))) as [Hlo Hhi]. lra.
  - replace ((h + 24 - 16) * (2 * PI / 24))%R
      with ((h - 16) * (2 * PI / 24) + 2 * INR 1 * PI)%R
      by (simpl INR; field).
    rewrite cos_period. reflexivity.
  - replace ((16 - 16) * (2 * PI / 24))%R with 0%R by field.
    rewrite cos_0. field.
  - replace ((4 - 16) * (2 * PI / 24))%R with (- PI)%R by field.
    rewrite cos_neg, cos_PI. field.
Qed.
